(** * FileVault: content-addressed file deduplication

    A shallow embedding of [backend/files/models.py] and
    [backend/files/views.py]: the [File] table, the blob storage behind its
    [FileField], the hasher [compute_file_hash] and the three request
    handlers of [FileViewSet] ([create], [destroy], and listing through
    [get_queryset]), followed by the properties the specification states
    about them. *)

From Stdlib Require Import ZArith NArith Strings.Byte Ascii Lia.
From Stdlib Require String.
From stdpp Require Import base decidable option list sorting gmap strings stringmap.
From Equations Require Import Equations.

Local Open Scope Z_scope.

(** * Library interfaces

    The views call into [hashlib], the Django storage layer, the
    serializer derived by Django REST framework and a few parsers.  Their
    code is not part of the repository; each is taken through its
    documented contract. *)

(** [hashlib.sha256()]: an object fed with [update] and read with
    [hexdigest].  Feeding two chunks one after the other is the same as
    feeding their concatenation. *)
Class Hashlib := {
  sha256_state : Type;
  sha256_new : sha256_state;
  sha256_update : sha256_state → list byte → sha256_state;
  sha256_hexdigest : sha256_state → string;
  sha256_update_nil : ∀ s, sha256_update s [] = s;
  sha256_update_app : ∀ s a b,
    sha256_update (sha256_update s a) b = sha256_update s (a ++ b)
}.

(** The digest of a byte string fed in one piece. *)
Definition sha256_hex `{Hashlib} (bytes : list byte) : string :=
  sha256_hexdigest (sha256_update sha256_new bytes).

(** * Uploaded files as byte streams

    An uploaded file is a seekable stream ([tell], [seek], [read]) that
    also carries the client's file name and declared content type; its
    [size] is the number of bytes received. *)
Module upload.
Record UploadedFile := {
  name : string;
  content_type : string;
  content : list byte;
  position : nat
}.

Definition size (f : UploadedFile) : Z := Z.of_nat (length (content f)).

Definition tell (f : UploadedFile) : nat := position f.

Definition seek (f : UploadedFile) (pos : nat) : UploadedFile :=
  {| name := name f; content_type := content_type f;
     content := content f; position := pos |}.

(** [read(n)]: at most [n] bytes from the current position, which moves
    past the bytes returned; nothing is returned at or after the end. *)
Definition read (f : UploadedFile) (n : nat) : list byte * UploadedFile :=
  let chunk := take n (drop (position f) (content f)) in
  (chunk, seek f (position f + length chunk)%nat).

(** Truth value of a file object: that of its name. *)
Definition truthy (f : UploadedFile) : bool :=
  negb (String.eqb (name f) "").
End upload.

Abbreviation UploadedFile := upload.UploadedFile.

(** * views.py: [compute_file_hash] *)

Definition default_chunk_size : nat := (8 * 1024)%nat.

(** Keeps the equation between a scrutinee and the pattern it matched. *)
Definition inspect {A} (a : A) : {b : A | a = b} := exist _ a eq_refl.

Section hasher.
Context `{Hashlib}.

(** The [while True] loop: read a chunk, stop on an empty one, feed it to
    the hash object otherwise.  Each round with a non-empty chunk moves
    the position forward, so the unread remainder shrinks. *)
Equations? hash_loop (chunk_size : nat) (file_obj : UploadedFile)
    (sha256 : sha256_state) : sha256_state * UploadedFile
    by wf (length (upload.content file_obj) - upload.position file_obj)%nat lt :=
  hash_loop chunk_size file_obj sha256
    with inspect (upload.read file_obj chunk_size) => {
    | exist _ ([], file_obj') _ := (sha256, file_obj');
    | exist _ (b :: chunk, file_obj') eq :=
        hash_loop chunk_size file_obj' (sha256_update sha256 (b :: chunk)) }.
Proof.
  match goal with
  | Hchunk : take _ ?rest = _ :: _ |- _ =>
      assert (Hlen : (length (take chunk_size rest) ≤ length rest)%nat)
        by (rewrite length_take; lia);
      rewrite Hchunk in *; rewrite length_drop in Hlen
  end.
  simpl in *. lia.
Qed.

Definition compute_file_hash (file_obj : UploadedFile) (chunk_size : nat)
    : string * UploadedFile :=
  let original_position := upload.tell file_obj in
  let file_obj := upload.seek file_obj 0 in
  let '(sha256, file_obj) := hash_loop chunk_size file_obj sha256_new in
  let file_obj := upload.seek file_obj original_position in
  (sha256_hexdigest sha256, file_obj).
End hasher.


(** * models.py: the [File] table *)

(** Identifiers are UUIDs, kept as numbers. *)
Definition uuid := N.

Module models.
(** One row of the table.  [file] is the name stored by the [FileField]
    (the blob locator, empty when there is none), [content_hash] is
    nullable and unique, [referenced_file] is the nullable self
    reference (the primary key of the original). *)
Record File := {
  id : uuid;
  file : string;
  original_filename : string;
  file_type : string;
  size : Z;
  uploaded_at : Z;
  content_hash : option string;
  is_duplicate : bool;
  reference_count : Z;
  referenced_file : option uuid
}.

Definition with_reference_count (r : File) (n : Z) : File :=
  {| id := id r; file := file r; original_filename := original_filename r;
     file_type := file_type r; size := size r; uploaded_at := uploaded_at r;
     content_hash := content_hash r; is_duplicate := is_duplicate r;
     reference_count := n; referenced_file := referenced_file r |}.

Definition with_file (r : File) (name : string) : File :=
  {| id := id r; file := name; original_filename := original_filename r;
     file_type := file_type r; size := size r; uploaded_at := uploaded_at r;
     content_hash := content_hash r; is_duplicate := is_duplicate r;
     reference_count := reference_count r;
     referenced_file := referenced_file r |}.

(** [Meta.ordering = ['-uploaded_at']]: [a] may come before [b]. *)
Definition ordering (a b : File) : Prop := uploaded_at b ≤ uploaded_at a.
End models.

Abbreviation File := models.File.

Global Instance File_eq_dec : EqDecision File.
Proof. solve_decision. Defined.

Global Instance ordering_dec : RelDecision models.ordering.
Proof. intros a b. unfold models.ordering. apply _. Defined.

Global Instance ordering_total : Total models.ordering.
Proof. intros a b. unfold models.ordering. lia. Qed.

Global Instance ordering_trans : Transitive models.ordering.
Proof. intros a b c. unfold models.ordering. lia. Qed.

(** ** Strings *)

(** [filename.split('.')[-1]]: what follows the last dot, the whole name
    when it has none. *)
Fixpoint last_component (s cur : string) : string :=
  match s with
  | EmptyString => cur
  | String c s' =>
      if Ascii.eqb c "."%char then last_component s' ""
      else last_component s' (cur +:+ String c "")
  end.

Definition hex_digit (d : N) : ascii :=
  match d with
  | 0 => "0" | 1 => "1" | 2 => "2" | 3 => "3" | 4 => "4" | 5 => "5"
  | 6 => "6" | 7 => "7" | 8 => "8" | 9 => "9" | 10 => "a" | 11 => "b"
  | 12 => "c" | 13 => "d" | 14 => "e" | _ => "f"
  end%N%char.

(** The lowest [digits] hexadecimal digits of [x], most significant first. *)
Fixpoint hex (digits : nat) (x : N) : string :=
  match digits with
  | O => ""
  | S n => hex n (N.shiftr x 4) +:+ String (hex_digit (N.land x 15)) ""
  end.

(** [str(uuid)]: 8-4-4-4-12 hexadecimal digits. *)
Definition uuid_str (u : uuid) : string :=
  hex 8 (N.shiftr u 96) +:+ "-" +:+ hex 4 (N.shiftr u 80) +:+ "-"
  +:+ hex 4 (N.shiftr u 64) +:+ "-" +:+ hex 4 (N.shiftr u 48) +:+ "-"
  +:+ hex 12 u.

(** [file_upload_path], given the UUID it draws. *)
Definition file_upload_path (drawn : uuid) (filename : string) : string :=
  let ext := last_component filename "" in
  let filename := uuid_str drawn +:+ "." +:+ ext in
  "uploads/" +:+ filename.

Definition lower_ascii (c : ascii) : ascii :=
  let n := nat_of_ascii c in
  if ((65 <=? n) && (n <=? 90))%nat then ascii_of_nat (n + 32) else c.

Fixpoint lower (s : string) : string :=
  match s with
  | EmptyString => EmptyString
  | String c s' => String (lower_ascii c) (lower s')
  end.

Fixpoint contains (s sub : string) : bool :=
  String.prefix sub s ||
  match s with
  | EmptyString => false
  | String _ s' => contains s' sub
  end.

(** The [icontains] lookup. *)
Definition icontains (s sub : string) : bool := contains (lower s) (lower sub).

(** Truth value of a string: non-empty. *)
Definition nonempty (s : string) : bool := negb (String.eqb s "").

(** ** Dates and times *)
Module datetime.
(** A [datetime]: microseconds on the wall clock since the epoch, and the
    UTC offset of its time zone ([None] for a naive value). *)
Record datetime := { wall : Z; utcoffset : option Z }.

(** A [date]: days since the epoch. *)
Definition date := Z.

Definition day : Z := 86400000000.

(** [datetime.combine(d, datetime.min.time())] *)
Definition combine_min (d : date) : datetime :=
  {| wall := d * day; utcoffset := None |}.

(** [datetime.combine(d, datetime.max.time())] *)
Definition combine_max (d : date) : datetime :=
  {| wall := d * day + (day - 1); utcoffset := None |}.

Definition is_naive (dt : datetime) : bool :=
  match utcoffset dt with None => true | Some _ => false end.

(** [timezone.make_aware] in a zone of offset [tz]. *)
Definition make_aware (tz : Z) (dt : datetime) : datetime :=
  {| wall := wall dt; utcoffset := Some tz |}.

(** The instant an aware value denotes, in UTC microseconds (a naive
    value is read as UTC). *)
Definition instant (dt : datetime) : Z :=
  wall dt - default 0 (utcoffset dt).
End datetime.

(** What a parser of [django.utils.dateparse] does with a string: a value,
    [None] when the string is not in the format, or a [ValueError] when it
    is in the format but denotes no date. *)
Inductive parsed (A : Type) : Type :=
| Parsed (v : A)
| NoMatch
| ValueError.
Arguments Parsed {A} v.
Arguments NoMatch {A}.
Arguments ValueError {A}.

(** ** The framework *)

(** [max_length] of the model's [FileField] (the default, 100): the
    longest blob name the [file] column takes. *)
Definition max_length : nat := 100.

(** What the views use of Python, Django and Django REST framework:
    - the storage, asked to save under a path, settles on a name for the
      new blob that is not empty, not in use and within [max_length], or
      refuses the path when it cannot be made to fit
      ([SuspiciousFileOperation]);
    - the serializer built from the model validates an upload, and refuses
      a file without a name and an empty file; the text fields it hands on
      are the values its [CharField]s return (white space trimmed);
    - [int], [parse_datetime] and [parse_date] parse strings;
    - the current time zone has a fixed UTC offset. *)
Class Framework := {
  get_available_name : gmap string (list byte) → string → option string;
  get_available_name_free : ∀ blobs requested name,
    get_available_name blobs requested = Some name → blobs !! name = None;
  get_available_name_nonempty : ∀ blobs requested name,
    get_available_name blobs requested = Some name → name ≠ "";
  get_available_name_max_length : ∀ blobs requested name,
    get_available_name blobs requested = Some name →
    (String.length name ≤ max_length)%nat;
  serializer_errors : UploadedFile → list (string * string);
  serializer_errors_no_name : ∀ f,
    upload.name f = "" → serializer_errors f ≠ [];
  serializer_errors_empty : ∀ f,
    upload.content f = [] → serializer_errors f ≠ [];
  to_internal_value : string → string;
  int : string → option Z;
  parse_datetime : string → parsed datetime.datetime;
  parse_date : string → parsed datetime.date;
  current_timezone : Z
}.

(** * The database, the blob storage and a request's connection *)

(** What persists between requests: the rows of the table, the blobs kept
    by the storage under their names, and the source of fresh UUIDs. *)
Record World := {
  db : list File;
  media : gmap string (list byte);
  uuid_supply : N
}.

Definition empty_world : World :=
  {| db := []; media := ∅; uuid_supply := 0 |}.

(** A request in progress: the world as its connection sees it, the rows a
    rollback returns to, and the two transaction flags of the connection. *)
Record State := {
  world : World;
  committed : list File;
  in_atomic_block : bool;
  needs_rollback : bool
}.

Definition set_db (rows : list File) (w : World) : World :=
  {| db := rows; media := media w; uuid_supply := uuid_supply w |}.
Definition set_media (blobs : gmap string (list byte)) (w : World) : World :=
  {| db := db w; media := blobs; uuid_supply := uuid_supply w |}.
Definition set_uuid_supply (n : N) (w : World) : World :=
  {| db := db w; media := media w; uuid_supply := n |}.

Definition set_world (w : World) (s : State) : State :=
  {| world := w; committed := committed s;
     in_atomic_block := in_atomic_block s; needs_rollback := needs_rollback s |}.
Definition set_needs_rollback (b : bool) (s : State) : State :=
  {| world := world s; committed := committed s;
     in_atomic_block := in_atomic_block s; needs_rollback := b |}.

(** The connection a request starts with (autocommit, no transaction). *)
Definition connect (w : World) : State :=
  {| world := w; committed := db w;
     in_atomic_block := false; needs_rollback := false |}.

(** ** Exceptions and the monad of a view *)

Inductive exn : Type :=
| IntegrityError
| TransactionManagementError
| DoesNotExist
| MultipleObjectsReturned
| ProtectedError
| ValidationError (errors : list (string * string))
| PermissionDenied (detail : string)
| Http404
| SuspiciousFileOperation.

Inductive outcome (A : Type) : Type :=
| Return (a : A)
| Raise (e : exn).
Arguments Return {A} a.
Arguments Raise {A} e.

(** A computation reads and changes the state and returns or raises.  The
    state survives a raise: what was written to the storage stays written. *)
Definition M (A : Type) : Type := State → outcome A * State.

Definition ret {A} (a : A) : M A := λ s, (Return a, s).
Definition raise {A} (e : exn) : M A := λ s, (Raise e, s).
Definition bind {A B} (m : M A) (k : A → M B) : M B :=
  λ s, match m s with
       | (Return a, s') => k a s'
       | (Raise e, s') => (Raise e, s')
       end.

Notation "'let*' x := m 'in' k" := (bind m (λ x, k))
  (at level 10, x name, m at level 100, k at level 200, only parsing).
Notation "'do' m 'then' k" := (bind m (λ _, k))
  (at level 10, m at level 100, k at level 200, only parsing).

Definition get_world : M World := λ s, (Return (world s), s).
Definition put_world (w : World) : M unit := λ s, (Return tt, set_world w s).

(** [try: body except IntegrityError: handler] *)
Definition except_IntegrityError {A} (body handler : M A) : M A :=
  λ s, match body s with
       | (Raise IntegrityError, s') => handler s'
       | r => r
       end.

(** ** Transactions *)

(** A query is refused once the transaction is marked for rollback. *)
Definition validate_no_broken_transaction : M unit :=
  λ s, if needs_rollback s then (Raise TransactionManagementError, s)
       else (Return tt, s).

(** A write that raises inside an atomic block marks the transaction for
    rollback before the exception travels on. *)
Definition mark_for_rollback_on_error {A} (m : M A) : M A :=
  λ s, match m s with
       | (Raise e, s') =>
           (Raise e, if in_atomic_block s' then set_needs_rollback true s' else s')
       | r => r
       end.

(** The connection inside an atomic block entered when the rows were
    [snapshot]. *)
Definition in_transaction (w : World) (snapshot : list File) : State :=
  {| world := w; committed := snapshot;
     in_atomic_block := true; needs_rollback := false |}.

(** The same once a write has failed: marked for rollback. *)
Definition broken (w : World) (snapshot : list File) : State :=
  {| world := w; committed := snapshot;
     in_atomic_block := true; needs_rollback := true |}.

Definition rollback (s : State) : State :=
  {| world := set_db (committed s) (world s); committed := committed s;
     in_atomic_block := false; needs_rollback := false |}.

Definition commit (s : State) : State :=
  {| world := world s; committed := db (world s);
     in_atomic_block := false; needs_rollback := false |}.

(** [with transaction.atomic(): body].  Leaving the block normally commits;
    leaving it through an exception, or marked for rollback, restores the
    rows.  Blobs are not part of the transaction. *)
Definition atomic {A} (body : M A) : M A :=
  λ s, let s0 := in_transaction (world s) (db (world s)) in
       match body s0 with
       | (Return a, s1) =>
           (Return a, if needs_rollback s1 then rollback s1 else commit s1)
       | (Raise e, s1) => (Raise e, rollback s1)
       end.

(** Requests of other clients that run to completion on their own
    connections while this one is between two statements.  It is used where
    this transaction has written nothing yet, so what they commit is both
    what this connection sees next and what a rollback returns to. *)
Definition interleave (others : World → World) : M unit :=
  λ s, let w := others (world s) in
       (Return tt,
        {| world := w; committed := db w;
           in_atomic_block := in_atomic_block s;
           needs_rollback := needs_rollback s |}).

(** ** The object-relational mapper *)

(** A lazy queryset over the table: the conjunction of its filters. *)
Definition QuerySet := File → bool.

Definition objects_all : QuerySet := λ _, true.
Definition qs_filter (qs : QuerySet) (p : File → bool) : QuerySet :=
  λ r, qs r && p r.

Definition pk_is (pk : uuid) : File → bool := λ r, bool_decide (models.id r = pk).
Definition content_hash_is (h : string) : File → bool :=
  λ r, bool_decide (models.content_hash r = Some h).
Definition references (pk : uuid) : File → bool :=
  λ r, bool_decide (models.referenced_file r = Some pk).

(** Evaluating a queryset: the matching rows in the model's ordering.
    The database is taken to evaluate every filter the view has accepted;
    a bound outside the range of its column's type, which some backends
    refuse when the query runs, is not modelled. *)
Definition evaluate (qs : QuerySet) : M (list File) :=
  do validate_no_broken_transaction then
  let* w := get_world in
  ret (merge_sort models.ordering (filter (λ r, qs r) (db w))).

(** [queryset.first()] *)
Definition first (qs : QuerySet) : M (option File) :=
  let* rows := evaluate qs in ret (head rows).

(** [queryset.get()] *)
Definition get (qs : QuerySet) : M File :=
  let* rows := evaluate qs in
  match rows with
  | [] => raise DoesNotExist
  | [r] => ret r
  | _ => raise MultipleObjectsReturned
  end.

(** A row with its [reference_count] moved by [delta] if its key is [pk];
    the table after that, and after the row of key [pk] is deleted. *)
Definition bump_row (pk : uuid) (delta : Z) (r : File) : File :=
  if pk_is pk r
  then models.with_reference_count r (models.reference_count r + delta)
  else r.

Definition bump (pk : uuid) (delta : Z) (rows : list File) : list File :=
  map (bump_row pk delta) rows.

Definition remove (pk : uuid) (rows : list File) : list File :=
  filter (λ r, models.id r ≠ pk) rows.

(** Writes.  Each checks the constraints of the schema and raises
    [IntegrityError] instead of breaking one. *)

(** INSERT: the primary key and a non-null [content_hash] must be new, and
    a non-null [referenced_file] must be the key of a row. *)
Definition insert (row : File) : M unit :=
  mark_for_rollback_on_error (
    do validate_no_broken_transaction then
    let* w := get_world in
    let rows := db w in
    let pk_taken := existsb (pk_is (models.id row)) rows in
    let hash_taken :=
      match models.content_hash row with
      | Some h => existsb (content_hash_is h) rows
      | None => false
      end in
    let dangling :=
      match models.referenced_file row with
      | Some pk => negb (existsb (pk_is pk) rows)
      | None => false
      end in
    if pk_taken || hash_taken || dangling then raise IntegrityError
    else put_world (set_db (rows ++ [row]) w)).

(** [File.objects.filter(id=pk).update(reference_count=F('reference_count') + delta)]:
    one UPDATE statement; a [PositiveIntegerField] may not become negative. *)
Definition update_reference_count (pk : uuid) (delta : Z) : M unit :=
  mark_for_rollback_on_error (
    do validate_no_broken_transaction then
    let* w := get_world in
    let rows := db w in
    if existsb (λ r, pk_is pk r && (models.reference_count r + delta <? 0)) rows
    then raise IntegrityError
    else put_world (set_db (bump pk delta rows) w)).

(** [instance.save()] of a stored row: UPDATE of all its columns (an INSERT
    when no row has its key). *)
Definition save (instance : File) : M unit :=
  let* w := get_world in
  if existsb (pk_is (models.id instance)) (db w) then
    mark_for_rollback_on_error (
      do validate_no_broken_transaction then
      put_world (set_db (map (λ r, if pk_is (models.id instance) r
                                    then instance else r) (db w)) w))
  else insert instance.

(** [instance.delete()]: [on_delete=PROTECT] refuses while a row references
    this one. *)
Definition delete_instance (instance : File) : M unit :=
  do validate_no_broken_transaction then
  let* w := get_world in
  if existsb (references (models.id instance)) (db w) then raise ProtectedError
  else put_world (set_db (remove (models.id instance) (db w)) w).

(** [uuid.uuid4()]: the next identifier; none is drawn twice. *)
Definition uuid4 : M uuid :=
  let* w := get_world in
  do put_world (set_uuid_supply (N.succ (uuid_supply w)) w) then
  ret (uuid_supply w).

(** ** The blob storage behind [File.file] *)

Section framework.
Context `{Hashlib} `{Framework}.

(** [storage.save(name, content, max_length)]: the bytes go under the
    name the storage settles on, which is returned; a path it cannot fit
    is refused before anything is written. *)
Definition storage_save (requested : string) (bytes : list byte) : M string :=
  let* w := get_world in
  match get_available_name (media w) requested with
  | Some name =>
      do put_world (set_media (<[name := bytes]> (media w)) w) then
      ret name
  | None => raise SuspiciousFileOperation
  end.

(** [storage.delete(name)] *)
Definition storage_delete (name : string) : M unit :=
  let* w := get_world in
  put_world (set_media (delete name (media w)) w).

(** [File.objects.create(...)].  The primary key is drawn when the
    instance is built.  On saving, a [file] given as an upload is first
    written to the storage under [file_upload_path], a [file] given as a
    name is kept as it is, and [uploaded_at] is set to the current time;
    then the row is inserted. *)
Definition objects_create (file : UploadedFile + string)
    (original_filename file_type : string) (size : Z)
    (content_hash : option string) (is_duplicate : bool)
    (referenced_file : option File) (reference_count : Z) (now : Z) : M File :=
  let* pk := uuid4 in
  let* name :=
    match file with
    | inl file_obj =>
        let* drawn := uuid4 in
        storage_save (file_upload_path drawn (upload.name file_obj))
                     (upload.content file_obj)
    | inr name => ret name
    end in
  let row :=
    {| models.id := pk; models.file := name;
       models.original_filename := original_filename;
       models.file_type := file_type; models.size := size;
       models.uploaded_at := now; models.content_hash := content_hash;
       models.is_duplicate := is_duplicate;
       models.reference_count := reference_count;
       models.referenced_file := models.id <$> referenced_file |} in
  do insert row then
  ret row.

(** [instance.file.delete()]: the blob is removed, the field is emptied
    and the instance is saved. *)
Definition FieldFile_delete (instance : File) : M File :=
  do storage_delete (models.file instance) then
  let instance := models.with_file instance "" in
  do save instance then
  ret instance.

(** [instance.referenced_file]: the referenced row is fetched. *)
Definition get_referenced_file (instance : File) : M (option File) :=
  match models.referenced_file instance with
  | None => ret None
  | Some pk => let* r := get (pk_is pk) in ret (Some r)
  end.

(** [instance.refresh_from_db()] *)
Definition refresh_from_db (instance : File) : M File :=
  get (pk_is (models.id instance)).
End framework.

(** * views.py: [FileViewSet] *)

(** What a response carries. *)
Inductive body : Type :=
| Serialized (r : File)
| SerializedMany (rows : list File)
| Errors (errors : list (string * string))
| Detail (detail : string)
| ErrorPage
| NoContent.

Record Response := { status : nat; data : body }.

Definition HTTP_200_OK : nat := 200.
Definition HTTP_201_CREATED : nat := 201.
Definition HTTP_204_NO_CONTENT : nat := 204.
Definition HTTP_400_BAD_REQUEST : nat := 400.

(** How an exception that leaves a view becomes a response: the three API
    exceptions have their status and body, a [SuspiciousFileOperation] is
    answered by Django itself with its page for a bad request, anything
    else is a server error. *)
Definition exception_handler (e : exn) : Response :=
  match e with
  | ValidationError errors => {| status := 400; data := Errors errors |}
  | PermissionDenied detail => {| status := 403; data := Detail detail |}
  | Http404 => {| status := 404; data := Detail "Not found." |}
  | SuspiciousFileOperation => {| status := 400; data := ErrorPage |}
  | _ => {| status := 500; data := NoContent |}
  end.

(** [request.query_params]. *)
Abbreviation query_params := (gmap string string).

Module FileViewSet.
Section views.
Context `{Hashlib} `{Framework}.

(** The [try] block of a date bound: the datetime to compare with, or
    [None] where the source raises or meets [ValueError].  [time_of_day]
    is [datetime.combine] with the start or the end of the day. *)
Definition date_bound (value : string)
    (time_of_day : datetime.date → datetime.datetime)
    : option datetime.datetime :=
  match parse_datetime value with
  | ValueError => None
  | Parsed datetime_obj =>
      Some (if datetime.is_naive datetime_obj
            then datetime.make_aware current_timezone datetime_obj
            else datetime_obj)
  | NoMatch =>
      match parse_date value with
      | Parsed date_obj =>
          Some (datetime.make_aware current_timezone (time_of_day date_obj))
      | _ => None
      end
  end.

(** A parameter that is present and not empty. *)
Definition param (q : query_params) (key : string) : option string :=
  match q !! key with
  | Some v => if nonempty v then Some v else None
  | None => None
  end.

Definition get_queryset (q : query_params) : exn + QuerySet :=
  let queryset := objects_all in
  let queryset :=
    match param q "search" with
    | Some search =>
        qs_filter queryset (λ r, icontains (models.original_filename r) search)
    | None => queryset
    end in
  let queryset :=
    match param q "file_type" with
    | Some file_type =>
        qs_filter queryset (λ r, String.eqb (models.file_type r) file_type)
    | None => queryset
    end in
  match
    match param q "size_min" with
    | Some size_min =>
        match int size_min with
        | Some size_min_int =>
            inr (qs_filter queryset (λ r, size_min_int <=? models.size r))
        | None => inl (ValidationError [("size_min", "Must be a valid integer")])
        end
    | None => inr queryset
    end
  with
  | inl e => inl e
  | inr queryset =>
  match
    match param q "size_max" with
    | Some size_max =>
        match int size_max with
        | Some size_max_int =>
            inr (qs_filter queryset (λ r, models.size r <=? size_max_int))
        | None => inl (ValidationError [("size_max", "Must be a valid integer")])
        end
    | None => inr queryset
    end
  with
  | inl e => inl e
  | inr queryset =>
  match
    match param q "uploaded_after" with
    | Some uploaded_after =>
        match date_bound uploaded_after datetime.combine_min with
        | Some datetime_obj =>
            inr (qs_filter queryset
                   (λ r, datetime.instant datetime_obj <=? models.uploaded_at r))
        | None =>
            inl (ValidationError
                   [("uploaded_after", "Must be a valid ISO 8601 date (YYYY-MM-DD)")])
        end
    | None => inr queryset
    end
  with
  | inl e => inl e
  | inr queryset =>
    match param q "uploaded_before" with
    | Some uploaded_before =>
        match date_bound uploaded_before datetime.combine_max with
        | Some datetime_obj =>
            inr (qs_filter queryset
                   (λ r, models.uploaded_at r <=? datetime.instant datetime_obj))
        | None =>
            inl (ValidationError
                   [("uploaded_before", "Must be a valid ISO 8601 date (YYYY-MM-DD)")])
        end
    | None => inr queryset
    end
  end end end.

(** Listing: the queryset is evaluated and serialized. *)
Definition list_view (q : query_params) : M Response :=
  match get_queryset q with
  | inl e => raise e
  | inr queryset =>
      let* rows := evaluate queryset in
      ret {| status := HTTP_200_OK; data := SerializedMany rows |}
  end.

(** [self.get_object()]: the row with this key in the filtered queryset,
    or a 404. *)
Definition get_object (q : query_params) (pk : uuid) : M File :=
  match get_queryset q with
  | inl e => raise e
  | inr queryset =>
      let* rows := evaluate (qs_filter queryset (pk_is pk)) in
      match rows with
      | [] => raise Http404
      | [r] => ret r
      | _ => raise MultipleObjectsReturned
      end
  end.

(** [serializer.is_valid(raise_exception=True)] *)
Definition is_valid (file_obj : UploadedFile) : M unit :=
  match serializer_errors file_obj with
  | [] => ret tt
  | errors => raise (ValidationError errors)
  end.

(** The statements that record an upload as a duplicate of
    [existing_file]; [create] has them twice, once where the lookup finds
    the original and once in its [IntegrityError] handler. *)
Definition create_duplicate (file_obj : UploadedFile) (existing_file : File)
    (now : Z) : M Response :=
  let* duplicate_file :=
    objects_create (inr (models.file existing_file))
      (upload.name file_obj) (upload.content_type file_obj)
      (upload.size file_obj) None true (Some existing_file) 1 now in
  do update_reference_count (models.id existing_file) 1 then
  let* existing_file := refresh_from_db existing_file in
  ret {| status := HTTP_201_CREATED; data := Serialized duplicate_file |}.

(** [create].  [others] stands for the requests of other clients that are
    served between the lookup and the insert of this one.  [serializer.save]
    creates the row from the serializer's validated data: the file object
    itself, and the two text fields as its [CharField]s return them. *)
Definition create (others : World → World) (file_obj : option UploadedFile)
    (now : Z) : M Response :=
  match file_obj with
  | None =>
      ret {| status := HTTP_400_BAD_REQUEST;
             data := Errors [("error", "No file provided")] |}
  | Some file_obj =>
      if negb (upload.truthy file_obj) then
        ret {| status := HTTP_400_BAD_REQUEST;
               data := Errors [("error", "No file provided")] |}
      else
        let '(content_hash, file_obj) :=
          compute_file_hash file_obj default_chunk_size in
        atomic (
          let* existing_file :=
            first (qs_filter objects_all (content_hash_is content_hash)) in
          match existing_file with
          | Some existing_file => create_duplicate file_obj existing_file now
          | None =>
              do interleave others then
              except_IntegrityError
                (do is_valid file_obj then
                 let* instance :=
                   objects_create (inl file_obj)
                     (to_internal_value (upload.name file_obj))
                     (to_internal_value (upload.content_type file_obj))
                     (upload.size file_obj) (Some content_hash) false None 1
                     now in
                 ret {| status := HTTP_201_CREATED;
                        data := Serialized instance |})
                (let* existing_file :=
                   get (qs_filter objects_all (content_hash_is content_hash)) in
                 create_duplicate file_obj existing_file now)
          end)
  end.

Definition destroy (q : query_params) (pk : uuid) : M Response :=
  let* instance := get_object q pk in
  atomic (
    if models.is_duplicate instance then
      let* original := get_referenced_file instance in
      do match original with
         | Some original => update_reference_count (models.id original) (-1)
         | None => ret tt
         end then
      do delete_instance instance then
      ret {| status := HTTP_204_NO_CONTENT; data := NoContent |}
    else
      if 1 <? models.reference_count instance then
        raise (PermissionDenied
          "Cannot delete original file that has duplicates. Delete duplicates first.")
      else
        let* instance :=
          if nonempty (models.file instance) then FieldFile_delete instance
          else ret instance in
        do delete_instance instance then
        ret {| status := HTTP_204_NO_CONTENT; data := NoContent |}).
End views.
End FileViewSet.

(** * Serving requests *)

Inductive request : Type :=
| POST (file : option UploadedFile) (now : Z)
| DELETE (pk : uuid) (q : query_params)
| GET (q : query_params).

Section server.
Context `{Hashlib} `{Framework}.

(** A view runs on a fresh connection; an exception that leaves it is
    turned into a response. *)
Definition respond (view : M Response) (w : World) : Response * World :=
  match view (connect w) with
  | (Return r, s) => (r, world s)
  | (Raise e, s) => (exception_handler e, world s)
  end.

Definition handle (others : World → World) (r : request)
    : World → Response * World :=
  respond match r with
          | POST file now => FileViewSet.create others file now
          | DELETE pk q => FileViewSet.destroy q pk
          | GET q => FileViewSet.list_view q
          end.

(** Requests served one after the other. *)
Definition run (rs : list request) (w : World) : World :=
  foldl (λ w r, snd (handle id r w)) w rs.

(** A request served while the requests [concurrent] arrive: they are
    served, one after the other, at the one point where the view can be
    overtaken (between the lookup and the insert of [create]; the other
    views ignore them). *)
Definition serve (r : request) (concurrent : list request)
    : World → Response * World :=
  handle (run concurrent) r.

(** The worlds the service can be in: those a history of requests, each
    with the requests that overtook it, leads to from the empty one. *)
Definition reachable (w : World) : Prop :=
  ∃ history : list (request * list request),
    w = foldl (λ w rc, snd (serve rc.1 rc.2 w)) empty_world history.

End server.

(** * The data model's invariants *)

(** The duplicates that refer to the row of key [pk]. *)
Definition live_duplicates (pk : uuid) (rows : list File) : list File :=
  filter (λ r, models.is_duplicate r = true ∧ models.referenced_file r = Some pk)
         rows.

(** The row of key [pk], if any. *)
Definition row (pk : uuid) (rows : list File) : option File :=
  head (filter (λ r, models.id r = pk) rows).

(** What holds of the table and the storage between two requests:
    - keys are distinct and were drawn from the supply;
    - a [content_hash] is held by one row at most;
    - a duplicate has no [content_hash], a [reference_count] of 1, and
      refers to an original whose blob name it shares;
    - an original refers to no row, has a [content_hash], counts itself
      and the duplicates that refer to it, and owns a stored blob;
    - two originals never share a blob. *)
Record consistent (w : World) : Prop := {
  keys_drawn : ∀ r, r ∈ db w → (models.id r < uuid_supply w)%N;
  keys_distinct : NoDup (models.id <$> db w);
  hash_once : ∀ r1 r2 h, r1 ∈ db w → r2 ∈ db w →
    models.content_hash r1 = Some h → models.content_hash r2 = Some h → r1 = r2;
  duplicate_shape : ∀ r, r ∈ db w → models.is_duplicate r = true →
    models.content_hash r = None ∧ models.reference_count r = 1 ∧
    ∃ c, c ∈ db w ∧ models.referenced_file r = Some (models.id c) ∧
         models.is_duplicate c = false ∧ models.file r = models.file c;
  original_shape : ∀ r, r ∈ db w → models.is_duplicate r = false →
    models.referenced_file r = None ∧ is_Some (models.content_hash r) ∧
    models.reference_count r
      = 1 + Z.of_nat (length (live_duplicates (models.id r) (db w))) ∧
    is_Some (media w !! models.file r) ∧ models.file r ≠ "";
  blob_owner : ∀ r1 r2, r1 ∈ db w → r2 ∈ db w →
    models.is_duplicate r1 = false → models.is_duplicate r2 = false →
    models.file r1 = models.file r2 → r1 = r2
}.

(** The rows [create] builds: the duplicate of [existing] and the original
    of an upload, with the key and the blob name they get. *)
Definition duplicate_of (pk : uuid) (file_obj : UploadedFile)
    (existing : File) (now : Z) : File :=
  {| models.id := pk; models.file := models.file existing;
     models.original_filename := upload.name file_obj;
     models.file_type := upload.content_type file_obj;
     models.size := upload.size file_obj; models.uploaded_at := now;
     models.content_hash := None; models.is_duplicate := true;
     models.reference_count := 1;
     models.referenced_file := Some (models.id existing) |}.

Definition original_of (pk : uuid) (name : string) (file_obj : UploadedFile)
    (digest : string) (now : Z) : File :=
  {| models.id := pk; models.file := name;
     models.original_filename := upload.name file_obj;
     models.file_type := upload.content_type file_obj;
     models.size := upload.size file_obj; models.uploaded_at := now;
     models.content_hash := Some digest; models.is_duplicate := false;
     models.reference_count := 1; models.referenced_file := None |}.

(** The worlds [create] and [destroy] lead to. *)
Definition after_duplicate (w : World) (file_obj : UploadedFile)
    (existing : File) (now : Z) : World :=
  {| db := bump (models.id existing) 1 (db w)
           ++ [duplicate_of (uuid_supply w) file_obj existing now];
     media := media w;
     uuid_supply := N.succ (uuid_supply w) |}.

(** After the duplicate [instance] is deleted: the count of the original
    it refers to is one less and its row is gone. *)
Definition after_delete_duplicate (w : World) (instance : File) : World :=
  {| db := remove (models.id instance)
             (match models.referenced_file instance with
              | Some original => bump original (-1) (db w)
              | None => db w
              end);
     media := media w;
     uuid_supply := uuid_supply w |}.

(** After the original [instance] is deleted: its blob and its row are
    gone. *)
Definition after_delete_original (w : World) (instance : File) : World :=
  {| db := remove (models.id instance) (db w);
     media := delete (models.file instance) (media w);
     uuid_supply := uuid_supply w |}.

(** After the storage has refused the path of an upload: two UUIDs were
    drawn, nothing was written. *)
Definition after_refused (w : World) : World :=
  set_uuid_supply (N.succ (N.succ (uuid_supply w))) w.

Section outcomes.
Context `{Hashlib} `{Framework}.

(** The path [file_upload_path] asks the storage for when the row of an
    upload gets the key [uuid_supply w]: it is built from the next UUID. *)
Definition requested_path (w : World) (file_obj : UploadedFile) : string :=
  file_upload_path (N.succ (uuid_supply w)) (upload.name file_obj).

(** The name the storage gives the blob of the upload, if it takes the
    path. *)
Definition blob_name (w : World) (file_obj : UploadedFile) : option string :=
  get_available_name (media w) (requested_path w file_obj).

(** The upload as the serializer hands it on: its two text fields as the
    [CharField]s return them. *)
Definition validated_data (file_obj : UploadedFile) : UploadedFile :=
  {| upload.name := to_internal_value (upload.name file_obj);
     upload.content_type := to_internal_value (upload.content_type file_obj);
     upload.content := upload.content file_obj;
     upload.position := upload.position file_obj |}.

(** After an upload was recorded as an original with the blob [name]. *)
Definition after_original (w : World) (name : string) (file_obj : UploadedFile)
    (now : Z) : World :=
  {| db := db w
           ++ [original_of (uuid_supply w) name (validated_data file_obj)
                 (sha256_hex (upload.content file_obj)) now];
     media := <[name := upload.content file_obj]> (media w);
     uuid_supply := N.succ (N.succ (uuid_supply w)) |}.

(** After an insert refused for its [content_hash]: the blob [name] was
    written and two UUIDs were drawn, the rows are as they were. *)
Definition after_conflict (w : World) (name : string) (file_obj : UploadedFile)
    : World :=
  {| db := db w;
     media := <[name := upload.content file_obj]> (media w);
     uuid_supply := N.succ (N.succ (uuid_supply w)) |}.

(** The digest [create] computes for an upload. *)
Definition digest_of (file_obj : UploadedFile) : string :=
  fst (compute_file_hash file_obj default_chunk_size).

(** A filter value the view cannot parse: a size bound that [int] refuses,
    a date bound that neither [parse_datetime] nor [parse_date] accepts. *)
Definition malformed (key value : string) : Prop :=
  ((key = "size_min" ∨ key = "size_max") ∧ int value = None)
  ∨ (key = "uploaded_after"
     ∧ FileViewSet.date_bound value datetime.combine_min = None)
  ∨ (key = "uploaded_before"
     ∧ FileViewSet.date_bound value datetime.combine_max = None).

(** The filters of a request let a row through. *)
Definition selects (q : query_params) (r : File) : Prop :=
  ∃ queryset, FileViewSet.get_queryset q = inr queryset ∧ queryset r = true.
End outcomes.

(** * A sample framework

    Small implementations of the two interfaces, on which the views can be
    run: a hash object that keeps what it is fed, a storage that numbers a
    name in use until it is free and refuses one that is too long, the
    serializer's trimming of text and the validation rules the model's
    fields declare, and parsers for decimal integers and
    [YYYY-MM-DD[THH:MM[:SS]]] dates. *)
Module sample.
Fixpoint hex_of_bytes (bytes : list byte) : string :=
  match bytes with
  | [] => ""
  | b :: bytes => hex 2 (Byte.to_N b) +:+ hex_of_bytes bytes
  end.

Definition hashlib : Hashlib :=
  {| sha256_state := list byte;
     sha256_new := [];
     sha256_update := app;
     sha256_hexdigest := hex_of_bytes;
     sha256_update_nil := @app_nil_r byte;
     sha256_update_app := λ s a b, eq_sym (app_assoc s a b) |}.

(** A name close to the requested one that is neither in use nor empty,
    when it is within [max_length]; the path is refused otherwise (this
    storage never shortens a name). *)
Definition available_name (blobs : gmap string (list byte))
    (requested : string) : option string :=
  let name := fresh_string requested (<["" := []]> blobs) in
  if (String.length name <=? max_length)%nat then Some name else None.

Definition available_name_free blobs requested name :
  available_name blobs requested = Some name → blobs !! name = None.
Proof.
  unfold available_name.
  destruct (String.length _ <=? max_length)%nat; [|discriminate].
  intros [= <-].
  pose proof (fresh_string_fresh (<["" := []]> blobs) requested) as Hfresh.
  destruct (decide (fresh_string requested (<["" := []]> blobs) = ""))
    as [He | Hne].
  - rewrite He, lookup_insert_eq in Hfresh. discriminate.
  - by rewrite lookup_insert_ne in Hfresh.
Qed.

Definition available_name_nonempty blobs requested name :
  available_name blobs requested = Some name → name ≠ "".
Proof.
  unfold available_name.
  destruct (String.length _ <=? max_length)%nat; [|discriminate].
  intros [= <-].
  pose proof (fresh_string_fresh (<["" := []]> blobs) requested) as Hfresh.
  intros He. rewrite He, lookup_insert_eq in Hfresh. discriminate.
Qed.

Definition available_name_max_length blobs requested name :
  available_name blobs requested = Some name →
  (String.length name ≤ max_length)%nat.
Proof.
  unfold available_name.
  destruct (String.length _ <=? max_length)%nat eqn:Hfits; [|discriminate].
  intros [= <-]. by apply Nat.leb_le.
Qed.

(** [str.strip()]: white space removed at both ends. *)
Fixpoint lstrip (s : string) : string :=
  match s with
  | EmptyString => EmptyString
  | String c s' => if Ascii.is_space c then lstrip s' else s
  end.

Fixpoint rstrip (s : string) : string :=
  match s with
  | EmptyString => EmptyString
  | String c s' =>
      let rest := rstrip s' in
      if Ascii.is_space c && String.eqb rest "" then EmptyString
      else String c rest
  end.

Definition strip (s : string) : string := rstrip (lstrip s).

Fixpoint blank (s : string) : bool :=
  match s with
  | EmptyString => true
  | String c s' => Ascii.is_space c && blank s'
  end.

(** [CharField(max_length=n)] of the model: not blank, at most [n]
    characters. *)
Definition char_field (field value : string) (max_length : nat)
    : list (string * string) :=
  if blank value then [(field, "This field may not be blank.")]
  else if (max_length <? String.length value)%nat
       then [(field, "Ensure this field has no more than the allowed characters.")]
       else [].

(** [FileField]: a name, at most 100 characters of it, and a file that is
    not empty. *)
Definition file_field (f : UploadedFile) : list (string * string) :=
  if negb (nonempty (upload.name f))
  then [("file", "No filename could be determined.")]
  else if upload.size f =? 0
       then [("file", "The submitted file is empty.")]
       else if (100 <? String.length (upload.name f))%nat
            then [("file", "Ensure this filename has at most 100 characters.")]
            else [].

Definition errors (f : UploadedFile) : list (string * string) :=
  file_field f
  ++ char_field "original_filename" (upload.name f) 255
  ++ char_field "file_type" (upload.content_type f) 100.

Definition errors_no_name f : upload.name f = "" → errors f ≠ [].
Proof.
  intros Hn. unfold errors, file_field. rewrite Hn. discriminate.
Qed.

Definition errors_empty f : upload.content f = [] → errors f ≠ [].
Proof.
  intros Hc. unfold errors, file_field, upload.size. rewrite Hc. simpl.
  destruct (negb (nonempty (upload.name f))); discriminate.
Qed.

Definition digit (c : ascii) : option Z :=
  let n := nat_of_ascii c in
  if ((48 <=? n) && (n <=? 57))%nat then Some (Z.of_nat n - 48) else None.

(** The number written by a string of decimal digits. *)
Fixpoint number (s : string) (acc : Z) : option Z :=
  match s with
  | EmptyString => Some acc
  | String c s' =>
      match digit c with
      | Some d => number s' (acc * 10 + d)
      | None => None
      end
  end.

Definition parse_int (s : string) : option Z :=
  match s with
  | EmptyString => None
  | String c s' =>
      if Ascii.eqb c "-"%char
      then (if nonempty s' then Z.opp <$> number s' 0 else None)
      else number s 0
  end.

(** Splits a string at the first occurrence of a separator. *)
Fixpoint split_at (sep : ascii) (s : string) : option (string * string) :=
  match s with
  | EmptyString => None
  | String c s' =>
      if Ascii.eqb c sep then Some ("", s')
      else match split_at sep s' with
           | Some (a, b) => Some (String c a, b)
           | None => None
           end
  end.

Definition field (width_min width_max : nat) (s : string) : option Z :=
  if ((width_min <=? String.length s) && (String.length s <=? width_max))%nat
  then number s 0 else None.

Definition leap (y : Z) : bool :=
  (y mod 4 =? 0) && (negb (y mod 100 =? 0) || (y mod 400 =? 0)).

Definition days_in_month (y m : Z) : Z :=
  if m =? 2 then (if leap y then 29 else 28)
  else if (m =? 4) || (m =? 6) || (m =? 9) || (m =? 11) then 30 else 31.

(** Days from the epoch to a date of the civil calendar. *)
Definition days_from_civil (y m d : Z) : Z :=
  let y := if m <=? 2 then y - 1 else y in
  let era := y / 400 in
  let yoe := y - era * 400 in
  let doy := (153 * ((m + 9) mod 12) + 2) / 5 + d - 1 in
  let doe := yoe * 365 + yoe / 4 - yoe / 100 + doy in
  era * 146097 + doe - 719468.

Definition date_of_string (s : string) : parsed datetime.date :=
  match split_at "-" s with
  | Some (ys, rest) =>
      match split_at "-" rest with
      | Some (ms, ds) =>
          match field 4 4 ys, field 1 2 ms, field 1 2 ds with
          | Some y, Some m, Some d =>
              if (1 <=? m) && (m <=? 12) && (1 <=? d) && (d <=? days_in_month y m)
              then Parsed (days_from_civil y m d) else ValueError
          | _, _, _ => NoMatch
          end
      | None => NoMatch
      end
  | None => NoMatch
  end.

Definition parse_time (s : string) : parsed Z :=
  match split_at ":" s with
  | Some (hs, rest) =>
      let '(ms, ss) := default (rest, "0") (split_at ":" rest) in
      match field 1 2 hs, field 1 2 ms, field 1 2 ss with
      | Some h, Some m, Some sec =>
          if (h <=? 23) && (m <=? 59) && (sec <=? 59)
          then Parsed (((h * 60 + m) * 60 + sec) * 1000000) else ValueError
      | _, _, _ => NoMatch
      end
  | None => NoMatch
  end.

(** A date and a time of day separated by [sep]. *)
Definition date_and_time (sep : ascii) (s : string)
    : option (parsed datetime.datetime) :=
  match split_at sep s with
  | Some (ds, ts) =>
      Some match date_of_string ds, parse_time ts with
           | Parsed d, Parsed t =>
               Parsed {| datetime.wall := d * datetime.day + t;
                         datetime.utcoffset := None |}
           | NoMatch, _ | _, NoMatch => NoMatch
           | _, _ => ValueError
           end
  | None => None
  end.

(** [parse_datetime] (Django 4.0 and later): a date and a time separated
    by [T] or a blank; a bare [YYYY-MM-DD] is taken as midnight of that
    day, as [datetime.fromisoformat] does. *)
Definition datetime_of_string (s : string) : parsed datetime.datetime :=
  match date_and_time "T" s with
  | Some r => r
  | None =>
      match date_and_time " " s with
      | Some r => r
      | None =>
          if (String.length s =? 10)%nat then
            match date_of_string s with
            | Parsed d =>
                Parsed {| datetime.wall := d * datetime.day;
                          datetime.utcoffset := None |}
            | _ => NoMatch
            end
          else NoMatch
      end
  end.

Definition framework : Framework :=
  {| get_available_name := available_name;
     get_available_name_free := available_name_free;
     get_available_name_nonempty := available_name_nonempty;
     get_available_name_max_length := available_name_max_length;
     serializer_errors := errors;
     serializer_errors_no_name := errors_no_name;
     serializer_errors_empty := errors_empty;
     to_internal_value := strip;
     int := parse_int;
     parse_datetime := datetime_of_string;
     parse_date := date_of_string;
     current_timezone := 0 |}.

(** Two uploads of the same two bytes under different names, and an empty
    one. *)
Definition report : UploadedFile :=
  {| upload.name := "report.txt"; upload.content_type := "text/plain";
     upload.content := [x68; x69]; upload.position := 0 |}.

Definition copy : UploadedFile :=
  {| upload.name := "copy.pdf"; upload.content_type := "application/pdf";
     upload.content := [x68; x69]; upload.position := 1 |}.

Definition nothing : UploadedFile :=
  {| upload.name := "blank.txt"; upload.content_type := "text/plain";
     upload.content := []; upload.position := 0 |}.

(** The service run on the sample framework. *)
Definition serves (r : request) (concurrent : list request) (w : World)
    : Response * World :=
  @serve hashlib framework r concurrent w.

(** The world after [report] was uploaded, and after [copy] was too. *)
Definition one_upload : World :=
  snd (serves (POST (Some report) 10) [] empty_world).

Definition two_uploads : World :=
  snd (serves (POST (Some copy) 20) [] one_upload).

(** The two rows of [two_uploads], as [one_upload] and the second request
    created them. *)
Definition first_row : File :=
  original_of 0%N "uploads/00000000-0000-0000-0000-000000000001.txt" report
    "6869" 10.

Definition second_row : File := duplicate_of 2%N copy first_row 20.
End sample.

(** * Further notions used by the properties of the views *)

(** A string without a dot. *)
Fixpoint dotless (s : string) : bool :=
  match s with
  | EmptyString => true
  | String c s' => negb (Ascii.eqb c "."%char) && dotless s'
  end.

(** The uploads of a list of files, each with the time it is served at. *)
Definition uploads (files : list (UploadedFile * Z)) : list request :=
  map (λ file_now, POST (Some file_now.1) file_now.2) files.

(** The rows that record [copies] as duplicates of [existing], the first
    one under the key [pk] and the next ones under the keys that follow. *)
Fixpoint duplicates_of (pk : uuid) (existing : File)
    (copies : list (UploadedFile * Z)) : list File :=
  match copies with
  | [] => []
  | copy :: copies =>
      duplicate_of pk copy.1 existing copy.2
      :: duplicates_of (N.succ pk) existing copies
  end.

Section content.
Context `{Hashlib}.

(** The blob of every original is the content its row describes: the
    bytes stored under its name have its [content_hash] as digest and its
    [size] as length. *)
Definition blobs_match (w : World) : Prop :=
  ∀ r, r ∈ db w → models.is_duplicate r = false →
    ∃ bytes, media w !! models.file r = Some bytes
             ∧ models.content_hash r = Some (sha256_hex bytes)
             ∧ models.size r = Z.of_nat (length bytes).
End content.

(** More uploads to run the views on: a file with content of its own,
    one that fails validation, and one that passes it under a name of 90
    letters without a dot, all of which [file_upload_path] takes as the
    extension. *)
Module examples.
Definition notes : UploadedFile :=
  {| upload.name := "notes.md"; upload.content_type := "text/markdown";
     upload.content := [x61]; upload.position := 0 |}.

(** The two bytes of [sample.report] again, under a name of blanks that
    the serializer refuses. *)
Definition blank_name : UploadedFile :=
  {| upload.name := "  "; upload.content_type := "text/plain";
     upload.content := [x68; x69]; upload.position := 0 |}.

Definition long_extension : UploadedFile :=
  {| upload.name :=
       "aaaaaaaaaaaaaaaaaaaaaaaaaaaaaaaaaaaaaaaaaaaaaaaaaaaaaaaaaaaaaaaaaaaaaaaaaaaaaaaaaaaaaaaaaa";
     upload.content_type := "text/plain";
     upload.content := [x62]; upload.position := 0 |}.

(** The world after [notes] was uploaded to the empty service. *)
Definition notes_uploaded : World :=
  @run sample.hashlib sample.framework [POST (Some notes) 5] empty_world.
End examples.
Section hasher_facts.
Context `{Hashlib}.

Lemma take_nil_inv {A} (n : nat) (l : list A) :
  (0 < n)%nat → take n l = [] → l = [].
Proof. destruct n, l; simpl; intros; (lia || congruence). Qed.

Lemma take_drop_length {A} (n : nat) (l : list A) :
  take n l ++ drop (length (take n l)) l = l.
Proof.
  rewrite length_take. destruct (Nat.le_ge_cases n (length l)) as [Hle | Hge].
  - rewrite Nat.min_l by done. apply take_drop.
  - rewrite Nat.min_r by done. rewrite take_ge, drop_all by done.
    apply app_nil_r.
Qed.

(** The loop feeds exactly the bytes from the current position to the end
    and leaves the stream at its end (or where it was, when already past
    it). *)
Lemma hash_loop_spec chunk_size file_obj sha256 :
  (0 < chunk_size)%nat →
  hash_loop chunk_size file_obj sha256 =
    (sha256_update sha256
       (drop (upload.position file_obj) (upload.content file_obj)),
     upload.seek file_obj
       (Nat.max (upload.position file_obj) (length (upload.content file_obj)))).
Proof.
  intros Hcs. funelim (hash_loop chunk_size file_obj sha256).
  - clear Heqcall. apply take_nil_inv in e' as Hrest; [|done].
    rewrite Hrest, sha256_update_nil. simpl. do 2 f_equal.
    apply (f_equal length) in Hrest. rewrite length_drop in Hrest.
    rewrite take_nil. simpl in *. lia.
  - clear Heqcall.
    match goal with IH : (0 < _)%nat → _ |- _ => rewrite (IH Hcs) end.
    match goal with Hc : take _ _ = _ :: _ |- _ => rename Hc into Hchunk end.
    simpl. rewrite sha256_update_app, Hchunk. f_equal.
    + f_equal. rewrite <- drop_drop, <- Hchunk. apply take_drop_length.
    + unfold upload.seek. simpl. f_equal.
      assert (length (b :: chunk)
              ≤ length (drop (upload.position file_obj) (upload.content file_obj)))%nat
        by (rewrite <- Hchunk, length_take; lia).
      rewrite length_drop in *. simpl in *. lia.
Qed.

Lemma compute_file_hash_spec file_obj chunk_size :
  (0 < chunk_size)%nat →
  compute_file_hash file_obj chunk_size
    = (sha256_hex (upload.content file_obj), file_obj).
Proof.
  intros Hcs. unfold compute_file_hash.
  rewrite hash_loop_spec by done. destruct file_obj; reflexivity.
Qed.
End hasher_facts.

(** * Facts about lists of rows *)

Section rows.
Context {A : Type} (P : A → Prop) `{∀ x, Decision (P x)}.

Lemma filter_none (l : list A) : (∀ y, y ∈ l → ¬ P y) → filter P l = [].
Proof.
  induction l as [|a l IH]; intros Hall; [done|].
  rewrite filter_cons_False by (apply Hall; left).
  apply IH. intros y Hy. apply Hall. by right.
Qed.

Lemma filter_singleton (l : list A) (x : A) :
  NoDup l → x ∈ l → P x → (∀ y, y ∈ l → P y → y = x) → filter P l = [x].
Proof.
  induction l as [|a l IH]; intros Hnd Hin HP Huniq.
  - by apply elem_of_nil in Hin.
  - apply NoDup_cons in Hnd as [Hnotin Hnd].
    apply elem_of_cons in Hin as [<- | Hin].
    + rewrite filter_cons_True by done. f_equal.
      apply filter_none. intros y Hy HPy.
      assert (y = x) as -> by (apply Huniq; [by right | done]). done.
    + assert (¬ P a) as Hna.
      { intros HPa. assert (a = x) as -> by (apply Huniq; [left | done]). done. }
      rewrite filter_cons_False by done.
      apply IH; try done. intros y Hy. apply Huniq. by right.
Qed.
End rows.

Lemma existsb_false {A} (p : A → bool) (l : list A) :
  existsb p l = false ↔ ∀ x, x ∈ l → p x = false.
Proof.
  induction l as [|a l IH]; simpl.
  - split; [intros _ x Hx; by apply elem_of_nil in Hx | done].
  - rewrite orb_false_iff, IH. split.
    + intros [Ha Hl] x [-> | Hx]%elem_of_cons; auto.
    + intros Hall. split; [apply Hall; left | intros x Hx; apply Hall; by right].
Qed.

Lemma existsb_true {A} (p : A → bool) (l : list A) :
  existsb p l = true ↔ ∃ x, x ∈ l ∧ p x = true.
Proof.
  rewrite existsb_exists. split; intros (x & Hx & Hp); exists x;
    (split; [by apply list_elem_of_In | done]).
Qed.

Lemma merge_sort_singleton (r : File) : merge_sort models.ordering [r] = [r].
Proof. reflexivity. Qed.

Lemma merge_sort_nil : merge_sort models.ordering [] = [].
Proof. reflexivity. Qed.

Lemma pk_is_true pk r : pk_is pk r = true ↔ models.id r = pk.
Proof. unfold pk_is. apply bool_decide_eq_true. Qed.

Lemma pk_is_false pk r : pk_is pk r = false ↔ models.id r ≠ pk.
Proof. unfold pk_is. apply bool_decide_eq_false. Qed.

Lemma NoDup_rows (rows : list File) : NoDup (models.id <$> rows) → NoDup rows.
Proof. apply NoDup_fmap_1. Qed.

Lemma same_key (rows : list File) r1 r2 :
  NoDup (models.id <$> rows) → r1 ∈ rows → r2 ∈ rows →
  models.id r1 = models.id r2 → r1 = r2.
Proof.
  induction rows as [|a rows IH]; intros Hnd H1 H2 Heq.
  - by apply elem_of_nil in H1.
  - rewrite fmap_cons in Hnd. apply NoDup_cons in Hnd as [Hnotin Hnd].
    apply elem_of_cons in H1 as [-> | H1]; apply elem_of_cons in H2 as [-> | H2].
    + done.
    + exfalso. apply Hnotin. rewrite Heq. by apply list_elem_of_fmap_2.
    + exfalso. apply Hnotin. rewrite <- Heq. by apply list_elem_of_fmap_2.
    + by apply IH.
Qed.

(** The rows a key selects. *)
Lemma filter_key (rows : list File) (qs : QuerySet) r :
  NoDup (models.id <$> rows) → r ∈ rows → qs r = true →
  filter (λ x, qs_filter qs (pk_is (models.id r)) x) rows = [r].
Proof.
  intros Hnd Hin Hqs. apply filter_singleton; [by apply NoDup_rows | done | |].
  - unfold qs_filter. rewrite Hqs. simpl. apply Is_true_true, pk_is_true. done.
  - intros y Hy HP. unfold qs_filter in HP.
    apply Is_true_true, andb_true_iff in HP as [_ HP%pk_is_true].
    by apply (same_key rows).
Qed.

(** * Running the primitives inside a transaction *)

Lemma evaluate_run (qs : QuerySet) w c :
  evaluate qs (in_transaction w c)
  = (Return (merge_sort models.ordering (filter (λ r, qs r) (db w))),
     in_transaction w c).
Proof. reflexivity. Qed.

Lemma uuid4_run w c :
  uuid4 (in_transaction w c)
  = (Return (uuid_supply w),
     in_transaction (set_uuid_supply (N.succ (uuid_supply w)) w) c).
Proof. reflexivity. Qed.

Lemma insert_run row w c :
  existsb (pk_is (models.id row)) (db w) = false →
  (∀ h, models.content_hash row = Some h →
        existsb (content_hash_is h) (db w) = false) →
  (∀ pk, models.referenced_file row = Some pk →
         existsb (pk_is pk) (db w) = true) →
  insert row (in_transaction w c)
  = (Return tt, in_transaction (set_db (db w ++ [row]) w) c).
Proof.
  intros Hpk Hhash Href. unfold insert, mark_for_rollback_on_error, bind.
  simpl. rewrite Hpk. simpl.
  destruct (models.content_hash row) as [h|];
    [rewrite (Hhash h eq_refl)|]; simpl;
    (destruct (models.referenced_file row) as [pk|];
     [rewrite (Href pk eq_refl)|]; reflexivity).
Qed.

Lemma insert_conflict row w c h :
  models.content_hash row = Some h →
  existsb (content_hash_is h) (db w) = true →
  insert row (in_transaction w c) = (Raise IntegrityError, broken w c).
Proof.
  intros Hh Htaken. unfold insert, mark_for_rollback_on_error, bind.
  simpl. rewrite Hh, Htaken, orb_true_r. reflexivity.
Qed.

Lemma evaluate_broken qs w c :
  evaluate qs (broken w c) = (Raise TransactionManagementError, broken w c).
Proof. reflexivity. Qed.

Lemma update_reference_count_run pk delta w c :
  (∀ r, r ∈ db w → 0 ≤ models.reference_count r + delta) →
  update_reference_count pk delta (in_transaction w c)
  = (Return tt, in_transaction (set_db (bump pk delta (db w)) w) c).
Proof.
  intros Hpos. unfold update_reference_count, mark_for_rollback_on_error, bind.
  simpl.
  replace (existsb _ (db w)) with false; [reflexivity|].
  symmetry. apply existsb_false. intros r Hr.
  apply andb_false_iff. right. apply Z.ltb_ge. by apply Hpos.
Qed.

Lemma get_run (qs : QuerySet) r w c :
  filter (λ x, qs x) (db w) = [r] →
  get qs (in_transaction w c) = (Return r, in_transaction w c).
Proof.
  intros Hf. unfold get, bind. rewrite evaluate_run, Hf. reflexivity.
Qed.

Lemma delete_instance_run instance w c :
  existsb (references (models.id instance)) (db w) = false →
  delete_instance instance (in_transaction w c)
  = (Return tt, in_transaction (set_db (remove (models.id instance) (db w)) w) c).
Proof.
  intros Href. unfold delete_instance, bind. simpl. rewrite Href. reflexivity.
Qed.

(** * Consequences of consistency *)

Lemma reference_count_pos w r :
  consistent w → r ∈ db w → 1 ≤ models.reference_count r.
Proof.
  intros Hw Hr. destruct (models.is_duplicate r) eqn:Hd.
  - destruct (duplicate_shape w Hw r Hr Hd) as (_ & -> & _). lia.
  - destruct (original_shape w Hw r Hr Hd) as (_ & _ & -> & _). lia.
Qed.

Lemma key_free w pk :
  consistent w → (uuid_supply w ≤ pk)%N → existsb (pk_is pk) (db w) = false.
Proof.
  intros Hw Hle. apply existsb_false. intros r Hr. apply pk_is_false.
  pose proof (keys_drawn w Hw r Hr). lia.
Qed.

Lemma key_taken (rows : list File) r :
  r ∈ rows → existsb (pk_is (models.id r)) rows = true.
Proof. intros Hr. apply existsb_true. exists r. by rewrite pk_is_true. Qed.

Lemma hash_holder_original w r h :
  consistent w → r ∈ db w → models.content_hash r = Some h →
  models.is_duplicate r = false.
Proof.
  intros Hw Hr Hh. destruct (models.is_duplicate r) eqn:Hd; [|done].
  destruct (duplicate_shape w Hw r Hr Hd) as (Hnone & _). congruence.
Qed.

(** The lookup by content hash finds the row that holds the hash. *)
Lemma filter_hash w r h :
  consistent w → r ∈ db w → models.content_hash r = Some h →
  filter (λ x, qs_filter objects_all (content_hash_is h) x) (db w) = [r].
Proof.
  intros Hw Hr Hh. apply filter_singleton.
  - apply NoDup_rows, Hw.
  - done.
  - simpl. apply Is_true_true. unfold content_hash_is. by apply bool_decide_eq_true.
  - intros y Hy HP. simpl in HP. apply Is_true_true in HP.
    unfold content_hash_is in HP. apply bool_decide_eq_true in HP.
    by apply (hash_once w Hw y r h).
Qed.

Lemma filter_hash_none (rows : list File) h :
  (∀ r, r ∈ rows → models.content_hash r ≠ Some h) →
  filter (λ x, qs_filter objects_all (content_hash_is h) x) rows = [].
Proof.
  intros Hnone. apply filter_none. intros y Hy HP. simpl in HP.
  apply Is_true_true in HP. unfold content_hash_is in HP.
  apply bool_decide_eq_true in HP. by apply (Hnone y).
Qed.

Lemma hash_free (rows : list File) h :
  (∀ r, r ∈ rows → models.content_hash r ≠ Some h) →
  existsb (content_hash_is h) rows = false.
Proof.
  intros Hnone. apply existsb_false. intros r Hr.
  unfold content_hash_is. apply bool_decide_eq_false. by apply Hnone.
Qed.

(** ** Moving a reference count *)

Lemma bump_row_id pk delta r : models.id (bump_row pk delta r) = models.id r.
Proof. unfold bump_row. by destruct (pk_is pk r). Qed.

Lemma bump_row_file pk delta r : models.file (bump_row pk delta r) = models.file r.
Proof. unfold bump_row. by destruct (pk_is pk r). Qed.

Lemma bump_row_content_hash pk delta r :
  models.content_hash (bump_row pk delta r) = models.content_hash r.
Proof. unfold bump_row. by destruct (pk_is pk r). Qed.

Lemma bump_row_is_duplicate pk delta r :
  models.is_duplicate (bump_row pk delta r) = models.is_duplicate r.
Proof. unfold bump_row. by destruct (pk_is pk r). Qed.

Lemma bump_row_referenced_file pk delta r :
  models.referenced_file (bump_row pk delta r) = models.referenced_file r.
Proof. unfold bump_row. by destruct (pk_is pk r). Qed.

Lemma bump_row_hit delta r :
  bump_row (models.id r) delta r
  = models.with_reference_count r (models.reference_count r + delta).
Proof. unfold bump_row. by rewrite (proj2 (pk_is_true _ _) eq_refl). Qed.

Lemma bump_row_miss pk delta r : models.id r ≠ pk → bump_row pk delta r = r.
Proof. intros Hne. unfold bump_row. by rewrite (proj2 (pk_is_false _ _) Hne). Qed.

Lemma bump_row_reference_count pk delta r :
  models.reference_count (bump_row pk delta r)
  = models.reference_count r + (if pk_is pk r then delta else 0).
Proof. unfold bump_row. destruct (pk_is pk r); simpl; lia. Qed.

Lemma bump_ids pk delta rows : models.id <$> bump pk delta rows = models.id <$> rows.
Proof.
  unfold bump. rewrite <- list_fmap_compose. apply list_fmap_ext.
  intros i r _. apply bump_row_id.
Qed.

Lemma bump_app pk delta rows1 rows2 :
  bump pk delta (rows1 ++ rows2) = bump pk delta rows1 ++ bump pk delta rows2.
Proof. apply map_app. Qed.

Lemma bump_other pk delta rows :
  (∀ r, r ∈ rows → models.id r ≠ pk) → bump pk delta rows = rows.
Proof.
  intros Hne. unfold bump. rewrite <- (list_fmap_id rows) at 2.
  apply list_fmap_ext. intros i r Hr%list_elem_of_lookup_2.
  by apply bump_row_miss, Hne.
Qed.

Lemma elem_of_bump pk delta rows r' :
  r' ∈ bump pk delta rows ↔ ∃ r, r ∈ rows ∧ r' = bump_row pk delta r.
Proof.
  unfold bump. rewrite list_elem_of_fmap. split; intros (r & H1 & H2); exists r; auto.
Qed.

Lemma live_duplicates_bump pk pk' delta rows :
  live_duplicates pk (bump pk' delta rows)
  = bump pk' delta (live_duplicates pk rows).
Proof.
  unfold live_duplicates, bump. induction rows as [|r rows IH]; [done|].
  simpl. rewrite !filter_cons, IH.
  rewrite bump_row_is_duplicate, bump_row_referenced_file.
  by case_decide.
Qed.

Lemma live_duplicates_bump_length pk pk' delta rows :
  length (live_duplicates pk (bump pk' delta rows))
  = length (live_duplicates pk rows).
Proof. rewrite live_duplicates_bump. apply length_map. Qed.

Lemma live_duplicates_app pk rows1 rows2 :
  live_duplicates pk (rows1 ++ rows2)
  = live_duplicates pk rows1 ++ live_duplicates pk rows2.
Proof. apply filter_app. Qed.

Lemma live_duplicates_singleton pk r :
  live_duplicates pk [r]
  = if decide (models.is_duplicate r = true ∧ models.referenced_file r = Some pk)
    then [r] else [].
Proof. reflexivity. Qed.

Lemma remove_absent pk rows : pk ∉ models.id <$> rows → remove pk rows = rows.
Proof.
  unfold remove. induction rows as [|a rows IH]; [done|].
  rewrite fmap_cons, not_elem_of_cons. intros [Hne Hnotin].
  rewrite filter_cons_True by done. f_equal. by apply IH.
Qed.

(** Deleting a row takes it out of the duplicates of the row it refers to
    and of no other. *)
Lemma live_duplicates_remove pk rows r :
  NoDup (models.id <$> rows) → r ∈ rows →
  length (live_duplicates pk rows)
  = (length (live_duplicates pk (remove (models.id r) rows))
     + if decide (models.is_duplicate r = true ∧ models.referenced_file r = Some pk)
       then 1 else 0)%nat.
Proof.
  unfold live_duplicates, remove.
  induction rows as [|a rows IH]; intros Hnd Hin; [by apply elem_of_nil in Hin|].
  rewrite fmap_cons in Hnd. apply NoDup_cons in Hnd as [Hnotin Hnd].
  apply elem_of_cons in Hin as [-> | Hin].
  - rewrite (filter_cons_False (λ x, models.id x ≠ _)) by (intros Hne; by apply Hne).
    fold (remove (models.id a) rows). rewrite remove_absent by done.
    rewrite filter_cons. case_decide; simpl; lia.
  - assert (models.id a ≠ models.id r) as Hne.
    { intros Heq. apply Hnotin. rewrite Heq. by apply list_elem_of_fmap_2. }
    rewrite (filter_cons_True (λ x, models.id x ≠ _)) by done.
    rewrite !(filter_cons (λ x, _ ∧ _)). specialize (IH Hnd Hin).
    repeat case_decide; simpl in *; lia.
Qed.

(** * Running [create] *)

Section create_runs.
Context `{Hashlib} `{Framework}.

Lemma create_duplicate_run w c file_obj existing now :
  consistent w → existing ∈ db w →
  FileViewSet.create_duplicate file_obj existing now (in_transaction w c)
  = (Return {| status := HTTP_201_CREATED;
               data := Serialized
                         (duplicate_of (uuid_supply w) file_obj existing now) |},
     in_transaction (after_duplicate w file_obj existing now) c).
Proof.
  intros Hw Hin.
  set (dup := duplicate_of (uuid_supply w) file_obj existing now).
  assert (Hother : ∀ r, r ∈ [dup] → models.id r ≠ models.id existing).
  { intros r ->%list_elem_of_singleton. simpl.
    pose proof (keys_drawn w Hw existing Hin). lia. }
  unfold FileViewSet.create_duplicate, objects_create, bind.
  rewrite uuid4_run. simpl. fold dup.
  rewrite insert_run; simpl.
  2: { apply key_free; [done | lia]. }
  2: { discriminate. }
  2: { intros pk [= <-]. by apply key_taken. }
  rewrite update_reference_count_run; simpl.
  2: { intros r [Hr | ->%list_elem_of_singleton]%elem_of_app; simpl; [|lia].
       pose proof (reference_count_pos w r Hw Hr). lia. }
  unfold refresh_from_db.
  rewrite bump_app, (bump_other _ _ [dup]) by done.
  set (existing' := models.with_reference_count existing
                      (models.reference_count existing + 1)).
  rewrite (get_run _ existing'); [reflexivity|].
  simpl. apply filter_singleton.
  - apply NoDup_rows. rewrite fmap_app, bump_ids. simpl.
    apply NoDup_app. split; [apply Hw|]. split; [|apply NoDup_singleton].
    intros pk Hpk ->%list_elem_of_singleton.
    apply list_elem_of_fmap in Hpk as (r & Hid & Hr).
    pose proof (keys_drawn w Hw r Hr). lia.
  - apply elem_of_app. left. apply elem_of_bump. exists existing.
    split; [done|]. by rewrite bump_row_hit.
  - apply Is_true_true, pk_is_true. done.
  - intros y [Hy | Hy]%elem_of_app HP; apply Is_true_true, pk_is_true in HP.
    + apply elem_of_bump in Hy as (r & Hr & ->).
      rewrite bump_row_id in HP.
      assert (r = existing) as -> by (by apply (same_key (db w)); [apply Hw|..]).
      by rewrite bump_row_hit.
    + by apply Hother in Hy.
Qed.

Lemma default_chunk_size_pos : (0 < default_chunk_size)%nat.
Proof. unfold default_chunk_size. lia. Qed.

(** Enters [create] for a file that counts as provided: the hash is
    computed and the atomic block is entered. *)
Ltac open_create Htruthy :=
  unfold respond, FileViewSet.create;
  rewrite Htruthy, compute_file_hash_spec by apply default_chunk_size_pos;
  cbn [negb]; unfold atomic at 1; unfold connect at 1; cbn [world db];
  unfold bind at 1.

Lemma first_hash_found w c r h :
  consistent w → r ∈ db w → models.content_hash r = Some h →
  first (qs_filter objects_all (content_hash_is h)) (in_transaction w c)
  = (Return (Some r), in_transaction w c).
Proof.
  intros Hw Hr Hh. unfold first, bind.
  by rewrite evaluate_run, (filter_hash w r h).
Qed.

Lemma first_hash_none w c h :
  (∀ r, r ∈ db w → models.content_hash r ≠ Some h) →
  first (qs_filter objects_all (content_hash_is h)) (in_transaction w c)
  = (Return None, in_transaction w c).
Proof.
  intros Hnone. unfold first, bind.
  by rewrite evaluate_run, filter_hash_none.
Qed.

(** The lookup finds the original: the upload is recorded as its
    duplicate. *)
Lemma create_found others w file_obj now existing :
  consistent w → upload.truthy file_obj = true → existing ∈ db w →
  models.content_hash existing = Some (sha256_hex (upload.content file_obj)) →
  respond (FileViewSet.create others (Some file_obj) now) w
  = ({| status := HTTP_201_CREATED;
        data := Serialized
                  (duplicate_of (uuid_supply w) file_obj existing now) |},
     after_duplicate w file_obj existing now).
Proof.
  intros Hw Htruthy Hin Hhash. open_create Htruthy.
  rewrite (first_hash_found w _ existing) by done.
  by rewrite create_duplicate_run.
Qed.

(** The checks before the transaction. *)
Lemma create_no_file others w now :
  respond (FileViewSet.create others None now) w
  = ({| status := HTTP_400_BAD_REQUEST;
        data := Errors [("error", "No file provided")] |}, w).
Proof. by destruct w. Qed.

Lemma create_falsy_file others w file_obj now :
  upload.truthy file_obj = false →
  respond (FileViewSet.create others (Some file_obj) now) w
  = ({| status := HTTP_400_BAD_REQUEST;
        data := Errors [("error", "No file provided")] |}, w).
Proof.
  intros Hf. unfold respond, FileViewSet.create. rewrite Hf. by destruct w.
Qed.

(** The lookup finds nothing and the serializer refuses the upload. *)
Lemma create_invalid others w file_obj now :
  upload.truthy file_obj = true →
  (∀ r, r ∈ db w →
        models.content_hash r ≠ Some (sha256_hex (upload.content file_obj))) →
  serializer_errors file_obj ≠ [] →
  respond (FileViewSet.create others (Some file_obj) now) w
  = ({| status := HTTP_400_BAD_REQUEST;
        data := Errors (serializer_errors file_obj) |}, others w).
Proof.
  intros Htruthy Hnone Hbad. open_create Htruthy.
  rewrite first_hash_none by done.
  unfold bind at 1, interleave at 1. cbn [world in_atomic_block needs_rollback in_transaction].
  unfold except_IntegrityError, bind at 1, FileViewSet.is_valid.
  destruct (serializer_errors file_obj) as [|e es]; [done|].
  simpl. by destruct (others w).
Qed.

(** [serializer.save]: the blob is written, then the row is inserted. *)
Lemma objects_create_upload_run w c file_obj name digest now :
  consistent w → blob_name w file_obj = Some name →
  (∀ r, r ∈ db w → models.content_hash r ≠ Some digest) →
  objects_create (inl file_obj) (to_internal_value (upload.name file_obj))
    (to_internal_value (upload.content_type file_obj)) (upload.size file_obj)
    (Some digest) false None 1 now (in_transaction w c)
  = (Return (original_of (uuid_supply w) name (validated_data file_obj) digest now),
     in_transaction
       {| db := db w ++ [original_of (uuid_supply w) name
                           (validated_data file_obj) digest now];
          media := <[name := upload.content file_obj]> (media w);
          uuid_supply := N.succ (N.succ (uuid_supply w)) |} c).
Proof.
  intros Hw Hname Hnone. unfold objects_create.
  unfold bind at 1. rewrite uuid4_run.
  unfold bind at 1, bind at 1. rewrite uuid4_run.
  unfold storage_save, bind at 1, get_world. cbn [world in_transaction media].
  unfold blob_name, requested_path in Hname.
  change (uuid_supply (set_uuid_supply (N.succ (uuid_supply w)) w))
    with (N.succ (uuid_supply w)).
  change (media (set_uuid_supply (N.succ (N.succ (uuid_supply w)))
                   (set_uuid_supply (N.succ (uuid_supply w)) w)))
    with (media w).
  rewrite Hname.
  unfold bind, put_world, ret. cbn [world in_transaction].
  unfold set_world. cbn [committed in_atomic_block needs_rollback].
  match goal with
  | |- context [insert ?r ?s] =>
      change s with (in_transaction
        (set_media (<[name := upload.content file_obj]> (media w))
           (set_uuid_supply (N.succ (N.succ (uuid_supply w))) w)) c);
      change r with (original_of (uuid_supply w) name (validated_data file_obj)
                       digest now)
  end.
  rewrite insert_run; [reflexivity | | |].
  - apply (key_free w); [done | simpl; lia].
  - intros h [= <-]. by apply (hash_free (db w)).
  - discriminate.
Qed.

(** The same when a row holds the hash: the blob is written, the insert is
    refused and the transaction is marked for rollback. *)
Lemma objects_create_upload_conflict w c file_obj name digest now :
  blob_name w file_obj = Some name →
  existsb (content_hash_is digest) (db w) = true →
  objects_create (inl file_obj) (to_internal_value (upload.name file_obj))
    (to_internal_value (upload.content_type file_obj)) (upload.size file_obj)
    (Some digest) false None 1 now (in_transaction w c)
  = (Raise IntegrityError, broken (after_conflict w name file_obj) c).
Proof.
  intros Hname Htaken. unfold objects_create.
  unfold bind at 1. rewrite uuid4_run.
  unfold bind at 1, bind at 1. rewrite uuid4_run.
  unfold storage_save, bind at 1, get_world. cbn [world in_transaction media].
  unfold blob_name, requested_path in Hname.
  change (uuid_supply (set_uuid_supply (N.succ (uuid_supply w)) w))
    with (N.succ (uuid_supply w)).
  change (media (set_uuid_supply (N.succ (N.succ (uuid_supply w)))
                   (set_uuid_supply (N.succ (uuid_supply w)) w)))
    with (media w).
  rewrite Hname.
  unfold bind, put_world, ret. cbn [world in_transaction].
  unfold set_world. cbn [committed in_atomic_block needs_rollback].
  match goal with
  | |- context [insert ?r ?s] =>
      change s with (in_transaction (after_conflict w name file_obj) c);
      change r with (original_of (uuid_supply w) name (validated_data file_obj)
                       digest now)
  end.
  by rewrite (insert_conflict _ _ _ digest).
Qed.

(** The same when the storage refuses the path: nothing is written and
    the exception leaves [create]. *)
Lemma objects_create_upload_refused w c file_obj digest now :
  blob_name w file_obj = None →
  objects_create (inl file_obj) (to_internal_value (upload.name file_obj))
    (to_internal_value (upload.content_type file_obj)) (upload.size file_obj)
    (Some digest) false None 1 now (in_transaction w c)
  = (Raise SuspiciousFileOperation, in_transaction (after_refused w) c).
Proof.
  intros Hname. unfold objects_create.
  unfold bind at 1. rewrite uuid4_run.
  unfold bind at 1, bind at 1. rewrite uuid4_run.
  unfold storage_save, bind at 1, get_world. cbn [world in_transaction media].
  unfold blob_name, requested_path in Hname.
  change (uuid_supply (set_uuid_supply (N.succ (uuid_supply w)) w))
    with (N.succ (uuid_supply w)).
  change (media (set_uuid_supply (N.succ (N.succ (uuid_supply w)))
                   (set_uuid_supply (N.succ (uuid_supply w)) w)))
    with (media w).
  by rewrite Hname.
Qed.

(** The lookup finds nothing, the upload is valid, the storage takes the
    blob and no row holds the hash when the insert runs: the upload
    becomes an original. *)
Lemma create_fresh others w file_obj name now :
  consistent (others w) → upload.truthy file_obj = true →
  (∀ r, r ∈ db w →
        models.content_hash r ≠ Some (sha256_hex (upload.content file_obj))) →
  (∀ r, r ∈ db (others w) →
        models.content_hash r ≠ Some (sha256_hex (upload.content file_obj))) →
  serializer_errors file_obj = [] →
  blob_name (others w) file_obj = Some name →
  respond (FileViewSet.create others (Some file_obj) now) w
  = ({| status := HTTP_201_CREATED;
        data := Serialized
                  (original_of (uuid_supply (others w)) name
                     (validated_data file_obj)
                     (sha256_hex (upload.content file_obj)) now) |},
     after_original (others w) name file_obj now).
Proof.
  intros Hw Htruthy Hnone Hnone' Hvalid Hname. open_create Htruthy.
  rewrite first_hash_none by done.
  unfold bind at 1, interleave at 1. cbn [world in_atomic_block needs_rollback in_transaction].
  fold (in_transaction (others w) (db (others w))).
  unfold except_IntegrityError, bind at 1, FileViewSet.is_valid.
  rewrite Hvalid. unfold ret at 1. unfold bind at 1.
  by rewrite (objects_create_upload_run _ _ _ name).
Qed.

(** The same when a row holds the hash by the time the insert runs: the
    handler of the [IntegrityError] queries inside the transaction the
    failed insert has marked for rollback, so the query is refused, the
    transaction is rolled back and the request fails. *)
Lemma create_conflict others w file_obj name now :
  upload.truthy file_obj = true →
  (∀ r, r ∈ db w →
        models.content_hash r ≠ Some (sha256_hex (upload.content file_obj))) →
  existsb (content_hash_is (sha256_hex (upload.content file_obj)))
          (db (others w)) = true →
  serializer_errors file_obj = [] →
  blob_name (others w) file_obj = Some name →
  respond (FileViewSet.create others (Some file_obj) now) w
  = ({| status := 500; data := NoContent |},
     after_conflict (others w) name file_obj).
Proof.
  intros Htruthy Hnone Htaken Hvalid Hname. open_create Htruthy.
  rewrite first_hash_none by done.
  unfold bind at 1, interleave at 1. cbn [world in_atomic_block needs_rollback in_transaction].
  fold (in_transaction (others w) (db (others w))).
  unfold except_IntegrityError, bind at 1, FileViewSet.is_valid.
  rewrite Hvalid. unfold ret at 1. unfold bind at 1.
  rewrite (objects_create_upload_conflict _ _ _ name) by done.
  unfold bind at 1, get, bind at 1. by rewrite evaluate_broken.
Qed.

(** The same when the storage refuses the path of the blob: the upload is
    answered 400 by Django, and neither a row nor a blob is created. *)
Lemma create_refused others w file_obj now :
  upload.truthy file_obj = true →
  (∀ r, r ∈ db w →
        models.content_hash r ≠ Some (sha256_hex (upload.content file_obj))) →
  serializer_errors file_obj = [] →
  blob_name (others w) file_obj = None →
  respond (FileViewSet.create others (Some file_obj) now) w
  = ({| status := 400; data := ErrorPage |}, after_refused (others w)).
Proof.
  intros Htruthy Hnone Hvalid Hname. open_create Htruthy.
  rewrite first_hash_none by done.
  unfold bind at 1, interleave at 1. cbn [world in_atomic_block needs_rollback in_transaction].
  fold (in_transaction (others w) (db (others w))).
  unfold except_IntegrityError, bind at 1, FileViewSet.is_valid.
  rewrite Hvalid. unfold ret at 1. unfold bind at 1.
  rewrite objects_create_upload_refused by done.
  simpl. by destruct (others w).
Qed.

End create_runs.

(** * Consistency is kept *)

Lemma consistent_empty : consistent empty_world.
Proof.
  split; simpl; try (intros; exfalso; eapply not_elem_of_nil; eassumption).
  constructor.
Qed.

(** Recording a duplicate of an original. *)
Lemma consistent_after_duplicate w file_obj existing now :
  consistent w → existing ∈ db w → models.is_duplicate existing = false →
  consistent (after_duplicate w file_obj existing now).
Proof.
  intros Hw Hin Horig.
  set (dup := duplicate_of (uuid_supply w) file_obj existing now).
  assert (Hdupkey : ∀ r, r ∈ db w → models.id r ≠ models.id dup).
  { intros r Hr. simpl. pose proof (keys_drawn w Hw r Hr). lia. }
  assert (Hrows : ∀ r', r' ∈ db (after_duplicate w file_obj existing now) ↔
                        (∃ r, r ∈ db w ∧ r' = bump_row (models.id existing) 1 r)
                        ∨ r' = dup).
  { intros r'. simpl. rewrite elem_of_app, elem_of_bump, list_elem_of_singleton.
    done. }
  split.
  - intros r' [(r & Hr & ->) | ->]%Hrows; simpl.
    + rewrite bump_row_id. pose proof (keys_drawn w Hw r Hr). lia.
    + lia.
  - simpl. rewrite fmap_app, bump_ids. apply NoDup_app.
    split; [apply Hw|]. split; [|apply NoDup_singleton].
    intros pk Hpk ->%list_elem_of_singleton.
    apply list_elem_of_fmap in Hpk as (r & Hid & Hr). by apply (Hdupkey r).
  - intros r1' r2' h [(r1 & Hr1 & ->) | ->]%Hrows [(r2 & Hr2 & ->) | ->]%Hrows;
      rewrite ?bump_row_content_hash; try discriminate.
    intros H1 H2. by rewrite (hash_once w Hw r1 r2 h).
  - intros r' [(r & Hr & ->) | ->]%Hrows.
    + rewrite bump_row_is_duplicate. intros Hd.
      destruct (duplicate_shape w Hw r Hr Hd) as (Hnone & Hone & c & Hc & Href & Hco & Hfile).
      assert (models.id r ≠ models.id existing) as Hne by (intros Heq;
        rewrite (same_key (db w) r existing) in Hd by (done || apply Hw); congruence).
      rewrite bump_row_miss by done. split; [done|]. split; [done|].
      exists (bump_row (models.id existing) 1 c).
      rewrite bump_row_id, bump_row_is_duplicate, bump_row_file.
      split; [|done]. apply Hrows. left. by exists c.
    + intros _. split; [done|]. split; [done|].
      exists (bump_row (models.id existing) 1 existing).
      rewrite bump_row_id, bump_row_is_duplicate, bump_row_file.
      split; [|done]. apply Hrows. left. by exists existing.
  - intros r' [(r & Hr & ->) | ->]%Hrows; [|discriminate].
    rewrite bump_row_is_duplicate. intros Hd.
    destruct (original_shape w Hw r Hr Hd) as (Href & Hhash & Hcount & Hblob & Hname).
    rewrite bump_row_referenced_file, bump_row_content_hash, bump_row_file,
      bump_row_id, bump_row_reference_count.
    split; [done|]. split; [done|]. split; [|done].
    simpl. rewrite live_duplicates_app, length_app, live_duplicates_bump_length.
    rewrite Hcount, live_duplicates_singleton.
    destruct (pk_is (models.id existing) r) eqn:Hpk.
    + apply pk_is_true in Hpk. rewrite decide_True by (simpl; by rewrite Hpk).
      simpl. lia.
    + apply pk_is_false in Hpk.
      rewrite decide_False by (simpl; intros [_ [=]]; congruence).
      simpl. lia.
  - intros r1' r2' [(r1 & Hr1 & ->) | ->]%Hrows [(r2 & Hr2 & ->) | ->]%Hrows;
      rewrite ?bump_row_is_duplicate, ?bump_row_file; try discriminate.
    intros H1 H2 Hfile. by rewrite (blob_owner w Hw r1 r2).
Qed.

(** Blobs and drawn keys may be added freely. *)
Lemma consistent_storage w w' :
  consistent w → db w' = db w → (uuid_supply w ≤ uuid_supply w')%N →
  (∀ name, is_Some (media w !! name) → is_Some (media w' !! name)) →
  consistent w'.
Proof.
  intros Hw Hdb Hsupply Hmedia. split; rewrite ?Hdb; try apply Hw.
  - intros r Hr. pose proof (keys_drawn w Hw r Hr). lia.
  - intros r Hr Hd.
    destruct (original_shape w Hw r Hr Hd) as (? & ? & ? & ? & ?). auto 6.
Qed.

Section create_keeps.
Context `{Hashlib} `{Framework}.

Lemma blob_name_free w file_obj name :
  blob_name w file_obj = Some name → media w !! name = None.
Proof. apply get_available_name_free. Qed.

Lemma blob_name_nonempty w file_obj name :
  blob_name w file_obj = Some name → name ≠ "".
Proof. apply get_available_name_nonempty. Qed.

Lemma consistent_after_refused w : consistent w → consistent (after_refused w).
Proof.
  intros Hw. apply (consistent_storage w); [done | done | simpl; lia | done].
Qed.

Lemma consistent_after_conflict w name file_obj :
  consistent w → media w !! name = None →
  consistent (after_conflict w name file_obj).
Proof.
  intros Hw Hfree. apply (consistent_storage w); [done | done | simpl; lia |].
  intros name' Hname. simpl. rewrite lookup_insert_ne; [done|].
  intros <-. rewrite Hfree in Hname. by destruct Hname.
Qed.

(** Recording a new original. *)
Lemma consistent_after_original w name file_obj now :
  consistent w → media w !! name = None → name ≠ "" →
  (∀ r, r ∈ db w →
        models.content_hash r ≠ Some (sha256_hex (upload.content file_obj))) →
  consistent (after_original w name file_obj now).
Proof.
  intros Hw Hfree Hne Hnone.
  set (orig := original_of (uuid_supply w) name (validated_data file_obj)
                 (sha256_hex (upload.content file_obj)) now).
  assert (Hrows : ∀ r, r ∈ db (after_original w name file_obj now)
                       ↔ r ∈ db w ∨ r = orig).
  { intros r. simpl. by rewrite elem_of_app, list_elem_of_singleton. }
  assert (Hblob : ∀ r, r ∈ db w → models.is_duplicate r = false →
                       models.file r ≠ name).
  { intros r Hr Hd Heq.
    destruct (original_shape w Hw r Hr Hd) as (_ & _ & _ & Hsome & _).
    rewrite Heq, Hfree in Hsome. by destruct Hsome. }
  assert (Hlive : ∀ pk, live_duplicates pk (db (after_original w name file_obj now))
                        = live_duplicates pk (db w)).
  { intros pk. simpl. rewrite live_duplicates_app, live_duplicates_singleton.
    rewrite decide_False by (simpl; intros [[=] _]). apply app_nil_r. }
  split.
  - intros r [Hr | ->]%Hrows; simpl; [|lia].
    pose proof (keys_drawn w Hw r Hr). lia.
  - simpl. rewrite fmap_app. apply NoDup_app.
    split; [apply Hw|]. split; [|apply NoDup_singleton].
    intros pk Hpk ->%list_elem_of_singleton.
    apply list_elem_of_fmap in Hpk as (r & Hid & Hr).
    pose proof (keys_drawn w Hw r Hr). simpl in Hid. lia.
  - intros r1 r2 h [Hr1 | ->]%Hrows [Hr2 | ->]%Hrows H1 H2; simpl in *.
    + by apply (hash_once w Hw r1 r2 h).
    + exfalso. apply (Hnone r1 Hr1). congruence.
    + exfalso. apply (Hnone r2 Hr2). congruence.
    + done.
  - intros r [Hr | ->]%Hrows Hd; [|discriminate].
    destruct (duplicate_shape w Hw r Hr Hd) as (? & ? & c & Hc & ? & ? & ?).
    split; [done|]. split; [done|]. exists c. split; [|done].
    apply Hrows. by left.
  - intros r [Hr | ->]%Hrows Hd; rewrite Hlive.
    + destruct (original_shape w Hw r Hr Hd) as (? & ? & ? & ? & ?).
      split; [done|]. split; [done|]. split; [done|]. split; [|done].
      simpl. rewrite lookup_insert_ne; [done|]. intros Heq.
      by apply (Hblob r).
    + simpl. split; [done|]. split; [by eexists|]. split.
      * unfold live_duplicates. rewrite (filter_none _ (db w)); [done|].
        intros y Hy [Hyd Href].
        destruct (duplicate_shape w Hw y Hy Hyd) as (_ & _ & c & Hc & Href' & _).
        pose proof (keys_drawn w Hw c Hc). rewrite Href in Href'.
        injection Href' as Hkey. lia.
      * split; [by rewrite lookup_insert_eq | done].
  - intros r1 r2 [Hr1 | ->]%Hrows [Hr2 | ->]%Hrows H1 H2 Hfile; simpl in *.
    + by apply (blob_owner w Hw).
    + exfalso. by apply (Hblob r1).
    + exfalso. by apply (Hblob r2).
    + done.
Qed.
End create_keeps.

(** * Running [destroy] *)

Lemma evaluate_connect (qs : QuerySet) w :
  evaluate qs (connect w)
  = (Return (merge_sort models.ordering (filter (λ r, qs r) (db w))), connect w).
Proof. reflexivity. Qed.

Lemma remove_replaced pk (x : File) rows :
  models.id x = pk →
  remove pk (map (λ r, if pk_is pk r then x else r) rows) = remove pk rows.
Proof.
  intros Hx. unfold remove. induction rows as [|a rows IH]; [done|].
  simpl. rewrite !filter_cons, IH. destruct (pk_is pk a) eqn:Ha.
  - apply pk_is_true in Ha. by rewrite !decide_False by (intros Hne; by apply Hne).
  - apply pk_is_false in Ha. by rewrite !decide_True by done.
Qed.

(** Only duplicates refer to a row. *)
Lemma references_duplicate w r pk :
  consistent w → r ∈ db w → models.referenced_file r = Some pk →
  models.is_duplicate r = true.
Proof.
  intros Hw Hr Href. destruct (models.is_duplicate r) eqn:Hd; [done|].
  destruct (original_shape w Hw r Hr Hd) as (Hnone & _). congruence.
Qed.

(** No row refers to a duplicate. *)
Lemma duplicate_unreferenced w instance :
  consistent w → instance ∈ db w → models.is_duplicate instance = true →
  ∀ r, r ∈ db w → models.referenced_file r ≠ Some (models.id instance).
Proof.
  intros Hw Hin Hd r Hr Href.
  pose proof (references_duplicate w r _ Hw Hr Href) as Hrd.
  destruct (duplicate_shape w Hw r Hr Hrd) as (_ & _ & c & Hc & Href' & Hco & _).
  rewrite Href in Href'. injection Href' as Hkey.
  assert (instance = c) as -> by (by apply (same_key (db w)); [apply Hw|..]).
  congruence.
Qed.

(** No row refers to an original that counts only itself. *)
Lemma free_original_unreferenced w instance :
  consistent w → instance ∈ db w → models.is_duplicate instance = false →
  models.reference_count instance ≤ 1 →
  ∀ r, r ∈ db w → models.referenced_file r ≠ Some (models.id instance).
Proof.
  intros Hw Hin Hd Hcount r Hr Href.
  destruct (original_shape w Hw instance Hin Hd) as (_ & _ & Hrc & _).
  assert (r ∈ live_duplicates (models.id instance) (db w)) as Hlive.
  { apply list_elem_of_filter. split; [|done]. split; [|done].
    by apply (references_duplicate w r (models.id instance)). }
  destruct (live_duplicates (models.id instance) (db w)); simpl in *;
    [by apply elem_of_nil in Hlive | lia].
Qed.

Section destroy_runs.
Context `{Hashlib} `{Framework}.

Lemma get_object_run q w instance :
  consistent w → instance ∈ db w → selects q instance →
  FileViewSet.get_object q (models.id instance) (connect w)
  = (Return instance, connect w).
Proof.
  intros Hw Hin (queryset & Hq & Hsel). unfold FileViewSet.get_object.
  rewrite Hq. unfold bind. rewrite evaluate_connect.
  rewrite (filter_key (db w) queryset instance); [done | apply Hw | done | done].
Qed.

(** What [get_object] returns is a row of the table with the key asked
    for, which the filters let through; the world is not changed. *)
Lemma get_object_sound q pk w :
  ∃ o, FileViewSet.get_object q pk (connect w) = (o, connect w) ∧
       ∀ r, o = Return r → r ∈ db w ∧ models.id r = pk ∧ selects q r.
Proof.
  unfold FileViewSet.get_object, selects.
  destruct (FileViewSet.get_queryset q) as [e | queryset].
  { exists (Raise e). split; [done | discriminate]. }
  unfold bind. rewrite evaluate_connect.
  pose proof (merge_sort_Permutation models.ordering
                (filter (λ r, qs_filter queryset (pk_is pk) r) (db w))) as Hperm.
  destruct (merge_sort _ _) as [|r [|r' rows]] eqn:Hsorted.
  - exists (Raise Http404). split; [done | discriminate].
  - exists (Return r). split; [done|]. intros ? [= <-].
    assert (r ∈ filter (λ r, qs_filter queryset (pk_is pk) r) (db w)) as Hr
      by (rewrite <- Hperm; left).
    apply list_elem_of_filter in Hr as [Hsel Hr]. split; [done|].
    unfold qs_filter in Hsel.
    apply Is_true_true, andb_true_iff in Hsel as [Hqs ?%pk_is_true].
    split; [done|]. by exists queryset.
  - exists (Raise MultipleObjectsReturned). split; [done | discriminate].
Qed.

(** A duplicate is deleted. *)
Lemma destroy_duplicate q w instance :
  consistent w → instance ∈ db w → selects q instance →
  models.is_duplicate instance = true →
  respond (FileViewSet.destroy q (models.id instance)) w
  = ({| status := HTTP_204_NO_CONTENT; data := NoContent |},
     after_delete_duplicate w instance).
Proof.
  intros Hw Hin Hsel Hd. unfold respond, FileViewSet.destroy.
  unfold bind at 1. rewrite get_object_run by done.
  unfold atomic. cbn [connect world db]. rewrite Hd.
  destruct (duplicate_shape w Hw instance Hin Hd)
    as (_ & _ & c & Hc & Href & Hco & _).
  unfold bind at 1, get_referenced_file. rewrite Href.
  unfold bind at 1. rewrite (get_run _ c).
  2: { apply filter_singleton; [apply NoDup_rows, Hw | done | |].
       - by apply Is_true_true, pk_is_true.
       - intros y Hy Hp. apply Is_true_true, pk_is_true in Hp.
         by apply (same_key (db w)); [apply Hw|..]. }
  unfold ret at 1. unfold bind at 1.
  rewrite update_reference_count_run.
  2: { intros r Hr. pose proof (reference_count_pos w r Hw Hr). lia. }
  unfold bind at 1. rewrite delete_instance_run.
  2: { apply existsb_false. intros r' (r & Hr & ->)%elem_of_bump.
       unfold references. apply bool_decide_eq_false.
       rewrite bump_row_referenced_file.
       by apply (duplicate_unreferenced w instance). }
  unfold after_delete_duplicate. by rewrite Href.
Qed.

(** An original that still has duplicates is not deleted. *)
Lemma destroy_protected q w instance :
  consistent w → instance ∈ db w → selects q instance →
  models.is_duplicate instance = false → 1 < models.reference_count instance →
  respond (FileViewSet.destroy q (models.id instance)) w
  = ({| status := 403;
        data := Detail
          "Cannot delete original file that has duplicates. Delete duplicates first." |},
     w).
Proof.
  intros Hw Hin Hsel Hd Hcount. unfold respond, FileViewSet.destroy.
  unfold bind at 1. rewrite get_object_run by done.
  unfold atomic. cbn [connect world db]. rewrite Hd.
  rewrite (proj2 (Z.ltb_lt _ _) Hcount). simpl. by destruct w.
Qed.

(** An original that counts only itself is deleted with its blob. *)
Lemma destroy_free q w instance :
  consistent w → instance ∈ db w → selects q instance →
  models.is_duplicate instance = false → models.reference_count instance ≤ 1 →
  respond (FileViewSet.destroy q (models.id instance)) w
  = ({| status := HTTP_204_NO_CONTENT; data := NoContent |},
     after_delete_original w instance).
Proof.
  intros Hw Hin Hsel Hd Hcount. unfold respond, FileViewSet.destroy.
  unfold bind at 1. rewrite get_object_run by done.
  unfold atomic. cbn [connect world db]. rewrite Hd.
  rewrite (proj2 (Z.ltb_ge _ _) Hcount).
  destruct (original_shape w Hw instance Hin Hd) as (_ & _ & _ & _ & Hname).
  assert (nonempty (models.file instance) = true) as ->.
  { unfold nonempty. apply negb_true_iff, String.eqb_neq. done. }
  unfold bind at 1, FieldFile_delete, bind at 1, storage_delete, bind at 1.
  unfold get_world at 1, put_world at 1. cbn [world in_transaction set_world
    committed in_atomic_block needs_rollback].
  fold (in_transaction (set_media (delete (models.file instance) (media w)) w) (db w)).
  unfold bind at 1, save, bind at 1, get_world at 1.
  cbn [world in_transaction set_media db models.id models.with_file].
  rewrite key_taken by done.
  unfold mark_for_rollback_on_error, bind at 1, validate_no_broken_transaction.
  cbn [needs_rollback in_transaction]. unfold get_world, put_world, ret.
  cbn [world in_transaction set_world committed in_atomic_block needs_rollback
       set_media db].
  unfold bind at 1.
  match goal with
  | |- context [delete_instance ?i ?s] =>
      change s with (in_transaction
        (set_db (map (λ r, if pk_is (models.id instance) r
                           then models.with_file instance "" else r) (db w))
           (set_media (delete (models.file instance) (media w)) w)) (db w))
  end.
  rewrite delete_instance_run.
  2: { apply existsb_false. intros r' Hr'. cbn [db set_db] in Hr'.
       apply list_elem_of_fmap in Hr' as (r & -> & Hr).
       unfold references. apply bool_decide_eq_false. simpl.
       destruct (pk_is (models.id instance) r).
       - simpl. by apply (free_original_unreferenced w instance Hw Hin Hd Hcount instance).
       - by apply (free_original_unreferenced w instance). }
  cbn [set_db db models.id models.with_file].
  rewrite remove_replaced by done. reflexivity.
Qed.
End destroy_runs.

(** * Consistency is kept by [destroy] *)

Lemma elem_of_remove pk rows r :
  r ∈ remove pk rows ↔ r ∈ rows ∧ models.id r ≠ pk.
Proof. unfold remove. rewrite list_elem_of_filter. tauto. Qed.

Lemma remove_keys_NoDup pk rows :
  NoDup (models.id <$> rows) → NoDup (models.id <$> remove pk rows).
Proof.
  unfold remove. induction rows as [|a rows IH]; [done|].
  rewrite fmap_cons. intros [Hnotin Hnd]%NoDup_cons.
  rewrite filter_cons. case_decide; [|by apply IH].
  rewrite fmap_cons. apply NoDup_cons. split; [|by apply IH].
  intros (r & Hid & Hr%list_elem_of_filter)%list_elem_of_fmap.
  apply Hnotin. rewrite Hid. apply list_elem_of_fmap_2. tauto.
Qed.

Lemma live_duplicates_remove_other pk rows r :
  NoDup (models.id <$> rows) → r ∈ rows →
  ¬ (models.is_duplicate r = true ∧ models.referenced_file r = Some pk) →
  length (live_duplicates pk (remove (models.id r) rows))
  = length (live_duplicates pk rows).
Proof.
  intros Hnd Hr Hnot. rewrite (live_duplicates_remove pk rows r) by done.
  rewrite decide_False by done. lia.
Qed.

Lemma consistent_after_delete_original w instance :
  consistent w → instance ∈ db w → models.is_duplicate instance = false →
  models.reference_count instance ≤ 1 →
  consistent (after_delete_original w instance).
Proof.
  intros Hw Hin Hd Hcount.
  pose proof (free_original_unreferenced w instance Hw Hin Hd Hcount) as Hfree.
  assert (Hrows : ∀ r, r ∈ db (after_delete_original w instance) ↔
                       r ∈ db w ∧ models.id r ≠ models.id instance).
  { intros r. simpl. apply elem_of_remove. }
  split.
  - intros r [Hr _]%Hrows. by apply (keys_drawn w Hw).
  - simpl. apply remove_keys_NoDup, Hw.
  - intros r1 r2 h [Hr1 _]%Hrows [Hr2 _]%Hrows. by apply (hash_once w Hw).
  - intros r [Hr Hne]%Hrows Hrd.
    destruct (duplicate_shape w Hw r Hr Hrd) as (? & ? & c & Hc & Href & ? & ?).
    split; [done|]. split; [done|]. exists c. split; [|done].
    apply Hrows. split; [done|]. intros Heq. apply (Hfree r Hr). congruence.
  - intros r [Hr Hne]%Hrows Hrd.
    destruct (original_shape w Hw r Hr Hrd) as (? & ? & Hrc & Hblob & ?).
    split; [done|]. split; [done|]. split; [|split; [|done]].
    + simpl. rewrite live_duplicates_remove_other; [done | apply Hw | done |].
      intros [Hdup _]. congruence.
    + simpl. rewrite lookup_delete_ne; [done|]. intros Heq. apply Hne.
      by rewrite (blob_owner w Hw instance r).
  - intros r1 r2 [Hr1 _]%Hrows [Hr2 _]%Hrows. by apply (blob_owner w Hw).
Qed.

Lemma consistent_after_delete_duplicate w instance :
  consistent w → instance ∈ db w → models.is_duplicate instance = true →
  consistent (after_delete_duplicate w instance).
Proof.
  intros Hw Hin Hd.
  destruct (duplicate_shape w Hw instance Hin Hd)
    as (_ & _ & c & Hc & Href & Hco & _).
  assert (Hrows : ∀ r', r' ∈ db (after_delete_duplicate w instance) ↔
                        ∃ r, r ∈ db w ∧ models.id r ≠ models.id instance ∧
                             r' = bump_row (models.id c) (-1) r).
  { intros r'. unfold after_delete_duplicate. rewrite Href. simpl.
    rewrite elem_of_remove, elem_of_bump. split.
    - intros [(r & Hr & ->) Hne]. rewrite bump_row_id in Hne. by exists r.
    - intros (r & Hr & Hne & ->). rewrite bump_row_id. split; [by exists r | done]. }
  assert (Hnd : NoDup (models.id <$> bump (models.id c) (-1) (db w)))
    by (rewrite bump_ids; apply Hw).
  assert (Hin' : bump_row (models.id c) (-1) instance
                 ∈ bump (models.id c) (-1) (db w))
    by (apply elem_of_bump; by exists instance).
  split.
  - intros r' (r & Hr & _ & ->)%Hrows. rewrite bump_row_id.
    by apply (keys_drawn w Hw).
  - unfold after_delete_duplicate. rewrite Href. simpl.
    by apply remove_keys_NoDup.
  - intros r1' r2' h (r1 & Hr1 & _ & ->)%Hrows (r2 & Hr2 & _ & ->)%Hrows.
    rewrite !bump_row_content_hash. intros H1 H2.
    by rewrite (hash_once w Hw r1 r2 h).
  - intros r' (r & Hr & Hne & ->)%Hrows. rewrite bump_row_is_duplicate. intros Hrd.
    destruct (duplicate_shape w Hw r Hr Hrd) as (? & ? & c0 & Hc0 & Href0 & Hco0 & ?).
    assert (models.id r ≠ models.id c) as Hrc.
    { intros Heq. assert (r = c) as -> by (by apply (same_key (db w)); [apply Hw|..]).
      congruence. }
    rewrite bump_row_miss by done. split; [done|]. split; [done|].
    exists (bump_row (models.id c) (-1) c0).
    rewrite bump_row_id, bump_row_is_duplicate, bump_row_file.
    split; [|done]. apply Hrows. exists c0. split; [done|]. split; [|done].
    intros Heq.
    assert (c0 = instance) as -> by (by apply (same_key (db w)); [apply Hw|..]).
    congruence.
  - intros r' (r & Hr & Hne & ->)%Hrows. rewrite bump_row_is_duplicate. intros Hrd.
    destruct (original_shape w Hw r Hr Hrd) as (? & ? & Hrc & ? & ?).
    rewrite bump_row_referenced_file, bump_row_content_hash, bump_row_file,
      bump_row_id, bump_row_reference_count.
    split; [done|]. split; [done|]. split; [|done].
    unfold after_delete_duplicate. rewrite Href. simpl.
    pose proof (live_duplicates_remove (models.id r)
                  (bump (models.id c) (-1) (db w)) _ Hnd Hin') as Hlen.
    rewrite bump_row_id, bump_row_is_duplicate, bump_row_referenced_file,
      live_duplicates_bump_length in Hlen.
    rewrite Hrc, Hlen. destruct (pk_is (models.id c) r) eqn:Hpk.
    + apply pk_is_true in Hpk. rewrite decide_True by (by rewrite Hpk). lia.
    + apply pk_is_false in Hpk.
      rewrite decide_False by (rewrite Href; intros [_ [=]]; congruence). lia.
  - intros r1' r2' (r1 & Hr1 & _ & ->)%Hrows (r2 & Hr2 & _ & ->)%Hrows.
    rewrite !bump_row_is_duplicate, !bump_row_file. intros H1 H2 Hfile.
    by rewrite (blob_owner w Hw r1 r2).
Qed.

(** * Every world the service reaches is consistent *)

Section reachability.
Context `{Hashlib} `{Framework}.

Lemma list_view_world q w : snd (respond (FileViewSet.list_view q) w) = w.
Proof.
  unfold respond, FileViewSet.list_view.
  destruct (FileViewSet.get_queryset q) as [e | queryset]; [done|].
  unfold bind. by rewrite evaluate_connect.
Qed.

Lemma create_consistent others file now w :
  (∀ w, consistent w → consistent (others w)) → consistent w →
  consistent (snd (respond (FileViewSet.create others file now) w)).
Proof.
  intros Hothers Hw. destruct file as [file_obj|]; [|by rewrite create_no_file].
  destruct (upload.truthy file_obj) eqn:Htruthy;
    [|by rewrite create_falsy_file].
  set (digest := sha256_hex (upload.content file_obj)).
  destruct (existsb (content_hash_is digest) (db w)) eqn:Hheld.
  - apply existsb_true in Hheld as (existing & Hin & Hhash).
    apply bool_decide_eq_true in Hhash.
    rewrite (create_found _ _ _ _ existing) by done.
    apply consistent_after_duplicate; [done | done |].
    by apply (hash_holder_original w existing digest).
  - assert (Hnone : ∀ r, r ∈ db w → models.content_hash r ≠ Some digest).
    { intros r Hr. rewrite existsb_false in Hheld.
      specialize (Hheld r Hr). by apply bool_decide_eq_false in Hheld. }
    destruct (decide (serializer_errors file_obj = [])) as [Hvalid | Hbad].
    + destruct (blob_name (others w) file_obj) as [name|] eqn:Hname.
      2: { rewrite create_refused by done.
           by apply consistent_after_refused, Hothers. }
      pose proof (blob_name_free _ _ _ Hname) as Hfree.
      pose proof (blob_name_nonempty _ _ _ Hname) as Hne.
      destruct (existsb (content_hash_is digest) (db (others w))) eqn:Hheld'.
      * rewrite (create_conflict _ _ _ name) by done.
        apply consistent_after_conflict; auto.
      * assert (Hnone' : ∀ r, r ∈ db (others w) →
                              models.content_hash r ≠ Some digest).
        { intros r Hr. rewrite existsb_false in Hheld'.
          specialize (Hheld' r Hr). by apply bool_decide_eq_false in Hheld'. }
        rewrite (create_fresh _ _ _ name) by auto.
        apply consistent_after_original; auto.
    + rewrite create_invalid by done. by apply Hothers.
Qed.

Lemma destroy_consistent q pk w :
  consistent w → consistent (snd (respond (FileViewSet.destroy q pk) w)).
Proof.
  intros Hw. destruct (get_object_sound q pk w) as (o & Hget & Hsound).
  destruct o as [instance | e].
  - destruct (Hsound instance eq_refl) as (Hin & <- & Hsel).
    destruct (models.is_duplicate instance) eqn:Hd.
    + rewrite destroy_duplicate by done.
      by apply consistent_after_delete_duplicate.
    + destruct (Z.le_gt_cases (models.reference_count instance) 1).
      * rewrite destroy_free by done. by apply consistent_after_delete_original.
      * by rewrite destroy_protected.
  - unfold respond, FileViewSet.destroy, bind. by rewrite Hget.
Qed.

Lemma handle_consistent others r w :
  (∀ w, consistent w → consistent (others w)) → consistent w →
  consistent (snd (handle others r w)).
Proof.
  intros Hothers Hw. destruct r as [file now | pk q | q]; unfold handle.
  - by apply create_consistent.
  - by apply destroy_consistent.
  - by rewrite list_view_world.
Qed.

Lemma run_consistent rs w : consistent w → consistent (run rs w).
Proof.
  unfold run. revert w. induction rs as [|r rs IH]; intros w Hw; [done|].
  simpl. apply IH. by apply handle_consistent.
Qed.

Lemma serve_consistent r concurrent w :
  consistent w → consistent (snd (serve r concurrent w)).
Proof.
  intros Hw. apply handle_consistent; [|done].
  intros w'. apply run_consistent.
Qed.

Lemma reachable_consistent w : reachable w → consistent w.
Proof.
  intros [history ->]. generalize consistent_empty. generalize empty_world.
  induction history as [|[r c] history IH]; intros w Hw; [done|].
  simpl. apply IH. by apply serve_consistent.
Qed.

Lemma reachable_empty : reachable empty_world.
Proof. by exists []. Qed.

Lemma reachable_serve r concurrent w :
  reachable w → reachable (snd (serve r concurrent w)).
Proof.
  intros [history ->]. exists (history ++ [(r, concurrent)]).
  by rewrite foldl_app.
Qed.
End reachability.

(** * The hasher *)

Section hasher_claims.
Context {hashlib : Hashlib}.

Lemma digest_of_spec file_obj :
  digest_of file_obj = sha256_hex (upload.content file_obj).
Proof.
  unfold digest_of. by rewrite compute_file_hash_spec by apply default_chunk_size_pos.
Qed.

(** C8.  For every byte stream and every positive chunk size, the digest
    [compute_file_hash] returns is that of the whole content, whatever the
    position the stream was at; two streams with the same bytes get the
    same digest whatever their names, declared types, positions and chunk
    sizes; and the stream is handed back as it was, its read position
    included. *)
Theorem compute_file_hash_deterministic (file_obj other : UploadedFile)
    (chunk_size chunk_size' : nat) :
  (0 < chunk_size)%nat → (0 < chunk_size')%nat →
  upload.content other = upload.content file_obj →
  fst (compute_file_hash file_obj chunk_size)
    = sha256_hex (upload.content file_obj)
  ∧ fst (compute_file_hash other chunk_size')
    = fst (compute_file_hash file_obj chunk_size)
  ∧ upload.tell (snd (compute_file_hash file_obj chunk_size))
    = upload.tell file_obj
  ∧ snd (compute_file_hash file_obj chunk_size) = file_obj.
Proof.
  intros Hcs Hcs' Hsame. rewrite !compute_file_hash_spec by done.
  simpl. by rewrite Hsame.
Qed.
End hasher_claims.

Lemma compute_file_hash_deterministic_witness :
  (0 < 1)%nat ∧ (0 < default_chunk_size)%nat
  ∧ upload.content sample.copy = upload.content sample.report
  ∧ fst (@compute_file_hash sample.hashlib sample.report 1) = "6869"
  ∧ fst (@compute_file_hash sample.hashlib sample.copy default_chunk_size)
    = fst (@compute_file_hash sample.hashlib sample.report 1)
  ∧ upload.tell (snd (@compute_file_hash sample.hashlib sample.copy default_chunk_size))
    = 1%nat.
Proof.
  assert (H1 : (0 < 1)%nat) by lia.
  assert (H2 : (0 < default_chunk_size)%nat) by (unfold default_chunk_size; lia).
  assert (H3 : upload.content sample.copy = upload.content sample.report)
    by reflexivity.
  destruct (@compute_file_hash_deterministic sample.hashlib
              sample.report sample.copy 1 default_chunk_size H1 H2 H3)
    as (Hd & Hsame & _ & _).
  destruct (@compute_file_hash_deterministic sample.hashlib
              sample.copy sample.report default_chunk_size 1 H2 H1 (eq_sym H3))
    as (_ & _ & Hpos & _).
  repeat split; try done.
Defined.

(** * Ingest *)

Lemma selects_all `{Hashlib} `{Framework} r : selects ∅ r.
Proof. by exists objects_all. Qed.

Lemma row_found rows r :
  NoDup (models.id <$> rows) → r ∈ rows → row (models.id r) rows = Some r.
Proof.
  intros Hnd Hr. unfold row. rewrite (filter_singleton _ rows r); try done.
  - by apply NoDup_rows.
  - intros y Hy Hid. by apply (same_key rows).
Qed.

Lemma row_absent rows pk : pk ∉ models.id <$> rows → row pk rows = None.
Proof.
  intros Hnotin. unfold row. rewrite filter_none; [done|].
  intros y Hy Hid. apply Hnotin. rewrite <- Hid. by apply list_elem_of_fmap_2.
Qed.

Lemma row_removed rows pk : row pk (remove pk rows) = None.
Proof.
  apply row_absent. intros (r & Hid & Hr)%list_elem_of_fmap.
  apply elem_of_remove in Hr as [_ Hne]. by apply Hne.
Qed.

Section ingest_claims.
Context {hashlib : Hashlib} {framework : Framework}.

Lemma valid_truthy file_obj :
  serializer_errors file_obj = [] → upload.truthy file_obj = true.
Proof.
  intros Hvalid. unfold upload.truthy. apply negb_true_iff, String.eqb_neq.
  intros Hname. by apply (serializer_errors_no_name file_obj).
Qed.

(** Whatever the framework, an empty upload whose digest no row holds is
    refused by the serializer: the request is answered 400 and the world
    is left as it was. *)
Lemma empty_upload_refused (w : World) (file_obj : UploadedFile) (now : Z) :
  upload.truthy file_obj = true → upload.content file_obj = [] →
  (∀ r, r ∈ db w → models.content_hash r ≠ Some (digest_of file_obj)) →
  serve (POST (Some file_obj) now) [] w
  = ({| status := HTTP_400_BAD_REQUEST;
        data := Errors (serializer_errors file_obj) |}, w).
Proof.
  intros Htruthy Hempty Hnone. rewrite digest_of_spec in Hnone.
  unfold serve, handle.
  rewrite (create_invalid (run []) w); [done | done | done |].
  by apply serializer_errors_empty.
Qed.

(** C1 (amended).  In every reachable world, an upload that the serializer
    accepts, whose blob path the storage takes (settling on [name]) and
    whose digest no row holds is answered 201 with a new row that is an
    original: its [content_hash] is the digest of the content,
    [is_duplicate] is false, [reference_count] is 1 and [referenced_file]
    is null.  The row is added to the table, and the content is stored
    under the row's blob name, which is [name], was not in use before and
    fits the [file] column. *)
Theorem create_original_record (w : World) (file_obj : UploadedFile) (now : Z)
    (name : string) :
  reachable w →
  serializer_errors file_obj = [] →
  blob_name w file_obj = Some name →
  (∀ r, r ∈ db w → models.content_hash r ≠ Some (digest_of file_obj)) →
  ∃ r,
    fst (serve (POST (Some file_obj) now) [] w)
      = {| status := HTTP_201_CREATED; data := Serialized r |}
    ∧ models.content_hash r = Some (digest_of file_obj)
    ∧ models.is_duplicate r = false
    ∧ models.reference_count r = 1
    ∧ models.referenced_file r = None
    ∧ models.file r = name
    ∧ (String.length (models.file r) ≤ max_length)%nat
    ∧ db (snd (serve (POST (Some file_obj) now) [] w)) = db w ++ [r]
    ∧ media w !! models.file r = None
    ∧ media (snd (serve (POST (Some file_obj) now) [] w))
      = <[models.file r := upload.content file_obj]> (media w).
Proof.
  intros Hw%reachable_consistent Hvalid Hname Hnone.
  rewrite digest_of_spec in *. unfold serve, handle.
  rewrite (create_fresh (run []) w file_obj name)
    by (done || by apply valid_truthy).
  eexists. split; [reflexivity|]. repeat split.
  - simpl. by apply (get_available_name_max_length (media w)
                       (requested_path w file_obj)).
  - by apply (blob_name_free w file_obj).
Qed.

(** C2.  In every reachable world, an upload whose digest is the
    [content_hash] of an original is answered 201 with a new row that is a
    duplicate: no [content_hash], [is_duplicate] true, [referenced_file]
    the original's key, [reference_count] 1 and the original's blob name.
    The storage is left as it was, and the table is extended by the new
    row with the original's [reference_count] increased by exactly 1 in
    the same transaction, every other row being unchanged. *)
Theorem create_duplicate_record (w : World) (file_obj : UploadedFile)
    (now : Z) (existing : File) :
  reachable w →
  upload.truthy file_obj = true →
  existing ∈ db w →
  models.is_duplicate existing = false →
  models.content_hash existing = Some (digest_of file_obj) →
  ∃ d,
    fst (serve (POST (Some file_obj) now) [] w)
      = {| status := HTTP_201_CREATED; data := Serialized d |}
    ∧ models.content_hash d = None
    ∧ models.is_duplicate d = true
    ∧ models.referenced_file d = Some (models.id existing)
    ∧ models.reference_count d = 1
    ∧ models.file d = models.file existing
    ∧ media (snd (serve (POST (Some file_obj) now) [] w)) = media w
    ∧ db (snd (serve (POST (Some file_obj) now) [] w))
      = bump (models.id existing) 1 (db w) ++ [d]
    ∧ row (models.id existing) (db (snd (serve (POST (Some file_obj) now) [] w)))
      = Some (models.with_reference_count existing
                (models.reference_count existing + 1))
    ∧ ∀ r, r ∈ db w → models.id r ≠ models.id existing →
           r ∈ db (snd (serve (POST (Some file_obj) now) [] w)).
Proof.
  intros Hreach Htruthy Hin Horig Hhash.
  pose proof (reachable_consistent w Hreach) as Hw.
  rewrite digest_of_spec in Hhash. unfold serve, handle.
  rewrite (create_found (run []) w file_obj now existing) by done.
  pose proof (consistent_after_duplicate w file_obj existing now Hw Hin Horig)
    as Hw'.
  eexists. split; [reflexivity|]. repeat split.
  - rewrite <- (bump_row_hit 1 existing).
    rewrite <- (bump_row_id (models.id existing) 1 existing) at 1.
    apply row_found; [apply Hw'|]. cbn [snd after_duplicate db].
    apply elem_of_app. left. apply elem_of_bump. by exists existing.
  - intros r Hr Hne. cbn [snd after_duplicate db].
    apply elem_of_app. left. apply elem_of_bump. exists r.
    by rewrite bump_row_miss.
Qed.
End ingest_claims.

Lemma sample_reachable_one : @reachable sample.hashlib sample.framework sample.one_upload.
Proof. apply reachable_serve, reachable_empty. Qed.

Lemma sample_reachable_two : @reachable sample.hashlib sample.framework sample.two_uploads.
Proof. apply reachable_serve, sample_reachable_one. Qed.

Lemma sample_one_upload_rows : db sample.one_upload = [sample.first_row].
Proof. vm_compute. reflexivity. Qed.

Lemma sample_two_uploads_rows :
  db sample.two_uploads
  = [models.with_reference_count sample.first_row 2; sample.second_row].
Proof. vm_compute. reflexivity. Qed.

Lemma create_original_record_witness :
  @reachable sample.hashlib sample.framework empty_world
  ∧ sample.errors sample.report = []
  ∧ @blob_name sample.framework empty_world sample.report
    = Some "uploads/00000000-0000-0000-0000-000000000001.txt"
  ∧ ∃ r,
      fst (sample.serves (POST (Some sample.report) 10) [] empty_world)
        = {| status := HTTP_201_CREATED; data := Serialized r |}
      ∧ models.content_hash r = Some (@digest_of sample.hashlib sample.report)
      ∧ models.is_duplicate r = false
      ∧ models.reference_count r = 1
      ∧ models.referenced_file r = None
      ∧ models.file r = "uploads/00000000-0000-0000-0000-000000000001.txt"
      ∧ (String.length (models.file r) ≤ max_length)%nat
      ∧ db (snd (sample.serves (POST (Some sample.report) 10) [] empty_world))
        = db empty_world ++ [r]
      ∧ media empty_world !! models.file r = None
      ∧ media (snd (sample.serves (POST (Some sample.report) 10) [] empty_world))
        = <[models.file r := upload.content sample.report]> (media empty_world).
Proof.
  assert (Hname : @blob_name sample.framework empty_world sample.report
                  = Some "uploads/00000000-0000-0000-0000-000000000001.txt")
    by (vm_compute; reflexivity).
  split; [apply reachable_empty|]. split; [reflexivity|]. split; [exact Hname|].
  apply (@create_original_record sample.hashlib sample.framework
           empty_world sample.report 10 _).
  - apply reachable_empty.
  - reflexivity.
  - exact Hname.
  - intros r Hr. by apply elem_of_nil in Hr.
Defined.

(** C1 as stated fails for the empty content: no row holds its digest in
    the empty world, yet the upload is answered 400 by the serializer, and
    neither a row nor a blob is created. *)
Lemma empty_upload_rejected :
  (∀ r, r ∈ db empty_world →
        models.content_hash r ≠ Some (@digest_of sample.hashlib sample.nothing))
  ∧ sample.serves (POST (Some sample.nothing) 10) [] empty_world
    = ({| status := HTTP_400_BAD_REQUEST;
          data := Errors [("file", "The submitted file is empty.")] |},
       empty_world)
  ∧ ¬ ∃ r, fst (sample.serves (POST (Some sample.nothing) 10) [] empty_world)
           = {| status := HTTP_201_CREATED; data := Serialized r |}.
Proof.
  split; [intros r Hr; by apply elem_of_nil in Hr|].
  split; [vm_compute; reflexivity|].
  intros [r Hr]. vm_compute in Hr. discriminate.
Qed.

Lemma create_duplicate_record_witness :
  @reachable sample.hashlib sample.framework sample.one_upload
  ∧ upload.truthy sample.copy = true
  ∧ sample.first_row ∈ db sample.one_upload
  ∧ models.is_duplicate sample.first_row = false
  ∧ models.content_hash sample.first_row
    = Some (@digest_of sample.hashlib sample.copy)
  ∧ ∃ d,
      fst (sample.serves (POST (Some sample.copy) 20) [] sample.one_upload)
        = {| status := HTTP_201_CREATED; data := Serialized d |}
      ∧ models.content_hash d = None
      ∧ models.is_duplicate d = true
      ∧ models.referenced_file d = Some (models.id sample.first_row)
      ∧ models.reference_count d = 1
      ∧ models.file d = models.file sample.first_row
      ∧ media sample.two_uploads = media sample.one_upload
      ∧ db sample.two_uploads
        = bump (models.id sample.first_row) 1 (db sample.one_upload) ++ [d]
      ∧ row (models.id sample.first_row) (db sample.two_uploads)
        = Some (models.with_reference_count sample.first_row
                  (models.reference_count sample.first_row + 1))
      ∧ ∀ r, r ∈ db sample.one_upload →
             models.id r ≠ models.id sample.first_row →
             r ∈ db sample.two_uploads.
Proof.
  assert (Hin : sample.first_row ∈ db sample.one_upload)
    by (rewrite sample_one_upload_rows; left).
  assert (Hhash : models.content_hash sample.first_row
                  = Some (@digest_of sample.hashlib sample.copy))
    by (vm_compute; reflexivity).
  split; [apply sample_reachable_one|]. split; [reflexivity|].
  split; [done|]. split; [reflexivity|]. split; [done|].
  apply (@create_duplicate_record sample.hashlib sample.framework
           sample.one_upload sample.copy 20 sample.first_row);
    [apply sample_reachable_one | reflexivity | done | reflexivity | done].
Defined.

(** * The insert race *)

Section race_claims.
Context {hashlib : Hashlib} {framework : Framework}.

(** C3 (amended).  In every reachable world, when the lookup of a valid
    upload finds no row with its digest and a concurrent request has
    inserted an original with that digest by the time the insert runs,
    the bytes the request has written stay in the storage: under whatever
    name the storage took them, which was free before, they are still
    there afterwards (they are not discarded).  No second row with the
    digest is created, and the concurrent original still holds it. *)
Theorem conflict_keeps_blob (w : World) (file_obj : UploadedFile) (now : Z)
    (concurrent : list request) (winner : File) :
  reachable w →
  serializer_errors file_obj = [] →
  (∀ r, r ∈ db w → models.content_hash r ≠ Some (digest_of file_obj)) →
  winner ∈ db (run concurrent w) →
  models.content_hash winner = Some (digest_of file_obj) →
  (∀ name, blob_name (run concurrent w) file_obj = Some name →
     media (run concurrent w) !! name = None
     ∧ media (snd (serve (POST (Some file_obj) now) concurrent w)) !! name
       = Some (upload.content file_obj))
  ∧ (∀ r, r ∈ db (snd (serve (POST (Some file_obj) now) concurrent w)) →
          models.content_hash r = Some (digest_of file_obj) →
          models.id r = models.id winner)
  ∧ (∃ r, r ∈ db (snd (serve (POST (Some file_obj) now) concurrent w))
          ∧ models.id r = models.id winner
          ∧ models.content_hash r = Some (digest_of file_obj)
          ∧ models.is_duplicate r = false).
Proof.
  intros Hreach Hvalid Hnone Hin Hhash.
  assert (Hw1 : consistent (run concurrent w))
    by apply run_consistent, reachable_consistent, Hreach.
  rewrite digest_of_spec in *. unfold serve, handle.
  assert (Htaken : existsb (content_hash_is (sha256_hex (upload.content file_obj)))
                     (db (run concurrent w)) = true).
  { apply existsb_true. exists winner. split; [done|].
    by apply bool_decide_eq_true. }
  assert (Horig : models.is_duplicate winner = false)
    by apply (hash_holder_original (run concurrent w) winner
                (sha256_hex (upload.content file_obj)) Hw1 Hin Hhash).
  pose proof (valid_truthy file_obj Hvalid) as Htruthy.
  destruct (blob_name (run concurrent w) file_obj) as [name|] eqn:Hname.
  - rewrite (create_conflict _ _ _ name) by done.
    split; [|split].
    + intros name' [= <-].
      split; [by apply (blob_name_free _ file_obj)|]. simpl.
      apply lookup_insert_eq.
    + intros r Hr Hh. simpl in Hr.
      by rewrite (hash_once _ Hw1 r winner _ Hr Hin Hh Hhash).
    + by exists winner.
  - rewrite create_refused by done.
    split; [|split].
    + intros name' [=].
    + intros r Hr Hh. simpl in Hr.
      by rewrite (hash_once _ Hw1 r winner _ Hr Hin Hh Hhash).
    + by exists winner.
Qed.

(** What the request is answered in that case: the handler of the
    [IntegrityError] runs its lookup inside the transaction the failed
    insert has marked for rollback, the lookup is refused, and the request
    fails with a server error; the table is as the concurrent requests
    left it. *)
Lemma conflict_surfaces (w : World) (file_obj : UploadedFile) (now : Z)
    (concurrent : list request) (winner : File) (name : string) :
  serializer_errors file_obj = [] →
  (∀ r, r ∈ db w → models.content_hash r ≠ Some (digest_of file_obj)) →
  winner ∈ db (run concurrent w) →
  models.content_hash winner = Some (digest_of file_obj) →
  blob_name (run concurrent w) file_obj = Some name →
  fst (serve (POST (Some file_obj) now) concurrent w)
    = {| status := 500; data := NoContent |}
  ∧ db (snd (serve (POST (Some file_obj) now) concurrent w))
    = db (run concurrent w).
Proof.
  intros Hvalid Hnone Hin Hhash Hname. rewrite digest_of_spec in *.
  unfold serve, handle. rewrite (create_conflict _ _ _ name); try done.
  - by apply valid_truthy.
  - apply existsb_true. exists winner. split; [done|].
    by apply bool_decide_eq_true.
Qed.
End race_claims.

Lemma conflict_keeps_blob_witness :
  @reachable sample.hashlib sample.framework empty_world
  ∧ sample.errors sample.report = []
  ∧ original_of 0%N "uploads/00000000-0000-0000-0000-000000000001.pdf"
      sample.copy "6869" 5
    ∈ db (@run sample.hashlib sample.framework [POST (Some sample.copy) 5] empty_world)
  ∧ @blob_name sample.framework
      (@run sample.hashlib sample.framework [POST (Some sample.copy) 5] empty_world)
      sample.report
    = Some "uploads/00000000-0000-0000-0000-000000000003.txt"
  ∧ media (@run sample.hashlib sample.framework [POST (Some sample.copy) 5]
             empty_world)
      !! "uploads/00000000-0000-0000-0000-000000000003.txt" = None
  ∧ media (snd (sample.serves (POST (Some sample.report) 10)
                  [POST (Some sample.copy) 5] empty_world))
      !! "uploads/00000000-0000-0000-0000-000000000003.txt"
    = Some (upload.content sample.report).
Proof.
  set (winner := original_of 0%N "uploads/00000000-0000-0000-0000-000000000001.pdf"
                   sample.copy "6869" 5).
  assert (Hin : winner ∈ db (@run sample.hashlib sample.framework
                               [POST (Some sample.copy) 5] empty_world))
    by (vm_compute; left).
  assert (Hname : @blob_name sample.framework
                    (@run sample.hashlib sample.framework
                       [POST (Some sample.copy) 5] empty_world) sample.report
                  = Some "uploads/00000000-0000-0000-0000-000000000003.txt")
    by (vm_compute; reflexivity).
  assert (Hnone : ∀ r, r ∈ db empty_world →
            models.content_hash r ≠ Some (@digest_of sample.hashlib sample.report))
    by (intros r Hr; by apply elem_of_nil in Hr).
  assert (Hhash : models.content_hash winner
                  = Some (@digest_of sample.hashlib sample.report))
    by (vm_compute; reflexivity).
  split; [apply reachable_empty|]. split; [reflexivity|]. split; [exact Hin|].
  split; [exact Hname|].
  exact (proj1 (@conflict_keeps_blob sample.hashlib sample.framework empty_world
                  sample.report 10 [POST (Some sample.copy) 5] winner
                  reachable_empty eq_refl Hnone Hin Hhash)
           _ Hname).
Defined.

(** C3 as stated fails when [copy] is uploaded between the lookup and the
    insert of [report]: the insert of [report] is refused, the request is
    answered 500 instead of a duplicate, no duplicate row exists
    afterwards, and the bytes written for [report] are still in the
    storage. *)
Lemma conflict_not_recovered :
  (∀ r, r ∈ db empty_world →
        models.content_hash r ≠ Some (@digest_of sample.hashlib sample.report))
  ∧ (∃ winner,
       winner ∈ db (@run sample.hashlib sample.framework
                      [POST (Some sample.copy) 5] empty_world)
       ∧ models.content_hash winner
         = Some (@digest_of sample.hashlib sample.report))
  ∧ status (fst (sample.serves (POST (Some sample.report) 10)
                   [POST (Some sample.copy) 5] empty_world)) = 500%nat
  ∧ (∀ r, r ∈ db (snd (sample.serves (POST (Some sample.report) 10)
                        [POST (Some sample.copy) 5] empty_world)) →
          models.is_duplicate r = false)
  ∧ media (snd (sample.serves (POST (Some sample.report) 10)
                  [POST (Some sample.copy) 5] empty_world))
      !! "uploads/00000000-0000-0000-0000-000000000003.txt"
    = Some (upload.content sample.report)
  ∧ media (@run sample.hashlib sample.framework
             [POST (Some sample.copy) 5] empty_world)
      !! "uploads/00000000-0000-0000-0000-000000000003.txt"
    = None.
Proof.
  split; [intros r Hr; by apply elem_of_nil in Hr|].
  split.
  { eexists. split; [vm_compute; left|]. vm_compute. reflexivity. }
  split; [vm_compute; reflexivity|].
  split.
  { intros r Hr. vm_compute in Hr.
    apply list_elem_of_singleton in Hr as ->. reflexivity. }
  split; vm_compute; reflexivity.
Qed.

(** * Reference counts *)

Section count_claims.
Context {hashlib : Hashlib} {framework : Framework}.

(** C4.  In every world reached by a history of uploads, deletions and
    listings (with or without requests overtaking an upload), the
    [reference_count] of every original is 1 plus the number of duplicate
    rows in the table that refer to it, and the [reference_count] of every
    duplicate is 1. *)
Theorem reference_count_invariant (w : World) (r : File) :
  reachable w → r ∈ db w →
  (models.is_duplicate r = false →
   models.reference_count r
     = 1 + Z.of_nat (length (live_duplicates (models.id r) (db w))))
  ∧ (models.is_duplicate r = true → models.reference_count r = 1).
Proof.
  intros Hw%reachable_consistent Hr. split; intros Hd.
  - by destruct (original_shape w Hw r Hr Hd) as (_ & _ & ? & _).
  - by destruct (duplicate_shape w Hw r Hr Hd) as (_ & ? & _).
Qed.
End count_claims.

Lemma reference_count_invariant_witness :
  @reachable sample.hashlib sample.framework sample.two_uploads
  ∧ models.with_reference_count sample.first_row 2 ∈ db sample.two_uploads
  ∧ sample.second_row ∈ db sample.two_uploads
  ∧ models.reference_count (models.with_reference_count sample.first_row 2)
    = 1 + Z.of_nat (length (live_duplicates (models.id sample.first_row)
                              (db sample.two_uploads)))
  ∧ models.reference_count sample.second_row = 1.
Proof.
  assert (H1 : models.with_reference_count sample.first_row 2
               ∈ db sample.two_uploads)
    by (rewrite sample_two_uploads_rows; left).
  assert (H2 : sample.second_row ∈ db sample.two_uploads)
    by (rewrite sample_two_uploads_rows; right; left).
  split; [apply sample_reachable_two|]. split; [done|]. split; [done|].
  split.
  - by apply (@reference_count_invariant sample.hashlib sample.framework
                sample.two_uploads _ sample_reachable_two H1).
  - by apply (@reference_count_invariant sample.hashlib sample.framework
                sample.two_uploads _ sample_reachable_two H2).
Defined.

(** * Deletion *)

Section delete_claims.
Context {hashlib : Hashlib} {framework : Framework}.

(** C5.  In every reachable world, a request to delete an original whose
    [reference_count] is greater than 1 is refused (403, permission
    denied) and changes nothing: the table, the storage and the supply of
    keys are as before. *)
Theorem destroy_original_protected (w : World) (q : query_params)
    (instance : File) :
  reachable w → instance ∈ db w → selects q instance →
  models.is_duplicate instance = false →
  1 < models.reference_count instance →
  serve (DELETE (models.id instance) q) [] w
  = ({| status := 403;
        data := Detail
          "Cannot delete original file that has duplicates. Delete duplicates first." |},
     w).
Proof.
  intros Hw%reachable_consistent Hin Hsel Hd Hcount.
  unfold serve, handle. by apply destroy_protected.
Qed.

(** C6.  In every reachable world, a request to delete a duplicate
    succeeds (204).  The duplicate refers to an original of the table;
    afterwards the duplicate's row is gone, the original's
    [reference_count] is exactly 1 less, every other row is unchanged, and
    the storage is as before, so the original's blob is still stored. *)
Theorem destroy_duplicate_record (w : World) (q : query_params)
    (instance : File) :
  reachable w → instance ∈ db w → selects q instance →
  models.is_duplicate instance = true →
  ∃ original,
    original ∈ db w
    ∧ models.is_duplicate original = false
    ∧ models.referenced_file instance = Some (models.id original)
    ∧ fst (serve (DELETE (models.id instance) q) [] w)
      = {| status := HTTP_204_NO_CONTENT; data := NoContent |}
    ∧ db (snd (serve (DELETE (models.id instance) q) [] w))
      = remove (models.id instance) (bump (models.id original) (-1) (db w))
    ∧ row (models.id instance)
          (db (snd (serve (DELETE (models.id instance) q) [] w))) = None
    ∧ row (models.id original)
          (db (snd (serve (DELETE (models.id instance) q) [] w)))
      = Some (models.with_reference_count original
                (models.reference_count original - 1))
    ∧ (∀ r, r ∈ db w → models.id r ≠ models.id instance →
            models.id r ≠ models.id original →
            r ∈ db (snd (serve (DELETE (models.id instance) q) [] w)))
    ∧ media (snd (serve (DELETE (models.id instance) q) [] w)) = media w
    ∧ is_Some (media (snd (serve (DELETE (models.id instance) q) [] w))
                 !! models.file original).
Proof.
  intros Hreach Hin Hsel Hd.
  pose proof (reachable_consistent w Hreach) as Hw.
  destruct (duplicate_shape w Hw instance Hin Hd)
    as (_ & _ & original & Ho & Href & Hod & _).
  pose proof (consistent_after_delete_duplicate w instance Hw Hin Hd) as Hw'.
  assert (Hne : models.id original ≠ models.id instance).
  { intros Heq.
    assert (original = instance) as -> by (by apply (same_key (db w)); [apply Hw|..]).
    congruence. }
  exists original. unfold serve, handle. rewrite destroy_duplicate by done.
  unfold after_delete_duplicate in *. rewrite Href in *. cbn [fst snd db media] in *.
  repeat split; try done.
  - apply row_removed.
  - replace (models.reference_count original - 1)
      with (models.reference_count original + -1) by lia.
    rewrite <- (bump_row_hit (-1) original).
    rewrite <- (bump_row_id (models.id original) (-1) original) at 1.
    apply row_found; [apply Hw'|].
    apply elem_of_remove. rewrite bump_row_id. split; [|done].
    apply elem_of_bump. by exists original.
  - intros r Hr Hn1 Hn2. apply elem_of_remove. split; [|done].
    apply elem_of_bump. exists r. by rewrite bump_row_miss.
  - by destruct (original_shape w Hw original Ho Hod) as (_ & _ & _ & ? & _).
Qed.

(** C7.  In every reachable world, a request to delete an original whose
    [reference_count] is at most 1 succeeds (204): its blob, which was
    stored, is deleted from the storage and its row from the table, so
    that afterwards no row has its key and no blob is stored under its
    name; the other rows are unchanged. *)
Theorem destroy_original_record (w : World) (q : query_params)
    (instance : File) :
  reachable w → instance ∈ db w → selects q instance →
  models.is_duplicate instance = false →
  models.reference_count instance ≤ 1 →
  fst (serve (DELETE (models.id instance) q) [] w)
    = {| status := HTTP_204_NO_CONTENT; data := NoContent |}
  ∧ is_Some (media w !! models.file instance)
  ∧ media (snd (serve (DELETE (models.id instance) q) [] w))
    = delete (models.file instance) (media w)
  ∧ media (snd (serve (DELETE (models.id instance) q) [] w))
      !! models.file instance = None
  ∧ db (snd (serve (DELETE (models.id instance) q) [] w))
    = remove (models.id instance) (db w)
  ∧ row (models.id instance)
        (db (snd (serve (DELETE (models.id instance) q) [] w))) = None.
Proof.
  intros Hw%reachable_consistent Hin Hsel Hd Hcount.
  unfold serve, handle. rewrite destroy_free by done.
  cbn [fst snd after_delete_original db media].
  repeat split; try done.
  - by destruct (original_shape w Hw instance Hin Hd) as (_ & _ & _ & ? & _).
  - apply lookup_delete_eq.
  - apply row_removed.
Qed.
End delete_claims.

Lemma destroy_original_protected_witness :
  @reachable sample.hashlib sample.framework sample.two_uploads
  ∧ models.with_reference_count sample.first_row 2 ∈ db sample.two_uploads
  ∧ 1 < models.reference_count (models.with_reference_count sample.first_row 2)
  ∧ sample.serves (DELETE 0%N ∅) [] sample.two_uploads
    = ({| status := 403;
          data := Detail
            "Cannot delete original file that has duplicates. Delete duplicates first." |},
       sample.two_uploads).
Proof.
  assert (Hin : models.with_reference_count sample.first_row 2
                ∈ db sample.two_uploads)
    by (rewrite sample_two_uploads_rows; left).
  assert (Hcount : 1 < models.reference_count
                         (models.with_reference_count sample.first_row 2))
    by (simpl; lia).
  split; [apply sample_reachable_two|]. split; [done|]. split; [done|].
  apply (@destroy_original_protected sample.hashlib sample.framework
           sample.two_uploads ∅ (models.with_reference_count sample.first_row 2));
    [ apply sample_reachable_two | done
    | apply (@selects_all sample.hashlib sample.framework)
    | reflexivity | done ].
Defined.

Lemma destroy_duplicate_record_witness :
  @reachable sample.hashlib sample.framework sample.two_uploads
  ∧ sample.second_row ∈ db sample.two_uploads
  ∧ models.is_duplicate sample.second_row = true
  ∧ ∃ original,
      original ∈ db sample.two_uploads
      ∧ models.is_duplicate original = false
      ∧ models.referenced_file sample.second_row = Some (models.id original)
      ∧ fst (sample.serves (DELETE 2%N ∅) [] sample.two_uploads)
        = {| status := HTTP_204_NO_CONTENT; data := NoContent |}
      ∧ db (snd (sample.serves (DELETE 2%N ∅) [] sample.two_uploads))
        = remove 2%N (bump (models.id original) (-1) (db sample.two_uploads))
      ∧ row 2%N (db (snd (sample.serves (DELETE 2%N ∅) [] sample.two_uploads)))
        = None
      ∧ row (models.id original)
            (db (snd (sample.serves (DELETE 2%N ∅) [] sample.two_uploads)))
        = Some (models.with_reference_count original
                  (models.reference_count original - 1))
      ∧ (∀ r, r ∈ db sample.two_uploads → models.id r ≠ 2%N →
              models.id r ≠ models.id original →
              r ∈ db (snd (sample.serves (DELETE 2%N ∅) [] sample.two_uploads)))
      ∧ media (snd (sample.serves (DELETE 2%N ∅) [] sample.two_uploads))
        = media sample.two_uploads
      ∧ is_Some (media (snd (sample.serves (DELETE 2%N ∅) [] sample.two_uploads))
                   !! models.file original).
Proof.
  assert (Hin : sample.second_row ∈ db sample.two_uploads)
    by (rewrite sample_two_uploads_rows; right; left).
  split; [apply sample_reachable_two|]. split; [done|]. split; [reflexivity|].
  apply (@destroy_duplicate_record sample.hashlib sample.framework
           sample.two_uploads ∅ sample.second_row);
    [ apply sample_reachable_two | done
    | apply (@selects_all sample.hashlib sample.framework)
    | reflexivity ].
Defined.

Lemma destroy_original_record_witness :
  @reachable sample.hashlib sample.framework sample.one_upload
  ∧ sample.first_row ∈ db sample.one_upload
  ∧ models.reference_count sample.first_row ≤ 1
  ∧ fst (sample.serves (DELETE 0%N ∅) [] sample.one_upload)
    = {| status := HTTP_204_NO_CONTENT; data := NoContent |}
  ∧ is_Some (media sample.one_upload !! models.file sample.first_row)
  ∧ media (snd (sample.serves (DELETE 0%N ∅) [] sample.one_upload))
    = delete (models.file sample.first_row) (media sample.one_upload)
  ∧ media (snd (sample.serves (DELETE 0%N ∅) [] sample.one_upload))
      !! models.file sample.first_row = None
  ∧ db (snd (sample.serves (DELETE 0%N ∅) [] sample.one_upload))
    = remove 0%N (db sample.one_upload)
  ∧ row 0%N (db (snd (sample.serves (DELETE 0%N ∅) [] sample.one_upload)))
    = None.
Proof.
  assert (Hin : sample.first_row ∈ db sample.one_upload)
    by (rewrite sample_one_upload_rows; left).
  assert (Hcount : models.reference_count sample.first_row ≤ 1)
    by (simpl; lia).
  split; [apply sample_reachable_one|]. split; [done|]. split; [done|].
  apply (@destroy_original_record sample.hashlib sample.framework
           sample.one_upload ∅ sample.first_row);
    [ apply sample_reachable_one | done
    | apply (@selects_all sample.hashlib sample.framework)
    | reflexivity | done ].
Defined.

(** * Listing *)

Section listing_claims.
Context {hashlib : Hashlib} {framework : Framework}.

Lemma param_Some q key value :
  FileViewSet.param q key = Some value ↔ q !! key = Some value ∧ value ≠ "".
Proof.
  unfold FileViewSet.param, nonempty.
  destruct (q !! key) as [v|]; [|split; [discriminate | by intros [? _]]].
  destruct (String.eqb_spec v "") as [-> | Hv]; simpl; split.
  - discriminate.
  - by intros [[= <-] Hne].
  - by intros [= <-].
  - by intros [[= <-] _].
Qed.

Lemma param_given q key value :
  q !! key = Some value → value ≠ "" → FileViewSet.param q key = Some value.
Proof. intros. by apply param_Some. Qed.

(** An empty value is as good as none: the filters are the same with the
    parameter removed. *)
Lemma param_empty q key k :
  FileViewSet.param (<[key := ""]> q) k = FileViewSet.param (delete key q) k.
Proof.
  unfold FileViewSet.param. destruct (decide (key = k)) as [-> | Hne].
  - by rewrite lookup_insert_eq, lookup_delete_eq.
  - by rewrite lookup_insert_ne, lookup_delete_ne.
Qed.

Lemma get_queryset_empty_value q key :
  FileViewSet.get_queryset (<[key := ""]> q)
  = FileViewSet.get_queryset (delete key q).
Proof. unfold FileViewSet.get_queryset. by rewrite !param_empty. Qed.

Lemma list_view_rejected q e w :
  FileViewSet.get_queryset q = inl e →
  serve (GET q) [] w = (exception_handler e, w).
Proof.
  intros Hq. unfold serve, handle, respond, FileViewSet.list_view.
  by rewrite Hq.
Qed.

(** Closes a case in which a bound is refused: the failure names it. *)
Ltac reject :=
  match goal with
  | Hdone : ∀ field given reason, _ |- _ =>
      eapply Hdone; [reflexivity | discriminate | eassumption |];
      first [ left; split; [left; reflexivity | eassumption]
            | left; split; [right; reflexivity | eassumption]
            | right; left; split; [reflexivity | eassumption]
            | right; right; split; [reflexivity | eassumption] ]
  end.

(** C9 (amended).  Whenever a listing request carries a size or date bound
    that is not empty and that the view cannot parse, the request fails
    with a validation failure (400) that names a parameter of the request
    that is such a bound, with a reason that is not empty; nothing is
    listed. *)
Theorem get_queryset_rejects_malformed (q : query_params) (key value : string) :
  q !! key = Some value → value ≠ "" → malformed key value →
  ∃ field given reason,
    FileViewSet.get_queryset q = inl (ValidationError [(field, reason)])
    ∧ reason ≠ ""
    ∧ q !! field = Some given ∧ given ≠ "" ∧ malformed field given
    ∧ ∀ w, serve (GET q) [] w
           = ({| status := HTTP_400_BAD_REQUEST;
                 data := Errors [(field, reason)] |}, w).
Proof.
  intros Hkey Hne Hbad.
  assert (Hparam := param_given q key value Hkey Hne).
  assert (Hdone : ∀ field given reason,
            FileViewSet.get_queryset q = inl (ValidationError [(field, reason)]) →
            reason ≠ "" → FileViewSet.param q field = Some given →
            malformed field given →
            ∃ field given reason,
              FileViewSet.get_queryset q = inl (ValidationError [(field, reason)])
              ∧ reason ≠ ""
              ∧ q !! field = Some given ∧ given ≠ "" ∧ malformed field given
              ∧ ∀ w, serve (GET q) [] w
                     = ({| status := HTTP_400_BAD_REQUEST;
                           data := Errors [(field, reason)] |}, w)).
  { intros field given reason Hq Hreason [Hgiven Hgne]%param_Some Hmal.
    exists field, given, reason. repeat split; try done.
    intros w. by rewrite (list_view_rejected q _ w Hq). }
  revert Hdone. unfold FileViewSet.get_queryset, malformed in *. intros Hdone.
  destruct (FileViewSet.param q "size_min") as [v1|] eqn:H1;
    [destruct (int v1) eqn:Hi1; [|by reject]|];
  (destruct (FileViewSet.param q "size_max") as [v2|] eqn:H2;
    [destruct (int v2) eqn:Hi2; [|by reject]|]);
  (destruct (FileViewSet.param q "uploaded_after") as [v3|] eqn:H3;
    [destruct (FileViewSet.date_bound v3 datetime.combine_min) eqn:Hi3;
       [|by reject]|]);
  (destruct (FileViewSet.param q "uploaded_before") as [v4|] eqn:H4;
    [destruct (FileViewSet.date_bound v4 datetime.combine_max) eqn:Hi4;
       [|by reject]|]);
  exfalso;
  destruct Hbad as [[[-> | ->] Hint] | [[-> Hb] | [-> Hb]]]; congruence.
Qed.

(** C10.  Every listing request either fails validation or is answered
    200 with the rows that pass its filters, whichever they are, in
    descending order of [uploaded_at]: no row is uploaded later than a row
    listed before it. *)
Theorem listing_newest_first (w : World) (q : query_params) :
  match FileViewSet.get_queryset q with
  | inl e => serve (GET q) [] w = (exception_handler e, w)
  | inr queryset =>
      ∃ rows,
        serve (GET q) [] w
          = ({| status := HTTP_200_OK; data := SerializedMany rows |}, w)
        ∧ rows ≡ₚ filter (λ r, queryset r) (db w)
        ∧ StronglySorted (λ a b, models.uploaded_at b ≤ models.uploaded_at a) rows
  end.
Proof.
  destruct (FileViewSet.get_queryset q) as [e | queryset] eqn:Hq.
  - by apply list_view_rejected.
  - exists (merge_sort models.ordering (filter (λ r, queryset r) (db w))).
    split; [|split].
    + unfold serve, handle, respond, FileViewSet.list_view. rewrite Hq.
      unfold bind. by rewrite evaluate_connect.
    + apply merge_sort_Permutation.
    + apply (StronglySorted_merge_sort models.ordering).
Qed.
End listing_claims.

Lemma get_queryset_rejects_malformed_witness :
  ({[ "size_min" := "abc" ]} : query_params) !! "size_min" = Some "abc"
  ∧ "abc" ≠ ""
  ∧ @malformed sample.framework "size_min" "abc"
  ∧ ∃ field given reason,
      @FileViewSet.get_queryset sample.framework {[ "size_min" := "abc" ]}
        = inl (ValidationError [(field, reason)])
      ∧ reason ≠ ""
      ∧ ({[ "size_min" := "abc" ]} : query_params) !! field = Some given
      ∧ given ≠ ""
      ∧ @malformed sample.framework field given
      ∧ ∀ w, sample.serves (GET {[ "size_min" := "abc" ]}) [] w
             = ({| status := HTTP_400_BAD_REQUEST;
                   data := Errors [(field, reason)] |}, w).
Proof.
  assert (H1 : ({[ "size_min" := "abc" ]} : query_params) !! "size_min"
               = Some "abc") by reflexivity.
  assert (H2 : "abc" ≠ "") by discriminate.
  assert (H3 : @malformed sample.framework "size_min" "abc")
    by (left; split; [left|]; reflexivity).
  split; [done|]. split; [done|]. split; [done|].
  exact (@get_queryset_rejects_malformed sample.hashlib sample.framework
           {[ "size_min" := "abc" ]} "size_min" "abc" H1 H2 H3).
Defined.

(** The failure for [size_min=abc] names [size_min]. *)
Example size_min_abc_rejected :
  sample.serves (GET {[ "size_min" := "abc" ]}) [] sample.two_uploads
  = ({| status := HTTP_400_BAD_REQUEST;
        data := Errors [("size_min", "Must be a valid integer")] |},
     sample.two_uploads).
Proof.
  apply (@list_view_rejected sample.hashlib sample.framework
           {[ "size_min" := "abc" ]}
           (ValidationError [("size_min", "Must be a valid integer")])).
  reflexivity.
Qed.

(** C9 as stated fails for an empty bound: [size_min=] carries a size
    bound that is no integer, and the request is answered 200 with every
    row, the bound being ignored. *)
Lemma empty_bound_ignored :
  ({[ "size_min" := "" ]} : query_params) !! "size_min" = Some ""
  ∧ @malformed sample.framework "size_min" ""
  ∧ fst (sample.serves (GET {[ "size_min" := "" ]}) [] sample.two_uploads)
    = {| status := HTTP_200_OK;
         data := SerializedMany
                   [sample.second_row;
                    models.with_reference_count sample.first_row 2] |}
  ∧ ¬ ∃ errors,
        fst (sample.serves (GET {[ "size_min" := "" ]}) [] sample.two_uploads)
        = {| status := HTTP_400_BAD_REQUEST; data := Errors errors |}.
Proof.
  split; [reflexivity|]. split; [left; split; [left|]; reflexivity|].
  split; [vm_compute; reflexivity|].
  intros [errors He]. vm_compute in He. discriminate.
Qed.

(** The two uploads are listed newest first. *)
Example two_uploads_listed :
  sample.serves (GET ∅) [] sample.two_uploads
  = ({| status := HTTP_200_OK;
        data := SerializedMany
                  [sample.second_row;
                   models.with_reference_count sample.first_row 2] |},
     sample.two_uploads).
Proof. vm_compute. reflexivity. Qed.

(** A filter on the name, case-insensitive, keeps the order. *)
Example search_listed :
  fst (sample.serves (GET {[ "search" := "REPORT" ]}) [] sample.two_uploads)
  = {| status := HTTP_200_OK;
       data := SerializedMany [models.with_reference_count sample.first_row 2] |}.
Proof. vm_compute. reflexivity. Qed.

(** * Further properties of the hasher and of the upload path *)

Section hasher_edges.
Context {hashlib : Hashlib}.

(** X2.  With a chunk size of 0 the loop of [compute_file_hash] stops at
    its first read: whatever the content, the digest returned is that of
    no bytes at all, and the stream is handed back at its position. *)
Theorem compute_file_hash_zero_chunk (file_obj : UploadedFile) :
  compute_file_hash file_obj 0 = (sha256_hex [], file_obj).
Proof.
  unfold compute_file_hash, sha256_hex. simp hash_loop.
  unfold upload.read, inspect. cbn. simp hash_loop. cbn.
  rewrite sha256_update_nil. by destruct file_obj.
Qed.
End hasher_edges.

Lemma append_nil_r (s : string) : s +:+ "" = s.
Proof.
  induction s as [|a s IH]; [done|].
  unfold String.append; fold String.append. by rewrite IH.
Qed.

Lemma append_snoc (s : string) (c : ascii) (t : string) :
  (s +:+ String c "") +:+ t = s +:+ String c t.
Proof.
  induction s as [|a s IH]; [done|].
  unfold String.append; fold String.append. by rewrite IH.
Qed.

Lemma last_component_dotless ext cur :
  dotless ext = true → last_component ext cur = cur +:+ ext.
Proof.
  revert cur. induction ext as [|c ext IH]; intros cur Hd; simpl in *.
  - by rewrite append_nil_r.
  - apply andb_true_iff in Hd as [Hc Hd]. apply negb_true_iff in Hc.
    by rewrite Hc, IH, append_snoc.
Qed.

Lemma last_component_after_dot stem ext cur :
  dotless ext = true → last_component (stem +:+ "." +:+ ext) cur = ext.
Proof.
  intros Hd. revert cur. induction stem as [|c stem IH]; intros cur.
  - unfold String.append; fold String.append. simpl.
    by rewrite last_component_dotless.
  - unfold String.append; fold String.append. simpl.
    destruct (Ascii.eqb c "."); apply IH.
Qed.

(** X3.  [file_upload_path] keeps what follows the last dot of the
    client's file name as the extension of the stored name, under
    [uploads/] and the UUID drawn: a name [stem.ext] with no dot in [ext]
    is stored as [uploads/<uuid>.ext], however many dots [stem] has; a
    name without any dot is taken whole as the extension. *)
Theorem file_upload_path_extension (drawn : uuid) (stem ext : string) :
  dotless ext = true →
  file_upload_path drawn (stem +:+ "." +:+ ext)
    = "uploads/" +:+ uuid_str drawn +:+ "." +:+ ext
  ∧ file_upload_path drawn ext
    = "uploads/" +:+ uuid_str drawn +:+ "." +:+ ext.
Proof.
  intros Hd. unfold file_upload_path.
  by rewrite last_component_after_dot, last_component_dotless.
Qed.

Lemma file_upload_path_extension_witness :
  dotless "gz" = true
  ∧ file_upload_path 7%N "backup.tar.gz"
    = "uploads/00000000-0000-0000-0000-000000000007.gz"
  ∧ file_upload_path 7%N "gz"
    = "uploads/00000000-0000-0000-0000-000000000007.gz".
Proof.
  split; [reflexivity|].
  exact (file_upload_path_extension 7%N "backup.tar" "gz" eq_refl).
Defined.

(** * Further properties of listing *)

Section filter_properties.
Context {hashlib : Hashlib} {framework : Framework}.

Lemma param_absent (q : query_params) key :
  q !! key = None → FileViewSet.param q key = None.
Proof. intros Hq. unfold FileViewSet.param. by rewrite Hq. Qed.

(** X4.  When the filters of a request are accepted, a row passes them
    exactly when it passes each one given with a non-empty value: its file
    name contains [search] without regard to case, its type is
    [file_type], its size is at least [size_min] and at most [size_max],
    and it was uploaded no earlier than [uploaded_after] and no later than
    [uploaded_before] (all four bounds included).  A parameter that is
    absent or empty constrains nothing. *)
Theorem filters_conjunction (q : query_params) (queryset : QuerySet) (r : File) :
  FileViewSet.get_queryset q = inr queryset →
  queryset r = true ↔
    (∀ search, FileViewSet.param q "search" = Some search →
       icontains (models.original_filename r) search = true)
    ∧ (∀ file_type, FileViewSet.param q "file_type" = Some file_type →
         models.file_type r = file_type)
    ∧ (∀ v n, FileViewSet.param q "size_min" = Some v → int v = Some n →
         n ≤ models.size r)
    ∧ (∀ v n, FileViewSet.param q "size_max" = Some v → int v = Some n →
         models.size r ≤ n)
    ∧ (∀ v dt, FileViewSet.param q "uploaded_after" = Some v →
         FileViewSet.date_bound v datetime.combine_min = Some dt →
         datetime.instant dt ≤ models.uploaded_at r)
    ∧ (∀ v dt, FileViewSet.param q "uploaded_before" = Some v →
         FileViewSet.date_bound v datetime.combine_max = Some dt →
         models.uploaded_at r ≤ datetime.instant dt).
Proof.
  unfold FileViewSet.get_queryset. intros Hq.
  destruct (FileViewSet.param q "search") as [search|];
  destruct (FileViewSet.param q "file_type") as [file_type|];
  (destruct (FileViewSet.param q "size_min") as [v1|];
     [destruct (int v1) as [n1|] eqn:Hi1; [|by simpl in Hq]|]);
  (destruct (FileViewSet.param q "size_max") as [v2|];
     [destruct (int v2) as [n2|] eqn:Hi2; [|by simpl in Hq]|]);
  (destruct (FileViewSet.param q "uploaded_after") as [v3|];
     [destruct (FileViewSet.date_bound v3 datetime.combine_min) as [d3|] eqn:Hi3;
        [|by simpl in Hq]|]);
  (destruct (FileViewSet.param q "uploaded_before") as [v4|];
     [destruct (FileViewSet.date_bound v4 datetime.combine_max) as [d4|] eqn:Hi4;
        [|by simpl in Hq]|]).
  all: simpl in Hq; injection Hq as <-; unfold qs_filter, objects_all;
    rewrite ?andb_true_iff, ?Z.leb_le, ?String.eqb_eq; split.
  all: try (intros Hall; repeat split; intros;
            repeat match goal with
                   | H : Some _ = Some _ |- _ => injection H as <-
                   | H : None = Some _ |- _ => discriminate H
                   | H1 : ?x = Some _, H2 : ?x = Some _ |- _ =>
                       rewrite H1 in H2
                   end; tauto).
  all: intros (H1 & H2 & H3 & H4 & H5 & H6); repeat split;
    first [ by eapply H1 | by eapply H2 | by eapply H3 | by eapply H4
          | by eapply H5 | by eapply H6 ].
Qed.

(** X5.  A bound that only [parse_date] takes (one that
    [parse_datetime] does not match, as Django's does not match a date
    written without leading zeros such as [2024-3-1]) stands for the start
    of that day as [uploaded_after] and for its last microsecond as
    [uploaded_before], both in the current time zone: the request with
    such a value as both bounds is accepted and lets through exactly the
    rows uploaded on that day of the local calendar. *)
Theorem date_only_bounds_cover_day (value : string) (d : datetime.date) :
  value ≠ "" → parse_datetime value = NoMatch → parse_date value = Parsed d →
  ∃ queryset,
    FileViewSet.get_queryset
      {[ "uploaded_after" := value; "uploaded_before" := value ]}
    = inr queryset
    ∧ ∀ r, queryset r = true ↔
           d * datetime.day ≤ models.uploaded_at r + current_timezone
                            < (d + 1) * datetime.day.
Proof.
  intros Hne Hdt Hd. unfold FileViewSet.get_queryset.
  set (q := {[ "uploaded_after" := value; "uploaded_before" := value ]}
            : query_params).
  rewrite (param_absent q "search"), (param_absent q "file_type"),
    (param_absent q "size_min"), (param_absent q "size_max") by done.
  rewrite (param_given q "uploaded_after" value),
    (param_given q "uploaded_before" value); try done.
  unfold FileViewSet.date_bound. rewrite Hdt, Hd. eexists. split; [done|].
  intros r. unfold qs_filter, objects_all, datetime.instant. simpl.
  rewrite andb_true_iff, !Z.leb_le. unfold datetime.day. lia.
Qed.

(** X17.  A bound that [parse_datetime] takes as a time without zone is
    that time in the current time zone, to the microsecond.  So a bare
    date that it reads as midnight (as Django 4.0 and later read
    [2024-03-01]) is the first instant of that day also as
    [uploaded_before]: rows uploaded later that day are not let through,
    and the same value as both bounds lets through the rows uploaded at
    that very instant only. *)
Theorem naive_bound_is_instant (value : string) (wall : Z) :
  value ≠ "" →
  parse_datetime value
  = Parsed {| datetime.wall := wall; datetime.utcoffset := None |} →
  (∃ queryset,
     FileViewSet.get_queryset {[ "uploaded_before" := value ]} = inr queryset
     ∧ ∀ r, queryset r = true ↔ models.uploaded_at r + current_timezone ≤ wall)
  ∧ (∃ queryset,
       FileViewSet.get_queryset
         {[ "uploaded_after" := value; "uploaded_before" := value ]}
       = inr queryset
       ∧ ∀ r, queryset r = true ↔ models.uploaded_at r + current_timezone = wall).
Proof.
  intros Hne Hdt. split; unfold FileViewSet.get_queryset.
  - set (q := {[ "uploaded_before" := value ]} : query_params).
    rewrite (param_absent q "search"), (param_absent q "file_type"),
      (param_absent q "size_min"), (param_absent q "size_max"),
      (param_absent q "uploaded_after") by done.
    rewrite (param_given q "uploaded_before" value); try done.
    unfold FileViewSet.date_bound. rewrite Hdt. eexists. split; [done|].
    intros r. unfold qs_filter, objects_all, datetime.instant. simpl.
    rewrite Z.leb_le. lia.
  - set (q := {[ "uploaded_after" := value; "uploaded_before" := value ]}
              : query_params).
    rewrite (param_absent q "search"), (param_absent q "file_type"),
      (param_absent q "size_min"), (param_absent q "size_max") by done.
    rewrite (param_given q "uploaded_after" value),
      (param_given q "uploaded_before" value); try done.
    unfold FileViewSet.date_bound. rewrite Hdt. eexists. split; [done|].
    intros r. unfold qs_filter, objects_all, datetime.instant. simpl.
    rewrite andb_true_iff, !Z.leb_le. lia.
Qed.
End filter_properties.

Lemma filters_conjunction_witness :
  @FileViewSet.get_queryset sample.framework
    {[ "size_min" := "2"; "file_type" := "text/plain" ]}
  = inr (qs_filter (qs_filter objects_all
                      (λ r, String.eqb (models.file_type r) "text/plain"))
                   (λ r, 2 <=? models.size r))
  ∧ (qs_filter (qs_filter objects_all
                  (λ r, String.eqb (models.file_type r) "text/plain"))
               (λ r, 2 <=? models.size r)) sample.first_row = true.
Proof.
  assert (Hq : @FileViewSet.get_queryset sample.framework
                 {[ "size_min" := "2"; "file_type" := "text/plain" ]}
               = inr (qs_filter (qs_filter objects_all
                        (λ r, String.eqb (models.file_type r) "text/plain"))
                        (λ r, 2 <=? models.size r)))
    by (vm_compute; reflexivity).
  split; [exact Hq|].
  apply (@filters_conjunction sample.framework _ _
           sample.first_row Hq).
  repeat split.
  - intros v [Hv _]%param_Some. vm_compute in Hv. discriminate.
  - intros v [Hv _]%param_Some. vm_compute in Hv. by injection Hv as <-.
  - intros v n [Hv _]%param_Some Hn. vm_compute in Hv. injection Hv as <-.
    vm_compute in Hn. injection Hn as <-. vm_compute. discriminate.
  - intros v n [Hv _]%param_Some. vm_compute in Hv. discriminate.
  - intros v n [Hv _]%param_Some. vm_compute in Hv. discriminate.
  - intros v n [Hv _]%param_Some. vm_compute in Hv. discriminate.
Defined.

Lemma date_only_bounds_cover_day_witness :
  "2024-3-1" ≠ ""
  ∧ sample.datetime_of_string "2024-3-1" = NoMatch
  ∧ sample.date_of_string "2024-3-1" = Parsed 19783
  ∧ ∃ queryset,
      @FileViewSet.get_queryset sample.framework
        {[ "uploaded_after" := "2024-3-1"; "uploaded_before" := "2024-3-1" ]}
      = inr queryset
      ∧ ∀ r, queryset r = true ↔
             19783 * datetime.day ≤ models.uploaded_at r + 0
                                  < (19783 + 1) * datetime.day.
Proof.
  assert (H1 : "2024-3-1" ≠ "") by discriminate.
  assert (H2 : sample.datetime_of_string "2024-3-1" = NoMatch)
    by (vm_compute; reflexivity).
  assert (H3 : sample.date_of_string "2024-3-1" = Parsed 19783)
    by (vm_compute; reflexivity).
  split; [done|]. split; [done|]. split; [done|].
  exact (@date_only_bounds_cover_day sample.framework
           "2024-3-1" 19783 H1 H2 H3).
Defined.

Lemma naive_bound_is_instant_witness :
  "2024-03-01" ≠ ""
  ∧ sample.datetime_of_string "2024-03-01"
    = Parsed {| datetime.wall := 19783 * datetime.day;
                datetime.utcoffset := None |}
  ∧ (∃ queryset,
       @FileViewSet.get_queryset sample.framework
         {[ "uploaded_before" := "2024-03-01" ]} = inr queryset
       ∧ ∀ r, queryset r = true ↔
              models.uploaded_at r + 0 ≤ 19783 * datetime.day)
  ∧ (∃ queryset,
       @FileViewSet.get_queryset sample.framework
         {[ "uploaded_after" := "2024-03-01"; "uploaded_before" := "2024-03-01" ]}
       = inr queryset
       ∧ ∀ r, queryset r = true ↔
              models.uploaded_at r + 0 = 19783 * datetime.day).
Proof.
  assert (H1 : "2024-03-01" ≠ "") by discriminate.
  assert (H2 : sample.datetime_of_string "2024-03-01"
               = Parsed {| datetime.wall := 19783 * datetime.day;
                           datetime.utcoffset := None |})
    by (vm_compute; reflexivity).
  split; [done|]. split; [done|].
  exact (@naive_bound_is_instant sample.framework
           "2024-03-01" (19783 * datetime.day) H1 H2).
Defined.
(** * Further properties of the views *)

Lemma bump_row_bump_row pk delta delta' r :
  bump_row pk delta' (bump_row pk delta r) = bump_row pk (delta + delta') r.
Proof.
  unfold bump_row. destruct (pk_is pk r) eqn:Hpk.
  - assert (pk_is pk (models.with_reference_count r (models.reference_count r + delta))
            = true) as -> by (by rewrite pk_is_true in *).
    unfold models.with_reference_count. simpl. f_equal. lia.
  - by rewrite Hpk.
Qed.

Lemma bump_bump pk delta delta' rows :
  bump pk delta' (bump pk delta rows) = bump pk (delta + delta') rows.
Proof.
  unfold bump. rewrite map_map. apply map_ext. intros r.
  apply bump_row_bump_row.
Qed.

Lemma bump_row_zero pk r : bump_row pk 0 r = r.
Proof.
  unfold bump_row. destruct (pk_is pk r); [|done].
  destruct r. unfold models.with_reference_count. simpl. f_equal. lia.
Qed.

Lemma bump_zero pk rows : bump pk 0 rows = rows.
Proof.
  unfold bump. rewrite <- (map_id rows) at 2. apply map_ext. intros r.
  apply bump_row_zero.
Qed.

Lemma remove_app pk rows1 rows2 :
  remove pk (rows1 ++ rows2) = remove pk rows1 ++ remove pk rows2.
Proof. apply filter_app. Qed.

Lemma remove_last rows (r : File) :
  models.id r ∉ models.id <$> rows → remove (models.id r) (rows ++ [r]) = rows.
Proof.
  intros Hnotin. rewrite remove_app, remove_absent by done.
  unfold remove. rewrite filter_cons_False, filter_nil by (intros Hne; by apply Hne).
  apply app_nil_r.
Qed.

Lemma supply_unused w : consistent w → uuid_supply w ∉ models.id <$> db w.
Proof.
  intros Hw (r & Hid & Hr)%list_elem_of_fmap.
  pose proof (keys_drawn w Hw r Hr). lia.
Qed.

Lemma duplicates_of_ext pk (existing existing' : File) copies :
  models.id existing = models.id existing' →
  models.file existing = models.file existing' →
  duplicates_of pk existing copies = duplicates_of pk existing' copies.
Proof.
  intros Hid Hfile. revert pk. induction copies as [|c copies IH]; intros pk; [done|].
  simpl. rewrite IH. unfold duplicate_of. by rewrite Hid, Hfile.
Qed.

Lemma duplicates_of_keys pk existing copies r :
  r ∈ duplicates_of pk existing copies → (pk ≤ models.id r)%N.
Proof.
  revert pk. induction copies as [|c copies IH]; intros pk Hr.
  - by apply elem_of_nil in Hr.
  - simpl in Hr. apply elem_of_cons in Hr as [-> | Hr]; [simpl; lia|].
    apply IH in Hr. lia.
Qed.

Section view_properties.
Context {hashlib : Hashlib} {framework : Framework}.

(** The only exception [get_queryset] raises is a validation error that
    names one field. *)
Lemma get_queryset_error q e :
  FileViewSet.get_queryset q = inl e →
  ∃ field reason, e = ValidationError [(field, reason)].
Proof.
  unfold FileViewSet.get_queryset. intros Hq.
  destruct (FileViewSet.param q "search");
  destruct (FileViewSet.param q "file_type");
  (destruct (FileViewSet.param q "size_min") as [v1|];
     [destruct (int v1)|]);
  (destruct (FileViewSet.param q "size_max") as [v2|];
     [destruct (int v2)|]);
  (destruct (FileViewSet.param q "uploaded_after") as [v3|];
     [destruct (FileViewSet.date_bound v3 datetime.combine_min)|]);
  (destruct (FileViewSet.param q "uploaded_before") as [v4|];
     [destruct (FileViewSet.date_bound v4 datetime.combine_max)|]);
  simpl in Hq;
  first [discriminate Hq | injection Hq as <-; by eexists _, _].
Qed.

(** X6.  [destroy] looks its row up through the filters of the request:
    when no row of the table has the key asked for, or the one that has
    it does not pass the filters, the request is answered 404 and nothing
    is deleted. *)
Theorem destroy_not_found (q : query_params) (queryset : QuerySet) (pk : uuid)
    (concurrent : list request) (w : World) :
  FileViewSet.get_queryset q = inr queryset →
  (∀ r, r ∈ db w → models.id r = pk → queryset r = false) →
  serve (DELETE pk q) concurrent w
  = ({| status := 404; data := Detail "Not found." |}, w).
Proof.
  intros Hq Hnone. unfold serve, handle, respond, FileViewSet.destroy.
  unfold bind at 1, FileViewSet.get_object. rewrite Hq.
  unfold bind at 1. rewrite evaluate_connect.
  rewrite filter_none.
  - simpl. by destruct w.
  - intros r Hr HP. apply Is_true_true in HP. unfold qs_filter in HP.
    apply andb_true_iff in HP as [Hsel Hpk%pk_is_true].
    rewrite (Hnone r Hr Hpk) in Hsel. discriminate.
Qed.

(** X7.  The filters of a deletion are validated as those of a listing:
    when they are refused, the deletion is answered 400 with the same
    body as the listing and nothing is deleted, whether the key exists or
    not. *)
Theorem destroy_rejects_malformed (q : query_params) (e : exn) (pk : uuid)
    (concurrent : list request) (w : World) :
  FileViewSet.get_queryset q = inl e →
  serve (DELETE pk q) concurrent w = serve (GET q) concurrent w
  ∧ snd (serve (DELETE pk q) concurrent w) = w
  ∧ ∃ field reason,
      fst (serve (DELETE pk q) concurrent w)
      = {| status := HTTP_400_BAD_REQUEST; data := Errors [(field, reason)] |}.
Proof.
  intros Hq. destruct (get_queryset_error q e Hq) as (field & reason & ->).
  unfold serve, handle, respond, FileViewSet.destroy, FileViewSet.list_view.
  unfold bind at 1, FileViewSet.get_object. rewrite Hq. simpl.
  split; [done|]. split; [by destruct w|]. by exists field, reason.
Qed.

(** X8.  Uploading new content and then deleting the row returned undoes
    the upload: when the serializer accepts the upload and the storage
    takes its blob, the first request is answered 201 with an original,
    the second 204, and the table and the storage are as they were before
    the two (the blob written is removed again). *)
Theorem upload_then_delete (w : World) (file_obj : UploadedFile) (now : Z)
    (name : string) :
  reachable w →
  serializer_errors file_obj = [] →
  blob_name w file_obj = Some name →
  (∀ r, r ∈ db w → models.content_hash r ≠ Some (digest_of file_obj)) →
  ∃ r w1 w2,
    serve (POST (Some file_obj) now) [] w
    = ({| status := HTTP_201_CREATED; data := Serialized r |}, w1)
    ∧ models.is_duplicate r = false
    ∧ models.file r = name
    ∧ serve (DELETE (models.id r) ∅) [] w1
      = ({| status := HTTP_204_NO_CONTENT; data := NoContent |}, w2)
    ∧ db w2 = db w
    ∧ media w2 = media w.
Proof.
  intros Hw%reachable_consistent Hvalid Hname Hnone.
  rewrite digest_of_spec in *.
  pose proof (blob_name_free _ _ _ Hname) as Hfree.
  pose proof (blob_name_nonempty _ _ _ Hname) as Hne.
  set (r := original_of (uuid_supply w) name (validated_data file_obj)
              (sha256_hex (upload.content file_obj)) now).
  pose proof (consistent_after_original w name file_obj now Hw Hfree Hne Hnone)
    as Hw1.
  exists r, (after_original w name file_obj now),
    (after_delete_original (after_original w name file_obj now) r).
  split; [|split; [done|split; [done|split; [|split]]]].
  - unfold serve, handle.
    by rewrite (create_fresh (run []) w file_obj name)
      by (done || by apply valid_truthy).
  - unfold serve, handle. apply destroy_free; try done.
    + simpl. apply elem_of_app. right. left.
    + apply selects_all.
  - simpl. apply (remove_last (db w) r), supply_unused, Hw.
  - simpl. by apply delete_insert_id.
Qed.

(** X9.  Uploading content an original already holds and then deleting
    the duplicate returned undoes the upload: 201 with a duplicate, then
    204, and the table (the original's [reference_count] included) and
    the storage are as they were before the two. *)
Theorem duplicate_then_delete (w : World) (file_obj : UploadedFile) (now : Z)
    (existing : File) :
  reachable w →
  upload.truthy file_obj = true →
  existing ∈ db w →
  models.content_hash existing = Some (digest_of file_obj) →
  ∃ d w1 w2,
    serve (POST (Some file_obj) now) [] w
    = ({| status := HTTP_201_CREATED; data := Serialized d |}, w1)
    ∧ models.is_duplicate d = true
    ∧ serve (DELETE (models.id d) ∅) [] w1
      = ({| status := HTTP_204_NO_CONTENT; data := NoContent |}, w2)
    ∧ db w2 = db w
    ∧ media w2 = media w.
Proof.
  intros Hw%reachable_consistent Htruthy Hin Hhash. rewrite digest_of_spec in *.
  pose proof (hash_holder_original w existing _ Hw Hin Hhash) as Horig.
  set (d := duplicate_of (uuid_supply w) file_obj existing now).
  pose proof (consistent_after_duplicate w file_obj existing now Hw Hin Horig)
    as Hw1.
  exists d, (after_duplicate w file_obj existing now),
    (after_delete_duplicate (after_duplicate w file_obj existing now) d).
  assert (Hne : models.id d ≠ models.id existing).
  { simpl. pose proof (keys_drawn w Hw existing Hin). lia. }
  split; [|split; [done|split; [|split]]].
  - unfold serve, handle. by apply create_found.
  - unfold serve, handle. apply destroy_duplicate; try done.
    + simpl. apply elem_of_app. right. left.
    + apply selects_all.
  - cbn [after_delete_duplicate after_duplicate db d duplicate_of
         models.referenced_file models.id].
    rewrite bump_app, bump_bump, bump_zero.
    change [duplicate_of (uuid_supply w) file_obj existing now] with [d].
    cbn [bump map]. rewrite bump_row_miss by done.
    change (uuid_supply w) with (models.id d).
    apply remove_last. simpl. by apply supply_unused.
  - done.
Qed.

Lemma run_cons r rs w : run (r :: rs) w = run rs (snd (handle id r w)).
Proof. reflexivity. Qed.

(** Uploads of content that [existing] holds, served one after the other:
    each adds a duplicate of it and 1 to its [reference_count]. *)
Lemma run_copies (copies : list (UploadedFile * Z)) (w : World) (existing : File) :
  consistent w → existing ∈ db w →
  Forall (λ copy, upload.truthy copy.1 = true
                  ∧ models.content_hash existing
                    = Some (sha256_hex (upload.content copy.1))) copies →
  run (uploads copies) w
  = {| db := bump (models.id existing) (Z.of_nat (length copies)) (db w)
             ++ duplicates_of (uuid_supply w) existing copies;
       media := media w;
       uuid_supply := (uuid_supply w + N.of_nat (length copies))%N |}.
Proof.
  revert w existing. induction copies as [|[file_obj now] copies IH];
    intros w existing Hw Hin Hall.
  - simpl. rewrite bump_zero, app_nil_r, N.add_0_r. by destruct w.
  - apply Forall_cons in Hall as [[Htruthy Hhash] Hall]. simpl in Htruthy, Hhash.
    pose proof (hash_holder_original w existing _ Hw Hin Hhash) as Horig.
    change (uploads ((file_obj, now) :: copies))
      with (POST (Some file_obj) now :: uploads copies).
    rewrite run_cons. unfold handle.
    rewrite (create_found id w file_obj now existing) by done.
    cbn [snd].
    rewrite (IH _ (bump_row (models.id existing) 1 existing)).
    + rewrite bump_row_id. cbn [after_duplicate db media uuid_supply].
      rewrite bump_app, bump_bump. cbn [bump map length].
      rewrite bump_row_miss.
      2: { simpl. pose proof (keys_drawn w Hw existing Hin). lia. }
      rewrite <- app_assoc. cbn [app duplicates_of fst snd].
      rewrite (duplicates_of_ext _ (bump_row (models.id existing) 1 existing)
                 existing) by (by rewrite ?bump_row_id, ?bump_row_file).
      f_equal; [|lia]. do 2 f_equal. lia.
    + by apply consistent_after_duplicate.
    + simpl. apply elem_of_app. left. unfold bump.
      apply list_elem_of_fmap. by exists existing.
    + rewrite bump_row_content_hash. done.
Qed.

(** The rows [duplicates_of] builds, one for each copy. *)
Lemma duplicates_of_rows pk existing copies :
  Forall2 (λ d copy,
             models.is_duplicate d = true
             ∧ models.referenced_file d = Some (models.id existing)
             ∧ models.file d = models.file existing
             ∧ models.content_hash d = None
             ∧ models.reference_count d = 1
             ∧ models.original_filename d = upload.name copy.1
             ∧ models.file_type d = upload.content_type copy.1
             ∧ models.size d = upload.size copy.1
             ∧ models.uploaded_at d = copy.2)
    (duplicates_of pk existing copies) copies.
Proof.
  revert pk. induction copies as [|copy copies IH]; intros pk; simpl.
  - constructor.
  - constructor; [by repeat split | apply IH].
Qed.

(** X10.  New content uploaded once and then again any number of times,
    under any names and at any read positions, is stored once.  When the
    serializer accepts the first upload and the storage takes its blob
    under [name], the uploads served one after the other add to the table
    one original, whose [reference_count] ends as 1 plus the number of
    copies and whose text fields are those the serializer returned,
    followed by one duplicate for each copy, in order, that refers to the
    original, shares its blob name and keeps the copy's own name, type
    and size; the storage gains the one blob [name]. *)
Theorem repeated_uploads_stored_once (w : World) (file_obj : UploadedFile)
    (now : Z) (copies : list (UploadedFile * Z)) (name : string) :
  reachable w →
  serializer_errors file_obj = [] →
  blob_name w file_obj = Some name →
  (∀ r, r ∈ db w → models.content_hash r ≠ Some (digest_of file_obj)) →
  Forall (λ copy, upload.name copy.1 ≠ ""
                  ∧ upload.content copy.1 = upload.content file_obj) copies →
  ∃ original duplicates,
    db (run (uploads ((file_obj, now) :: copies)) w)
    = db w ++ [original] ++ duplicates
    ∧ media (run (uploads ((file_obj, now) :: copies)) w)
      = <[name := upload.content file_obj]> (media w)
    ∧ models.is_duplicate original = false
    ∧ models.content_hash original = Some (digest_of file_obj)
    ∧ models.file original = name
    ∧ models.original_filename original
      = to_internal_value (upload.name file_obj)
    ∧ models.file_type original
      = to_internal_value (upload.content_type file_obj)
    ∧ models.reference_count original = 1 + Z.of_nat (length copies)
    ∧ Forall2 (λ d copy,
                 models.is_duplicate d = true
                 ∧ models.referenced_file d = Some (models.id original)
                 ∧ models.file d = name
                 ∧ models.content_hash d = None
                 ∧ models.reference_count d = 1
                 ∧ models.original_filename d = upload.name copy.1
                 ∧ models.file_type d = upload.content_type copy.1
                 ∧ models.size d = upload.size copy.1
                 ∧ models.uploaded_at d = copy.2)
        duplicates copies.
Proof.
  intros Hw%reachable_consistent Hvalid Hname Hnone Hcopies.
  rewrite digest_of_spec in *.
  pose proof (blob_name_free _ _ _ Hname) as Hfree.
  pose proof (blob_name_nonempty _ _ _ Hname) as Hne.
  set (original := original_of (uuid_supply w) name (validated_data file_obj)
                     (sha256_hex (upload.content file_obj)) now).
  pose proof (consistent_after_original w name file_obj now Hw Hfree Hne Hnone)
    as Hw1.
  exists (models.with_reference_count original (1 + Z.of_nat (length copies))),
    (duplicates_of (N.succ (N.succ (uuid_supply w))) original copies).
  assert (Hrun : run (uploads ((file_obj, now) :: copies)) w
                 = {| db := db w
                            ++ [models.with_reference_count original
                                  (1 + Z.of_nat (length copies))]
                            ++ duplicates_of (N.succ (N.succ (uuid_supply w)))
                                 original copies;
                      media := <[name := upload.content file_obj]> (media w);
                      uuid_supply :=
                        (uuid_supply w + 2 + N.of_nat (length copies))%N |}).
  { change (uploads ((file_obj, now) :: copies))
      with (POST (Some file_obj) now :: uploads copies).
    rewrite run_cons. unfold handle.
    rewrite (create_fresh id w file_obj name)
      by (done || by apply valid_truthy).
    cbn [snd id].
    rewrite (run_copies copies _ original).
    - cbn [after_original db media uuid_supply]. fold original.
      rewrite bump_app, bump_other.
      2: { intros r Hr. pose proof (keys_drawn w Hw r Hr). simpl. lia. }
      cbn [bump map].
      change (models.id original) with (uuid_supply w).
      replace (bump_row (uuid_supply w) (Z.of_nat (length copies)) original)
        with (models.with_reference_count original
                (1 + Z.of_nat (length copies)))
        by (symmetry; apply (bump_row_hit _ original)).
      rewrite <- app_assoc. f_equal. lia.
    - done.
    - simpl. apply elem_of_app. right. left.
    - eapply Forall_impl; [exact Hcopies|]. intros [copy now'] [Hcn Hcontent].
      simpl in *. split.
      + unfold upload.truthy. by apply negb_true_iff, String.eqb_neq.
      + by rewrite Hcontent. }
  rewrite Hrun. cbn [db media].
  split; [done|]. split; [done|]. split; [done|]. split; [done|].
  split; [done|]. split; [done|]. split; [done|]. split; [done|].
  apply (duplicates_of_rows _ original copies).
Qed.
End view_properties.
(** * Invariants of the reachable worlds *)

Lemma bump_row_size pk delta r : models.size (bump_row pk delta r) = models.size r.
Proof. unfold bump_row. by destruct (pk_is pk r). Qed.

Lemma length_remove rows (r : File) :
  NoDup (models.id <$> rows) → r ∈ rows →
  S (length (remove (models.id r) rows)) = length rows.
Proof.
  intros Hnd Hr. induction rows as [|a rows IH]; [by apply elem_of_nil in Hr|].
  rewrite fmap_cons in Hnd. apply NoDup_cons in Hnd as [Hnotin Hnd].
  unfold remove. rewrite filter_cons. apply elem_of_cons in Hr as [<- | Hr].
  - rewrite decide_False by (intros Hne; by apply Hne).
    fold (remove (models.id r) rows). by rewrite remove_absent.
  - rewrite decide_True.
    + simpl. f_equal. by apply IH.
    + intros Heq. apply Hnotin. rewrite Heq. by apply list_elem_of_fmap_2.
Qed.

Section invariants.
Context {hashlib : Hashlib} {framework : Framework}.

(** A property of worlds that each way [create] and [destroy] change a
    consistent world preserves. *)
Variable P : World → Prop.

Hypothesis P_after_duplicate : ∀ w file_obj existing now,
  consistent w → P w → existing ∈ db w →
  models.is_duplicate existing = false →
  models.content_hash existing = Some (sha256_hex (upload.content file_obj)) →
  P (after_duplicate w file_obj existing now).

Hypothesis P_after_original : ∀ w name file_obj now,
  consistent w → P w → serializer_errors file_obj = [] →
  blob_name w file_obj = Some name →
  (∀ r, r ∈ db w →
        models.content_hash r ≠ Some (sha256_hex (upload.content file_obj))) →
  P (after_original w name file_obj now).

Hypothesis P_after_conflict : ∀ w name file_obj,
  consistent w → P w → blob_name w file_obj = Some name →
  P (after_conflict w name file_obj).

Hypothesis P_after_refused : ∀ w, consistent w → P w → P (after_refused w).

Hypothesis P_after_delete_duplicate : ∀ w instance,
  consistent w → P w → instance ∈ db w →
  models.is_duplicate instance = true →
  P (after_delete_duplicate w instance).

Hypothesis P_after_delete_original : ∀ w instance,
  consistent w → P w → instance ∈ db w →
  models.is_duplicate instance = false →
  models.reference_count instance ≤ 1 →
  P (after_delete_original w instance).

Lemma create_invariant others file now w :
  (∀ w, consistent w → P w → P (others w)) →
  (∀ w, consistent w → consistent (others w)) →
  consistent w → P w →
  P (snd (respond (FileViewSet.create others file now) w)).
Proof.
  intros Hothers Hothers' Hw HP.
  destruct file as [file_obj|]; [|by rewrite create_no_file].
  destruct (upload.truthy file_obj) eqn:Htruthy;
    [|by rewrite create_falsy_file].
  set (digest := sha256_hex (upload.content file_obj)).
  destruct (existsb (content_hash_is digest) (db w)) eqn:Hheld.
  - apply existsb_true in Hheld as (existing & Hin & Hhash).
    apply bool_decide_eq_true in Hhash.
    rewrite (create_found _ _ _ _ existing) by done.
    apply P_after_duplicate; try done.
    by apply (hash_holder_original w existing digest).
  - assert (Hnone : ∀ r, r ∈ db w → models.content_hash r ≠ Some digest).
    { intros r Hr. rewrite existsb_false in Hheld.
      specialize (Hheld r Hr). by apply bool_decide_eq_false in Hheld. }
    destruct (decide (serializer_errors file_obj = [])) as [Hvalid | Hbad].
    + destruct (blob_name (others w) file_obj) as [name|] eqn:Hname.
      2: { rewrite create_refused by done. apply P_after_refused; auto. }
      destruct (existsb (content_hash_is digest) (db (others w))) eqn:Hheld'.
      * rewrite (create_conflict _ _ _ name) by done.
        apply P_after_conflict; auto.
      * assert (Hnone' : ∀ r, r ∈ db (others w) →
                              models.content_hash r ≠ Some digest).
        { intros r Hr. rewrite existsb_false in Hheld'.
          specialize (Hheld' r Hr). by apply bool_decide_eq_false in Hheld'. }
        rewrite (create_fresh _ _ _ name) by auto.
        apply P_after_original; auto.
    + rewrite create_invalid by done. by apply Hothers.
Qed.

Lemma destroy_invariant q pk w :
  consistent w → P w → P (snd (respond (FileViewSet.destroy q pk) w)).
Proof.
  intros Hw HP. destruct (get_object_sound q pk w) as (o & Hget & Hsound).
  destruct o as [instance | e].
  - destruct (Hsound instance eq_refl) as (Hin & <- & Hsel).
    destruct (models.is_duplicate instance) eqn:Hd.
    + rewrite destroy_duplicate by done. by apply P_after_delete_duplicate.
    + destruct (Z.le_gt_cases (models.reference_count instance) 1).
      * rewrite destroy_free by done. by apply P_after_delete_original.
      * by rewrite destroy_protected.
  - unfold respond, FileViewSet.destroy, bind. by rewrite Hget.
Qed.

Lemma handle_invariant others r w :
  (∀ w, consistent w → P w → P (others w)) →
  (∀ w, consistent w → consistent (others w)) →
  consistent w → P w → P (snd (handle others r w)).
Proof.
  intros Hothers Hothers' Hw HP. destruct r as [file now | pk q | q]; unfold handle.
  - by apply create_invariant.
  - by apply destroy_invariant.
  - by rewrite list_view_world.
Qed.

Lemma run_invariant rs w : consistent w → P w → P (run rs w).
Proof.
  unfold run. revert w. induction rs as [|r rs IH]; intros w Hw HP; [done|].
  simpl. apply IH.
  - by apply handle_consistent.
  - by apply handle_invariant.
Qed.

Lemma reachable_invariant w : P empty_world → reachable w → P w.
Proof.
  intros Hempty [history ->].
  enough (consistent (foldl (λ w rc, (serve rc.1 rc.2 w).2) empty_world history)
          ∧ P (foldl (λ w rc, (serve rc.1 rc.2 w).2) empty_world history))
    as [_ ?] by done.
  generalize consistent_empty Hempty. generalize empty_world.
  induction history as [|[r c] history IH]; intros w Hw HP; [done|].
  simpl. apply IH.
  - by apply serve_consistent.
  - apply handle_invariant; try done.
    + intros w'. apply run_invariant.
    + intros w'. apply run_consistent.
Qed.
End invariants.

Section content_addressing.
Context {hashlib : Hashlib} {framework : Framework}.

(** The blob of every original of a reachable world is the content its
    row describes. *)
Lemma reachable_blobs_match w : reachable w → blobs_match w.
Proof.
  apply (reachable_invariant blobs_match).
  - intros w0 file_obj existing now Hw HP Hin Horig Hhash r Hr Hd.
    simpl in Hr. apply elem_of_app in Hr as [Hr | Hr].
    + unfold bump in Hr. apply list_elem_of_fmap in Hr as (r0 & -> & Hr0).
      rewrite bump_row_is_duplicate in Hd.
      rewrite bump_row_file, bump_row_content_hash, bump_row_size.
      by apply HP.
    + apply list_elem_of_singleton in Hr as ->. discriminate.
  - intros w0 name file_obj now Hw HP Hvalid Hname Hnone r Hr Hd.
    pose proof (blob_name_free _ _ _ Hname) as Hfree.
    simpl in Hr. apply elem_of_app in Hr as [Hr | Hr].
    + destruct (HP r Hr Hd) as (bytes & Hb & Hh & Hs).
      exists bytes. split; [|done]. simpl. rewrite lookup_insert_ne; [done|].
      intros Heq. congruence.
    + apply list_elem_of_singleton in Hr as ->.
      exists (upload.content file_obj). simpl.
      by rewrite lookup_insert_eq.
  - intros w0 name file_obj Hw HP Hname r Hr Hd. simpl in Hr.
    pose proof (blob_name_free _ _ _ Hname) as Hfree.
    destruct (HP r Hr Hd) as (bytes & Hb & Hh & Hs).
    exists bytes. split; [|done]. simpl. rewrite lookup_insert_ne; [done|].
    intros Heq. congruence.
  - intros w0 Hw HP r Hr Hd. by apply HP.
  - intros w0 instance Hw HP Hin Hdup r Hr Hd. simpl in Hr.
    apply elem_of_remove in Hr as [Hr _].
    assert (∃ r0, r0 ∈ db w0 ∧ models.is_duplicate r0 = models.is_duplicate r
                  ∧ models.file r0 = models.file r
                  ∧ models.content_hash r0 = models.content_hash r
                  ∧ models.size r0 = models.size r) as (r0 & Hr0 & H1 & H2 & H3 & H4).
    { destruct (models.referenced_file instance) as [pk|].
      - unfold bump in Hr. apply list_elem_of_fmap in Hr as (r0 & -> & Hr0).
        exists r0. by rewrite bump_row_is_duplicate, bump_row_file,
                     bump_row_content_hash, bump_row_size.
      - by exists r. }
    rewrite <- H1 in Hd. destruct (HP r0 Hr0 Hd) as (bytes & Hb & Hh & Hs).
    exists bytes. simpl. by rewrite <- H2, <- H3, <- H4.
  - intros w0 instance Hw HP Hin Horig Hcount r Hr Hd. simpl in Hr.
    apply elem_of_remove in Hr as [Hr Hne].
    destruct (HP r Hr Hd) as (bytes & Hb & Hh & Hs).
    exists bytes. split; [|done]. simpl. rewrite lookup_delete_ne; [done|].
    intros Heq. apply Hne. f_equal. symmetry.
    by apply (blob_owner w0 Hw instance r).
  - intros r Hr. by apply elem_of_nil in Hr.
Qed.

(** X11.  Content addressing is faithful in every reachable world: the
    blob name of every row is in use in the storage; for an original the
    bytes stored there have its [content_hash] as digest and its [size] as
    length; a duplicate has the blob name of the original it refers to,
    so the bytes it resolves to have that original's [content_hash]. *)
Theorem stored_content_matches_hash (w : World) (r : File) :
  reachable w → r ∈ db w →
  ∃ original bytes,
    original ∈ db w
    ∧ models.is_duplicate original = false
    ∧ (if models.is_duplicate r
       then models.referenced_file r = Some (models.id original)
       else original = r)
    ∧ media w !! models.file r = Some bytes
    ∧ models.content_hash original = Some (sha256_hex bytes)
    ∧ models.size original = Z.of_nat (length bytes).
Proof.
  intros Hreach Hr. pose proof (reachable_consistent w Hreach) as Hw.
  pose proof (reachable_blobs_match w Hreach) as Hblobs.
  destruct (models.is_duplicate r) eqn:Hd.
  - destruct (duplicate_shape w Hw r Hr Hd) as (_ & _ & c & Hc & Href & Hco & Hfile).
    destruct (Hblobs c Hc Hco) as (bytes & Hb & Hh & Hs).
    exists c, bytes. by rewrite Hfile.
  - destruct (Hblobs r Hr Hd) as (bytes & Hb & Hh & Hs).
    by exists r, bytes.
Qed.

(** X12.  No content is kept twice: in every reachable world two
    originals whose blobs hold the same bytes are the same row. *)
Theorem content_stored_once (w : World) (r1 r2 : File) (bytes : list byte) :
  reachable w → r1 ∈ db w → r2 ∈ db w →
  models.is_duplicate r1 = false → models.is_duplicate r2 = false →
  media w !! models.file r1 = Some bytes →
  media w !! models.file r2 = Some bytes →
  r1 = r2.
Proof.
  intros Hreach Hr1 Hr2 Hd1 Hd2 Hb1 Hb2.
  pose proof (reachable_consistent w Hreach) as Hw.
  pose proof (reachable_blobs_match w Hreach) as Hblobs.
  destruct (Hblobs r1 Hr1 Hd1) as (b1 & Hb1' & Hh1 & _).
  destruct (Hblobs r2 Hr2 Hd2) as (b2 & Hb2' & Hh2 & _).
  assert (b1 = bytes) as -> by congruence.
  assert (b2 = bytes) as -> by congruence.
  by apply (hash_once w Hw r1 r2 (sha256_hex bytes)).
Qed.

(** X13.  The self reference is sound in every reachable world: a row
    that references a key is a duplicate, the key is that of exactly one
    row, which is an original (never a duplicate of something else) with
    the same blob name and a [reference_count] above 1, so that [destroy]
    refuses to delete it and [on_delete=PROTECT] never has to. *)
Theorem referenced_file_sound (w : World) (r : File) (pk : uuid) :
  reachable w → r ∈ db w → models.referenced_file r = Some pk →
  models.is_duplicate r = true
  ∧ ∃ original,
      row pk (db w) = Some original
      ∧ models.is_duplicate original = false
      ∧ models.referenced_file original = None
      ∧ models.file original = models.file r
      ∧ 1 < models.reference_count original
      ∧ ∀ other, other ∈ db w → models.id other = pk → other = original.
Proof.
  intros Hw%reachable_consistent Hr Href.
  destruct (models.is_duplicate r) eqn:Hd.
  2: { destruct (original_shape w Hw r Hr Hd) as (Hnone & _). congruence. }
  split; [done|].
  destruct (duplicate_shape w Hw r Hr Hd) as (_ & _ & c & Hc & Href' & Hco & Hfile).
  assert (pk = models.id c) as -> by congruence.
  destruct (original_shape w Hw c Hc Hco) as (Hnone & _ & Hcount & _).
  exists c. split; [apply row_found; [apply Hw | done]|].
  split; [done|]. split; [done|]. split; [done|]. split.
  - rewrite Hcount.
    assert (r ∈ live_duplicates (models.id c) (db w)) as Hlive
      by (unfold live_duplicates; apply list_elem_of_filter; done).
    destruct (live_duplicates (models.id c) (db w));
      [by apply elem_of_nil in Hlive|].
    simpl. lia.
  - intros other Hother Hid. apply (same_key (db w)); [apply Hw | done..].
Qed.

(** X18.  No blob name is longer than the [file] column takes: in every
    reachable world the [file] of every row, original or duplicate, has
    at most [max_length] characters. *)
Theorem blob_names_fit_column (w : World) (r : File) :
  reachable w → r ∈ db w → (String.length (models.file r) ≤ max_length)%nat.
Proof.
  intros Hreach. revert r.
  apply (reachable_invariant
           (λ w, ∀ r, r ∈ db w →
                      (String.length (models.file r) ≤ max_length)%nat));
    [| | | | | | | exact Hreach].
  - intros w0 file_obj existing now Hw HP Hin Horig Hhash r Hr.
    simpl in Hr. apply elem_of_app in Hr as [Hr | Hr].
    + unfold bump in Hr. apply list_elem_of_fmap in Hr as (r0 & -> & Hr0).
      rewrite bump_row_file. by apply HP.
    + apply list_elem_of_singleton in Hr as ->. simpl. by apply HP.
  - intros w0 name file_obj now Hw HP Hvalid Hname Hnone r Hr.
    simpl in Hr. apply elem_of_app in Hr as [Hr | Hr]; [by apply HP|].
    apply list_elem_of_singleton in Hr as ->. simpl.
    by apply (get_available_name_max_length (media w0)
                (requested_path w0 file_obj)).
  - intros w0 name file_obj Hw HP Hname r Hr. by apply HP.
  - intros w0 Hw HP r Hr. by apply HP.
  - intros w0 instance Hw HP Hin Hdup r Hr. simpl in Hr.
    apply elem_of_remove in Hr as [Hr _].
    destruct (models.referenced_file instance) as [pk|]; [|by apply HP].
    unfold bump in Hr. apply list_elem_of_fmap in Hr as (r0 & -> & Hr0).
    rewrite bump_row_file. by apply HP.
  - intros w0 instance Hw HP Hin Horig Hcount r Hr. simpl in Hr.
    apply elem_of_remove in Hr as [Hr _]. by apply HP.
  - intros r Hr. by apply elem_of_nil in Hr.
Qed.
End content_addressing.
(** * Requests served one after the other, and uploads that are overtaken *)

Section request_properties.
Context {hashlib : Hashlib} {framework : Framework}.

(** In a consistent world [get_object] returns a row, or raises [Http404]
    or the validation error of the filters, and nothing else: no key is
    held by two rows. *)
Lemma get_object_cases q pk w :
  consistent w →
  (∃ r, r ∈ db w ∧ models.id r = pk ∧ selects q r
        ∧ FileViewSet.get_object q pk (connect w) = (Return r, connect w))
  ∨ FileViewSet.get_object q pk (connect w) = (Raise Http404, connect w)
  ∨ ∃ field reason,
      FileViewSet.get_object q pk (connect w)
      = (Raise (ValidationError [(field, reason)]), connect w).
Proof.
  intros Hw. unfold FileViewSet.get_object, selects.
  destruct (FileViewSet.get_queryset q) as [e | queryset] eqn:Hq.
  { right. right. destruct (get_queryset_error q e Hq) as (field & reason & ->).
    by exists field, reason. }
  unfold bind. rewrite evaluate_connect.
  destruct (filter (λ r, qs_filter queryset (pk_is pk) r) (db w))
    as [|r rows] eqn:Hrows.
  - right. left. done.
  - left. exists r.
    assert (r ∈ filter (λ r, qs_filter queryset (pk_is pk) r) (db w)) as Hr
      by (rewrite Hrows; left).
    apply list_elem_of_filter in Hr as [HP Hr]. apply Is_true_true in HP.
    unfold qs_filter in HP. apply andb_true_iff in HP as [Hsel Hpk%pk_is_true].
    split; [done|]. split; [done|]. split; [by exists queryset|].
    subst pk. rewrite <- Hrows.
    rewrite (filter_key (db w) queryset r); [done | apply Hw | done | done].
Qed.

(** X14.  Only a success changes the service.  In a reachable world,
    for every request served on its own: answered 201, the table has
    exactly one row more; answered 204, exactly one row less; answered
    anything else (a refusal of any kind), the table and the storage are
    exactly as they were. *)
Theorem only_success_changes_state (w : World) (r : request) :
  reachable w →
  (status (serve r [] w).1 = 201%nat →
   length (db (serve r [] w).2) = S (length (db w)))
  ∧ (status (serve r [] w).1 = 204%nat →
     S (length (db (serve r [] w).2)) = length (db w))
  ∧ (status (serve r [] w).1 ≠ 201%nat →
     status (serve r [] w).1 ≠ 204%nat →
     db (serve r [] w).2 = db w ∧ media (serve r [] w).2 = media w).
Proof.
  intros Hw%reachable_consistent. unfold serve, handle.
  destruct r as [file now | pk q | q].
  - destruct file as [file_obj|].
    2: { rewrite create_no_file. simpl. by repeat split. }
    destruct (upload.truthy file_obj) eqn:Htruthy.
    2: { rewrite create_falsy_file by done. simpl. by repeat split. }
    set (digest := sha256_hex (upload.content file_obj)).
    destruct (existsb (content_hash_is digest) (db w)) eqn:Hheld.
    + apply existsb_true in Hheld as (existing & Hin & Hhash).
      apply bool_decide_eq_true in Hhash.
      rewrite (create_found _ _ _ _ existing) by done.
      cbn [fst snd status after_duplicate db].
      split; [|by split].
      intros _. rewrite length_app. unfold bump. rewrite length_map.
      simpl. lia.
    + assert (Hnone : ∀ r, r ∈ db w → models.content_hash r ≠ Some digest).
      { intros r Hr. rewrite existsb_false in Hheld.
        specialize (Hheld r Hr). by apply bool_decide_eq_false in Hheld. }
      destruct (decide (serializer_errors file_obj = [])) as [Hvalid | Hbad].
      * destruct (blob_name w file_obj) as [name|] eqn:Hname.
        -- rewrite (create_fresh (run []) w file_obj name) by done.
           cbn [fst snd status after_original db].
           split; [|by split].
           intros _. rewrite length_app. simpl. lia.
        -- rewrite (create_refused (run []) w) by done.
           simpl. by repeat split.
      * rewrite create_invalid by done. simpl. by repeat split.
  - destruct (get_object_cases q pk w Hw)
      as [(instance & Hin & <- & Hsel & Hget) | [Hget | (field & reason & Hget)]].
    + clear Hget. destruct (models.is_duplicate instance) eqn:Hd.
      * rewrite destroy_duplicate by done.
        cbn [fst snd status]. split; [done|]. split; [|done]. intros _.
        destruct (duplicate_shape w Hw instance Hin Hd)
          as (_ & _ & c & Hc & Href & _).
        cbn [after_delete_duplicate db]. rewrite Href.
        rewrite <- (bump_row_id (models.id c) (-1) instance).
        rewrite length_remove.
        -- unfold bump. by rewrite length_map.
        -- rewrite bump_ids. apply Hw.
        -- unfold bump. apply list_elem_of_fmap. by exists instance.
      * destruct (Z.le_gt_cases (models.reference_count instance) 1).
        -- rewrite destroy_free by done.
           cbn [fst snd status]. split; [done|]. split; [|done]. intros _.
           cbn [after_delete_original db].
           apply length_remove; [apply Hw | done].
        -- rewrite destroy_protected by done. simpl. by repeat split.
    + assert (respond (FileViewSet.destroy q pk) w
              = (exception_handler Http404, w)) as ->.
      { unfold respond, FileViewSet.destroy, bind at 1. rewrite Hget.
        by destruct w. }
      simpl. by repeat split.
    + assert (respond (FileViewSet.destroy q pk) w
              = (exception_handler (ValidationError [(field, reason)]), w)) as ->.
      { unfold respond, FileViewSet.destroy, bind at 1. rewrite Hget.
        by destruct w. }
      simpl. by repeat split.
  - rewrite list_view_world.
    unfold respond, FileViewSet.list_view.
    destruct (FileViewSet.get_queryset q) as [e | queryset] eqn:Hq.
    + destruct (get_queryset_error q e Hq) as (field & reason & ->).
      simpl. by repeat split.
    + unfold bind. rewrite evaluate_connect. simpl. by repeat split.
Qed.

(** X15.  An upload that is overtaken between its lookup and its insert
    by requests that do not store its content is served as if it had come
    after them: same response, same world.  The lookup made before them
    found nothing, and nothing else is carried across. *)
Theorem overtaken_upload_serialised (w : World) (file_obj : UploadedFile)
    (now : Z) (concurrent : list request) :
  reachable w →
  upload.truthy file_obj = true →
  (∀ r, r ∈ db w → models.content_hash r ≠ Some (digest_of file_obj)) →
  (∀ r, r ∈ db (run concurrent w) →
        models.content_hash r ≠ Some (digest_of file_obj)) →
  serve (POST (Some file_obj) now) concurrent w
  = serve (POST (Some file_obj) now) [] (run concurrent w).
Proof.
  intros Hw%reachable_consistent Htruthy Hnone Hnone'.
  rewrite digest_of_spec in *.
  pose proof (run_consistent concurrent w Hw) as Hw'.
  unfold serve, handle.
  destruct (decide (serializer_errors file_obj = [])) as [Hvalid | Hbad].
  - destruct (blob_name (run concurrent w) file_obj) as [name|] eqn:Hname.
    + rewrite (create_fresh (run concurrent) w file_obj name) by done.
      by rewrite (create_fresh (run []) (run concurrent w) file_obj name)
        by done.
    + rewrite (create_refused (run concurrent) w) by done.
      by rewrite (create_refused (run []) (run concurrent w)) by done.
  - rewrite (create_invalid (run concurrent) w) by done.
    by rewrite (create_invalid (run []) (run concurrent w)) by done.
Qed.

(** X16.  The serializer validates an upload only when its content is
    new.  An upload it refuses is answered 400 with its errors and changes
    nothing when no row holds the digest; the same upload is recorded as a
    duplicate, name and declared type unchecked, and answered 201 when an
    original holds the digest. *)
Theorem validation_only_for_new_content (w : World) (file_obj : UploadedFile)
    (now : Z) :
  reachable w →
  upload.truthy file_obj = true →
  serializer_errors file_obj ≠ [] →
  (∀ existing, existing ∈ db w →
     models.content_hash existing = Some (digest_of file_obj) →
     serve (POST (Some file_obj) now) [] w
     = ({| status := HTTP_201_CREATED;
           data := Serialized
                     (duplicate_of (uuid_supply w) file_obj existing now) |},
        after_duplicate w file_obj existing now))
  ∧ ((∀ r, r ∈ db w → models.content_hash r ≠ Some (digest_of file_obj)) →
     serve (POST (Some file_obj) now) [] w
     = ({| status := HTTP_400_BAD_REQUEST;
           data := Errors (serializer_errors file_obj) |}, w)).
Proof.
  intros Hw%reachable_consistent Htruthy Hbad. rewrite digest_of_spec.
  unfold serve, handle. split.
  - intros existing Hin Hhash. by apply create_found.
  - intros Hnone. by rewrite create_invalid.
Qed.

(** X19.  The storage can refuse what the serializer accepts: an upload
    of new content that passes validation but whose blob path the storage
    does not take (by [file_upload_path] the path carries what follows the
    last dot of the client's name, however long) is answered 400 by
    Django, not by the view, and neither a row nor a blob is created. *)
Theorem upload_refused_by_storage (w : World) (file_obj : UploadedFile)
    (now : Z) :
  serializer_errors file_obj = [] →
  blob_name w file_obj = None →
  (∀ r, r ∈ db w → models.content_hash r ≠ Some (digest_of file_obj)) →
  (serve (POST (Some file_obj) now) [] w).1
  = {| status := 400; data := ErrorPage |}
  ∧ db (serve (POST (Some file_obj) now) [] w).2 = db w
  ∧ media (serve (POST (Some file_obj) now) [] w).2 = media w.
Proof.
  intros Hvalid Hname Hnone. rewrite digest_of_spec in *.
  unfold serve, handle.
  rewrite (create_refused (run []) w); [done | | done | done | done].
  by apply valid_truthy.
Qed.
End request_properties.
(** * The further properties on the sample framework *)

Lemma destroy_not_found_witness :
  @FileViewSet.get_queryset sample.framework {[ "size_min" := "100" ]}
  = inr (qs_filter objects_all (λ r, 100 <=? models.size r))
  ∧ (∀ r, r ∈ db sample.one_upload → models.id r = 0%N →
          qs_filter objects_all (λ r, 100 <=? models.size r) r = false)
  ∧ sample.serves (DELETE 0%N {[ "size_min" := "100" ]}) [] sample.one_upload
    = ({| status := 404; data := Detail "Not found." |}, sample.one_upload).
Proof.
  assert (Hq : @FileViewSet.get_queryset sample.framework {[ "size_min" := "100" ]}
               = inr (qs_filter objects_all (λ r, 100 <=? models.size r)))
    by (vm_compute; reflexivity).
  assert (Hnone : ∀ r, r ∈ db sample.one_upload → models.id r = 0%N →
            qs_filter objects_all (λ r, 100 <=? models.size r) r = false).
  { rewrite sample_one_upload_rows. intros r Hr _.
    apply list_elem_of_singleton in Hr as ->. reflexivity. }
  split; [exact Hq|]. split; [exact Hnone|].
  exact (@destroy_not_found sample.hashlib sample.framework
           {[ "size_min" := "100" ]} _ 0%N [] sample.one_upload Hq Hnone).
Defined.

Lemma destroy_rejects_malformed_witness :
  @FileViewSet.get_queryset sample.framework {[ "size_min" := "abc" ]}
  = inl (ValidationError [("size_min", "Must be a valid integer")])
  ∧ sample.serves (DELETE 0%N {[ "size_min" := "abc" ]}) [] sample.two_uploads
    = sample.serves (GET {[ "size_min" := "abc" ]}) [] sample.two_uploads
  ∧ snd (sample.serves (DELETE 0%N {[ "size_min" := "abc" ]}) [] sample.two_uploads)
    = sample.two_uploads
  ∧ ∃ field reason,
      fst (sample.serves (DELETE 0%N {[ "size_min" := "abc" ]}) []
             sample.two_uploads)
      = {| status := HTTP_400_BAD_REQUEST; data := Errors [(field, reason)] |}.
Proof.
  assert (Hq : @FileViewSet.get_queryset sample.framework {[ "size_min" := "abc" ]}
               = inl (ValidationError [("size_min", "Must be a valid integer")]))
    by (vm_compute; reflexivity).
  split; [exact Hq|].
  exact (@destroy_rejects_malformed sample.hashlib sample.framework
           {[ "size_min" := "abc" ]} _ 0%N [] sample.two_uploads Hq).
Defined.

Lemma upload_then_delete_witness :
  @reachable sample.hashlib sample.framework empty_world
  ∧ sample.errors sample.report = []
  ∧ @blob_name sample.framework empty_world sample.report
    = Some "uploads/00000000-0000-0000-0000-000000000001.txt"
  ∧ ∃ r w1 w2,
      sample.serves (POST (Some sample.report) 10) [] empty_world
      = ({| status := HTTP_201_CREATED; data := Serialized r |}, w1)
      ∧ models.is_duplicate r = false
      ∧ models.file r = "uploads/00000000-0000-0000-0000-000000000001.txt"
      ∧ sample.serves (DELETE (models.id r) ∅) [] w1
        = ({| status := HTTP_204_NO_CONTENT; data := NoContent |}, w2)
      ∧ db w2 = db empty_world
      ∧ media w2 = media empty_world.
Proof.
  assert (Hname : @blob_name sample.framework empty_world sample.report
                  = Some "uploads/00000000-0000-0000-0000-000000000001.txt")
    by (vm_compute; reflexivity).
  split; [apply reachable_empty|]. split; [reflexivity|]. split; [exact Hname|].
  apply (@upload_then_delete sample.hashlib sample.framework
           empty_world sample.report 10 _).
  - apply reachable_empty.
  - reflexivity.
  - exact Hname.
  - intros r Hr. by apply elem_of_nil in Hr.
Defined.

Lemma duplicate_then_delete_witness :
  @reachable sample.hashlib sample.framework sample.one_upload
  ∧ upload.truthy sample.copy = true
  ∧ sample.first_row ∈ db sample.one_upload
  ∧ models.content_hash sample.first_row
    = Some (@digest_of sample.hashlib sample.copy)
  ∧ ∃ d w1 w2,
      sample.serves (POST (Some sample.copy) 20) [] sample.one_upload
      = ({| status := HTTP_201_CREATED; data := Serialized d |}, w1)
      ∧ models.is_duplicate d = true
      ∧ sample.serves (DELETE (models.id d) ∅) [] w1
        = ({| status := HTTP_204_NO_CONTENT; data := NoContent |}, w2)
      ∧ db w2 = db sample.one_upload
      ∧ media w2 = media sample.one_upload.
Proof.
  assert (Hin : sample.first_row ∈ db sample.one_upload)
    by (rewrite sample_one_upload_rows; left).
  assert (Hhash : models.content_hash sample.first_row
                  = Some (@digest_of sample.hashlib sample.copy))
    by (vm_compute; reflexivity).
  split; [apply sample_reachable_one|]. split; [reflexivity|].
  split; [exact Hin|]. split; [exact Hhash|].
  exact (@duplicate_then_delete sample.hashlib sample.framework
           sample.one_upload sample.copy 20 sample.first_row
           sample_reachable_one eq_refl Hin Hhash).
Defined.

Lemma repeated_uploads_stored_once_witness :
  @reachable sample.hashlib sample.framework empty_world
  ∧ sample.errors sample.report = []
  ∧ @blob_name sample.framework empty_world sample.report
    = Some "uploads/00000000-0000-0000-0000-000000000001.txt"
  ∧ Forall (λ copy, upload.name copy.1 ≠ ""
                    ∧ upload.content copy.1 = upload.content sample.report)
      [(sample.copy, 20); (sample.copy, 30)]
  ∧ ∃ original duplicates,
      db (@run sample.hashlib sample.framework
            (uploads [(sample.report, 10); (sample.copy, 20); (sample.copy, 30)])
            empty_world)
      = db empty_world ++ [original] ++ duplicates
      ∧ models.reference_count original = 3
      ∧ length duplicates = 2%nat.
Proof.
  assert (Hname : @blob_name sample.framework empty_world sample.report
                  = Some "uploads/00000000-0000-0000-0000-000000000001.txt")
    by (vm_compute; reflexivity).
  assert (Hcopies : Forall (λ copy, upload.name copy.1 ≠ ""
                      ∧ upload.content copy.1 = upload.content sample.report)
                      [(sample.copy, 20); (sample.copy, 30)])
    by (repeat constructor; discriminate).
  assert (Hnone : ∀ r, r ∈ db empty_world →
            models.content_hash r ≠ Some (@digest_of sample.hashlib sample.report))
    by (intros r Hr; by apply elem_of_nil in Hr).
  split; [apply reachable_empty|]. split; [reflexivity|]. split; [exact Hname|].
  split; [exact Hcopies|].
  destruct (@repeated_uploads_stored_once sample.hashlib sample.framework
              empty_world sample.report 10 [(sample.copy, 20); (sample.copy, 30)]
              _ reachable_empty eq_refl Hname Hnone Hcopies)
    as (original & duplicates & Hdb & _ & _ & _ & _ & _ & _ & Hcount & Hdups).
  exists original, duplicates. split; [exact Hdb|]. split; [exact Hcount|].
  exact (Forall2_length _ _ _ Hdups).
Defined.

Lemma stored_content_matches_hash_witness :
  @reachable sample.hashlib sample.framework sample.two_uploads
  ∧ sample.second_row ∈ db sample.two_uploads
  ∧ ∃ original bytes,
      original ∈ db sample.two_uploads
      ∧ models.is_duplicate original = false
      ∧ (if models.is_duplicate sample.second_row
         then models.referenced_file sample.second_row = Some (models.id original)
         else original = sample.second_row)
      ∧ media sample.two_uploads !! models.file sample.second_row = Some bytes
      ∧ models.content_hash original = Some (@sha256_hex sample.hashlib bytes)
      ∧ models.size original = Z.of_nat (length bytes).
Proof.
  assert (Hin : sample.second_row ∈ db sample.two_uploads)
    by (rewrite sample_two_uploads_rows; right; left).
  split; [apply sample_reachable_two|]. split; [exact Hin|].
  exact (@stored_content_matches_hash sample.hashlib sample.framework
           sample.two_uploads sample.second_row sample_reachable_two Hin).
Defined.

Lemma content_stored_once_witness :
  @reachable sample.hashlib sample.framework sample.two_uploads
  ∧ models.with_reference_count sample.first_row 2 ∈ db sample.two_uploads
  ∧ media sample.two_uploads
      !! models.file (models.with_reference_count sample.first_row 2)
    = Some [x68; x69]
  ∧ models.with_reference_count sample.first_row 2
    = models.with_reference_count sample.first_row 2.
Proof.
  assert (Hin : models.with_reference_count sample.first_row 2
                ∈ db sample.two_uploads)
    by (rewrite sample_two_uploads_rows; left).
  assert (Hblob : media sample.two_uploads
                    !! models.file (models.with_reference_count sample.first_row 2)
                  = Some [x68; x69])
    by (vm_compute; reflexivity).
  split; [apply sample_reachable_two|]. split; [exact Hin|]. split; [exact Hblob|].
  exact (@content_stored_once sample.hashlib sample.framework
           sample.two_uploads _ _ [x68; x69] sample_reachable_two Hin Hin
           eq_refl eq_refl Hblob Hblob).
Defined.

Lemma referenced_file_sound_witness :
  @reachable sample.hashlib sample.framework sample.two_uploads
  ∧ sample.second_row ∈ db sample.two_uploads
  ∧ models.referenced_file sample.second_row = Some 0%N
  ∧ models.is_duplicate sample.second_row = true
  ∧ ∃ original,
      row 0%N (db sample.two_uploads) = Some original
      ∧ models.is_duplicate original = false
      ∧ models.referenced_file original = None
      ∧ models.file original = models.file sample.second_row
      ∧ 1 < models.reference_count original
      ∧ ∀ other, other ∈ db sample.two_uploads → models.id other = 0%N →
                 other = original.
Proof.
  assert (Hin : sample.second_row ∈ db sample.two_uploads)
    by (rewrite sample_two_uploads_rows; right; left).
  split; [apply sample_reachable_two|]. split; [exact Hin|].
  split; [reflexivity|].
  exact (@referenced_file_sound sample.hashlib sample.framework
           sample.two_uploads sample.second_row 0%N sample_reachable_two Hin
           eq_refl).
Defined.

Lemma only_success_changes_state_witness :
  @reachable sample.hashlib sample.framework sample.one_upload
  ∧ (status (sample.serves (POST (Some sample.copy) 20) [] sample.one_upload).1
       = 201%nat →
     length (db (sample.serves (POST (Some sample.copy) 20) []
                   sample.one_upload).2)
     = S (length (db sample.one_upload)))
  ∧ (status (sample.serves (DELETE 0%N ∅) [] sample.one_upload).1 = 204%nat →
     S (length (db (sample.serves (DELETE 0%N ∅) [] sample.one_upload).2))
     = length (db sample.one_upload))
  ∧ (status (sample.serves (DELETE 7%N ∅) [] sample.one_upload).1 ≠ 201%nat →
     status (sample.serves (DELETE 7%N ∅) [] sample.one_upload).1 ≠ 204%nat →
     db (sample.serves (DELETE 7%N ∅) [] sample.one_upload).2
     = db sample.one_upload
     ∧ media (sample.serves (DELETE 7%N ∅) [] sample.one_upload).2
       = media sample.one_upload).
Proof.
  split; [apply sample_reachable_one|]. split; [|split].
  - exact (proj1 (@only_success_changes_state sample.hashlib sample.framework
                    sample.one_upload (POST (Some sample.copy) 20)
                    sample_reachable_one)).
  - exact (proj1 (proj2 (@only_success_changes_state sample.hashlib
                           sample.framework sample.one_upload (DELETE 0%N ∅)
                           sample_reachable_one))).
  - exact (proj2 (proj2 (@only_success_changes_state sample.hashlib
                           sample.framework sample.one_upload (DELETE 7%N ∅)
                           sample_reachable_one))).
Defined.

Lemma notes_uploaded_rows :
  db examples.notes_uploaded
  = [original_of 0%N "uploads/00000000-0000-0000-0000-000000000001.md"
       examples.notes "61" 5].
Proof. vm_compute. reflexivity. Qed.

Lemma overtaken_upload_serialised_witness :
  @reachable sample.hashlib sample.framework empty_world
  ∧ upload.truthy sample.report = true
  ∧ (∀ r, r ∈ db examples.notes_uploaded →
          models.content_hash r ≠ Some (@digest_of sample.hashlib sample.report))
  ∧ sample.serves (POST (Some sample.report) 10)
      [POST (Some examples.notes) 5] empty_world
    = sample.serves (POST (Some sample.report) 10) [] examples.notes_uploaded.
Proof.
  assert (Hnone : ∀ r, r ∈ db empty_world →
            models.content_hash r ≠ Some (@digest_of sample.hashlib sample.report))
    by (intros r Hr; by apply elem_of_nil in Hr).
  assert (Hnone' : ∀ r, r ∈ db examples.notes_uploaded →
            models.content_hash r ≠ Some (@digest_of sample.hashlib sample.report)).
  { rewrite notes_uploaded_rows. intros r Hr.
    apply list_elem_of_singleton in Hr as ->. vm_compute. discriminate. }
  split; [apply reachable_empty|]. split; [reflexivity|]. split; [exact Hnone'|].
  exact (@overtaken_upload_serialised sample.hashlib sample.framework
           empty_world sample.report 10 [POST (Some examples.notes) 5]
           reachable_empty eq_refl Hnone Hnone').
Defined.

Lemma validation_only_for_new_content_witness :
  @reachable sample.hashlib sample.framework sample.one_upload
  ∧ upload.truthy examples.blank_name = true
  ∧ sample.errors examples.blank_name
    = [("original_filename", "This field may not be blank.")]
  ∧ sample.first_row ∈ db sample.one_upload
  ∧ models.content_hash sample.first_row
    = Some (@digest_of sample.hashlib examples.blank_name)
  ∧ sample.serves (POST (Some examples.blank_name) 20) [] sample.one_upload
    = ({| status := HTTP_201_CREATED;
          data := Serialized
                    (duplicate_of (uuid_supply sample.one_upload)
                       examples.blank_name sample.first_row 20) |},
       after_duplicate sample.one_upload examples.blank_name sample.first_row 20)
  ∧ sample.serves (POST (Some examples.blank_name) 20) [] empty_world
    = ({| status := HTTP_400_BAD_REQUEST;
          data := Errors [("original_filename", "This field may not be blank.")] |},
       empty_world).
Proof.
  assert (Hin : sample.first_row ∈ db sample.one_upload)
    by (rewrite sample_one_upload_rows; left).
  assert (Hhash : models.content_hash sample.first_row
                  = Some (@digest_of sample.hashlib examples.blank_name))
    by (vm_compute; reflexivity).
  assert (Hbad : @serializer_errors sample.framework examples.blank_name ≠ [])
    by discriminate.
  assert (Hnone : ∀ r, r ∈ db empty_world →
            models.content_hash r
            ≠ Some (@digest_of sample.hashlib examples.blank_name))
    by (intros r Hr; by apply elem_of_nil in Hr).
  split; [apply sample_reachable_one|]. split; [reflexivity|].
  split; [reflexivity|]. split; [exact Hin|]. split; [exact Hhash|].
  split.
  - exact (proj1 (@validation_only_for_new_content sample.hashlib
                    sample.framework sample.one_upload examples.blank_name 20
                    sample_reachable_one eq_refl Hbad)
             sample.first_row Hin Hhash).
  - exact (proj2 (@validation_only_for_new_content sample.hashlib
                    sample.framework empty_world examples.blank_name 20
                    reachable_empty eq_refl Hbad)
             Hnone).
Defined.

Lemma blob_names_fit_column_witness :
  @reachable sample.hashlib sample.framework sample.two_uploads
  ∧ sample.second_row ∈ db sample.two_uploads
  ∧ (String.length (models.file sample.second_row) ≤ max_length)%nat.
Proof.
  assert (Hin : sample.second_row ∈ db sample.two_uploads)
    by (rewrite sample_two_uploads_rows; right; left).
  split; [apply sample_reachable_two|]. split; [exact Hin|].
  exact (@blob_names_fit_column sample.hashlib sample.framework
           sample.two_uploads sample.second_row sample_reachable_two Hin).
Defined.

Lemma upload_refused_by_storage_witness :
  sample.errors examples.long_extension = []
  ∧ @blob_name sample.framework sample.one_upload examples.long_extension = None
  ∧ (sample.serves (POST (Some examples.long_extension) 20) []
       sample.one_upload).1
    = {| status := 400; data := ErrorPage |}
  ∧ db (sample.serves (POST (Some examples.long_extension) 20) []
          sample.one_upload).2
    = db sample.one_upload
  ∧ media (sample.serves (POST (Some examples.long_extension) 20) []
             sample.one_upload).2
    = media sample.one_upload.
Proof.
  assert (Hvalid : sample.errors examples.long_extension = [])
    by (vm_compute; reflexivity).
  assert (Hname : @blob_name sample.framework sample.one_upload
                    examples.long_extension = None)
    by (vm_compute; reflexivity).
  assert (Hnone : ∀ r, r ∈ db sample.one_upload →
            models.content_hash r
            ≠ Some (@digest_of sample.hashlib examples.long_extension)).
  { rewrite sample_one_upload_rows. intros r Hr.
    apply list_elem_of_singleton in Hr as ->. vm_compute. discriminate. }
  split; [exact Hvalid|]. split; [exact Hname|].
  exact (@upload_refused_by_storage sample.hashlib sample.framework
           sample.one_upload examples.long_extension 20 Hvalid Hname Hnone).
Defined.
